(** * SPANet: validation metrics and validation losses

    A shallow embedding of
    [spanet/network/jet_reconstruction/jet_reconstruction_validation.py]
    (class [JetReconstructionValidation]) and the properties of its
    permutation search, its metric dictionary, its loss aggregation and its
    logging.

    Conventions of the embedding:
    - numpy arrays and torch tensors are lists, a 2-d array is the list of its
      rows and its shape is the number of its rows and the length of its first
      row; comparisons and assignments of arrays broadcast as numpy does and
      raise on shapes that cannot be broadcast; jet indices are [Z], counts
      and positions are [nat];
    - floating point numbers are IEEE 754 values ([spec_float]); the
      elementwise operations are the correctly rounded ones, the reductions
      whose order of summation is chosen by the tensor library ([torch.sum],
      [torch.mean], [np.mean] over floats) are parameters;
    - a Python [dict] is an association list in insertion order;
    - [raise] is the [Raise] result, [self.log] appends to a trace that is kept
      when an exception is raised later;
    - methods inherited from the network class and the library metrics are
      section variables. *)

From Stdlib Require Import ZArith String Ascii List Bool Arith Lia.
From Stdlib Require Import Permutation Sorted.
From Stdlib Require Import DecimalNat DecimalString.
From Stdlib Require Import Floats.SpecFloat.
Import ListNotations.
Open Scope string_scope.
Open Scope nat_scope.
Open Scope list_scope.

Set Implicit Arguments.

(* ===================================================================== *)
(** * Floating point values *)
(* ===================================================================== *)

Module Float.

Definition float := spec_float.

(** [float64], the type of the numpy means and of the library metrics. *)
Definition prec64 : Z := 53.
Definition emax64 : Z := 1024.
(** [float32], the type of the torch losses and weights. *)
Definition prec32 : Z := 24.
Definition emax32 : Z := 128.

Definition of_nat64 (n : nat) : float :=
  binary_normalize prec64 emax64 (Z.of_nat n) 0 false.
Definition of_nat32 (n : nat) : float :=
  binary_normalize prec32 emax32 (Z.of_nat n) 0 false.

Definition div64 : float -> float -> float := SFdiv prec64 emax64.
Definition div32 : float -> float -> float := SFdiv prec32 emax32.
Definition mul32 : float -> float -> float := SFmul prec32 emax32.
Definition sub32 : float -> float -> float := SFsub prec32 emax32.

Definition zero : float := S754_zero false.
Definition one : float := S754_finite false 8388608 (-23).
Definition half : float := S754_finite false 8388608 (-24).
Definition nan : float := S754_nan.
Definition inf : float := S754_infinity false.

(** [np.isnan], [torch.isnan] *)
Definition isnan (x : float) : bool :=
  match x with S754_nan => true | _ => false end.

(** [torch.isinf] *)
Definition isinf (x : float) : bool :=
  match x with S754_infinity _ => true | _ => false end.

(** [x >= y] *)
Definition geb (x y : float) : bool := SFleb y x.
(** [x > y] *)
Definition gtb (x y : float) : bool := SFltb y x.

End Float.
Import Float.

(* ===================================================================== *)
(** * Exceptions *)
(* ===================================================================== *)

Inductive exn : Type :=
| ValueError (msg : string)
| IndexError
| KeyError (key : string)
| RuntimeError (msg : string).

Inductive result (A : Type) : Type :=
| Ok (a : A)
| Raise (e : exn).
Arguments Ok {A} a.
Arguments Raise {A} e.

Definition rbind {A B} (m : result A) (k : A -> result B) : result B :=
  match m with
  | Ok a => k a
  | Raise e => Raise e
  end.

Declare Scope result_scope.
Delimit Scope result_scope with result.
Notation "x <- m ;; k" := (rbind m (fun x => k))
  (at level 61, m at next level, right associativity) : result_scope.

Fixpoint mapR {A B} (f : A -> result B) (l : list A) : result (list B) :=
  match l with
  | [] => Ok []
  | a :: l' =>
      (b <- f a ;;
       bs <- mapR f l' ;;
       Ok (b :: bs))%result
  end.

(** [xs[i]] for a non-negative position. *)
Definition index {A} (xs : list A) (i : nat) : result A :=
  match nth_error xs i with
  | Some x => Ok x
  | None => Raise IndexError
  end.

(** [xs[idx]] for an array of positions (numpy and torch advanced indexing). *)
Definition index_many {A} (xs : list A) (idx : list nat) : result (list A) :=
  mapR (index xs) idx.

(* ===================================================================== *)
(** * Dictionaries in insertion order *)
(* ===================================================================== *)

Module Dict.

Definition dict (V : Type) := list (string * V).

Fixpoint get {V} (k : string) (d : dict V) : option V :=
  match d with
  | [] => None
  | (k', v) :: d' => if String.eqb k k' then Some v else get k d'
  end.

(** [d[k] = v]: an existing key keeps its position, a new key goes last. *)
Fixpoint set {V} (k : string) (v : V) (d : dict V) : dict V :=
  match d with
  | [] => [(k, v)]
  | (k', v') :: d' =>
      if String.eqb k k' then (k', v) :: d' else (k', v') :: set k v d'
  end.

(** [d.update(items)], also the dict comprehension when [d] is empty. *)
Definition update {V} (d : dict V) (items : list (string * V)) : dict V :=
  fold_left (fun acc kv => set (fst kv) (snd kv) acc) items d.

(** [d.items()] *)
Definition items {V} (d : dict V) : list (string * V) := d.

(** [d[k]] *)
Definition getitem {V} (k : string) (d : dict V) : result V :=
  match get k d with
  | Some v => Ok v
  | None => Raise (KeyError k)
  end.

End Dict.

(* ===================================================================== *)
(** * Array helpers *)
(* ===================================================================== *)

Definition array2 (A : Type) := list (list A).

(** [len(a)] and the second component of [a.shape]. *)
Definition ncols {A} (a : array2 A) : nat := length (hd [] a).

(** Number of [True] entries. *)
Definition count_true (l : list bool) : nat := length (filter (fun b => b) l).

(** [a.sum(0)] of a boolean array with [width] columns: the count of [True]
    in every column. *)
Definition sum_axis0 (width : nat) (a : array2 bool) : list nat :=
  map (fun b => count_true (map (fun row => nth b row false) a)) (seq 0 width).

(** [a.T] of an array with [width] columns. *)
Definition transpose (width : nat) (a : array2 nat) : array2 nat :=
  map (fun t => map (fun row => nth t row 0) a) (seq 0 width).

(** [torch.gather(a, 0, idx)]: [out[t][b] = a[idx[t][b]][b]]. *)
Definition gather0 {A} (a : array2 A) (idx : array2 nat) : result (array2 A) :=
  mapR (fun idx_row =>
          mapR (fun bi => (row <- index a (snd bi) ;; index row (fst bi))%result)
               (combine (seq 0 (length idx_row)) idx_row))
       idx.

(** [xs[mask]] for a boolean mask. *)
Fixpoint select {A} (mask : list bool) (xs : list A) : list A :=
  match mask, xs with
  | m :: mask', x :: xs' => if m then x :: select mask' xs' else select mask' xs'
  | _, _ => []
  end.

(** [a.max(0)] of one column, [None] for an empty column. *)
Fixpoint list_max_opt (l : list nat) : option nat :=
  match l with
  | [] => None
  | x :: l' =>
      match list_max_opt l' with
      | None => Some x
      | Some m => Some (Nat.max x m)
      end
  end.

(** [a.argmax(0)] of one column: the first position of the maximum. *)
Fixpoint argmax_opt (l : list nat) : option nat :=
  match l with
  | [] => None
  | x :: l' =>
      match list_max_opt l', argmax_opt l' with
      | Some m, Some i => if m <=? x then Some 0 else Some (S i)
      | _, _ => Some 0
      end
  end.

Definition column (b : nat) (a : array2 nat) : list nat :=
  map (fun row => nth b row 0) a.

(** [a.max(0)]; numpy raises [ValueError] on an array without rows. *)
Definition max_axis0 (width : nat) (a : array2 nat) : result (list nat) :=
  match a with
  | [] => Raise (ValueError "zero-size array to reduction operation maximum which has no identity")
  | _ => mapR (fun b => match list_max_opt (column b a) with
                        | Some m => Ok m
                        | None => Raise (ValueError "zero-size array to reduction operation maximum which has no identity")
                        end) (seq 0 width)
  end.

(** [a.argmax(0)]; numpy raises [ValueError] on an array without rows. *)
Definition argmax_axis0 (width : nat) (a : array2 nat) : result (list nat) :=
  match a with
  | [] => Raise (ValueError "attempt to get argmax of an empty sequence")
  | _ => mapR (fun b => match argmax_opt (column b a) with
                        | Some i => Ok i
                        | None => Raise (ValueError "attempt to get argmax of an empty sequence")
                        end) (seq 0 width)
  end.

(** [a.ravel()] *)
Definition ravel {A} (a : array2 A) : list A := concat a.

(** [(l).mean()] of a boolean array: the count of [True] over the size, in
    [float64]; [0/0] is [nan]. *)
Definition mean_bool (l : list bool) : float :=
  div64 (of_nat64 (count_true l)) (of_nat64 (length l)).

(** One dimension of numpy's broadcasting: two equal sizes, or a size of one,
    which is stretched to the other size. *)
Definition broadcast_dim (n m : nat) : option nat :=
  if n =? m then Some n
  else if n =? 1 then Some m
  else if m =? 1 then Some n
  else None.

(** The position read, in a dimension of size [n], for the position [i] of a
    broadcast array. *)
Definition stretched (n i : nat) : nat := if n =? 1 then 0 else i.

(** The entry [(i, k)] of [a] broadcast to a larger shape. *)
Definition at2 {A} (d : A) (a : array2 A) (i k : nat) : A :=
  nth (stretched (ncols a) k) (nth (stretched (length a) i) a []) d.

(** [a == b] on two-dimensional arrays: the shapes are broadcast against each
    other, and numpy raises on shapes that cannot be. *)
Definition eq_broadcast {A} (eqb : A -> A -> bool) (d : A) (a b : array2 A)
  : result (array2 bool) :=
  match broadcast_dim (length a) (length b), broadcast_dim (ncols a) (ncols b) with
  | Some rows, Some cols =>
      Ok (map (fun i => map (fun k => eqb (at2 d a i k) (at2 d b i k)) (seq 0 cols))
              (seq 0 rows))
  | _, _ => Raise (ValueError "operands could not be broadcast together")
  end.

(** [np.all(a, axis=1)] *)
Definition all_axis1 (a : array2 bool) : list bool :=
  map (forallb (fun x => x)) a.

(** [row[...] = v] for a row of [size] entries of an array: [v] has the size
    of the row, or one entry, which fills the row. *)
Definition broadcast_to1 {A} (size : nat) (v : list A) : result (list A) :=
  if length v =? size then Ok v
  else match v with
       | [x] => Ok (repeat x size)
       | _ => Raise (ValueError "could not broadcast input array")
       end.

(** [a[...] = v] for a slice of shape [(rows, cols)]: every dimension of [v]
    has the size of the slice, or size one. *)
Definition broadcast_to2 {A} (d : A) (rows cols : nat) (v : array2 A)
  : result (array2 A) :=
  if ((length v =? rows) || (length v =? 1)) && ((ncols v =? cols) || (ncols v =? 1))
  then Ok (map (fun i => map (fun k => at2 d v i k) (seq 0 cols)) (seq 0 rows))
  else Raise (ValueError "could not broadcast input array").

(** [particle_scores >= 0.5] *)
Definition threshold_scores (particle_scores : array2 float) : array2 bool :=
  map (map (fun s => geb s half)) particle_scores.

(* ===================================================================== *)
(** * Metric names *)
(* ===================================================================== *)

(** [f"{n}"] for a non-negative integer. *)
Definition str_of_nat (n : nat) : string :=
  NilEmpty.string_of_uint (Nat.to_uint n).

(** [f"{family}/accuracy_{i}_of_{j}"] *)
Definition accuracy_key (family : string) (i j : nat) : string :=
  (family ++ "/accuracy_" ++ str_of_nat i ++ "_of_" ++ str_of_nat j)%string.

(** [f"particle/{name}"] *)
Definition particle_key (name : string) : string := ("particle/" ++ name)%string.

(** [(accuracies[num_particles == j] >= i).mean()] *)
Definition accuracy_fraction (accuracies num_particles : list nat) (i j : nat)
  : float :=
  mean_bool (map (fun a => i <=? a)
                 (select (map (fun n => n =? j) num_particles) accuracies)).

(** The items of the comprehension
    [{f"{family}/accuracy_{i}_of_{j}": ... for j in range(1, num_targets + 1)
                                           for i in range(1, j + 1)}]. *)
Definition accuracy_items (family : string) (accuracies num_particles : list nat)
  (num_targets : nat) : list (string * float) :=
  flat_map (fun j =>
              map (fun i => (accuracy_key family i j,
                             accuracy_fraction accuracies num_particles i j))
                  (seq 1 j))
           (seq 1 num_targets).

(* ===================================================================== *)
(** * [compute_metrics] *)
(* ===================================================================== *)

Section ComputeMetrics.

(** [sklearn.metrics.accuracy_score], [recall_score] and [f1_score]. *)
Variables accuracy_score recall_score f1_score : list bool -> list bool -> float.

(** [self.event_permutation_tensor]: one row per permutation of the event
    permutation group, each row listing the source target of every target. *)
Variable event_permutation_tensor : array2 nat.

Definition particle_metrics : list (string * (list bool -> list bool -> float)) :=
  [ ("accuracy", accuracy_score);
    ("sensitivity", recall_score);
    ("specificity", fun t p => recall_score (map negb t) (map negb p));
    ("f_score", f1_score) ].

Definition particle_score_metrics
  : list (string * (list bool -> list float -> float)) := [].

(** The body of the loop over the permutations: the slices
    [jet_accuracies[i]] and [particle_accuracies[i]] of the arrays of zeros.
    In the loop over the targets the comparison is evaluated first, then row
    [j] of the slice is written: a row past the end is an [IndexError]. *)
Definition permutation_accuracies
  (jet_predictions stacked_targets : list (array2 Z))
  (stacked_masks particle_predictions : array2 bool)
  (permutation : list nat) : result (array2 bool * array2 bool) :=
  let num_targets := length stacked_masks in
  let batch_size := ncols stacked_masks in
  (permuted_targets <- index_many stacked_targets permutation ;;
   jet_rows <-
     mapR (fun jpt : nat * (array2 Z * array2 Z) =>
             (equal <- eq_broadcast Z.eqb 0%Z (fst (snd jpt)) (snd (snd jpt)) ;;
              if fst jpt <? num_targets
              then broadcast_to1 batch_size (all_axis1 equal)
              else Raise IndexError)%result)
          (combine (seq 0 (length jet_predictions))
                   (combine jet_predictions permuted_targets)) ;;
   let jet_accuracies :=
     jet_rows ++ repeat (repeat false batch_size) (num_targets - length jet_rows) in
   permuted_masks <- index_many stacked_masks permutation ;;
   equal <- eq_broadcast Bool.eqb false permuted_masks particle_predictions ;;
   particle_accuracies <- broadcast_to2 false num_targets batch_size equal ;;
   Ok (jet_accuracies, particle_accuracies))%result.

(** The first half of [compute_metrics], up to the final accuracy vectors:
    [(jet_accuracies, particle_accuracies, permuted_masks, num_particles)]. *)
Definition best_permutation_accuracies
  (jet_predictions : list (array2 Z)) (particle_predictions : array2 bool)
  (stacked_targets : list (array2 Z)) (stacked_masks : array2 bool)
  : result (list nat * list nat * array2 bool * list nat) :=
  let event_permutation_group := event_permutation_tensor in
  let batch_size := ncols stacked_masks in
  (accuracies <- mapR (permutation_accuracies jet_predictions stacked_targets
                         stacked_masks particle_predictions)
                      event_permutation_group ;;
   let jet_accuracies := map (fun a => sum_axis0 batch_size (fst a)) accuracies in
   let particle_accuracies := map (fun a => sum_axis0 batch_size (snd a)) accuracies in
   best <- argmax_axis0 batch_size jet_accuracies ;;
   chosen <- index_many event_permutation_tensor best ;;
   let chosen_permutations := transpose (ncols event_permutation_tensor) chosen in
   permuted_masks <- gather0 stacked_masks chosen_permutations ;;
   let num_particles := sum_axis0 batch_size stacked_masks in
   jet_accuracies <- max_axis0 batch_size jet_accuracies ;;
   particle_accuracies <- max_axis0 batch_size particle_accuracies ;;
   Ok (jet_accuracies, particle_accuracies, permuted_masks, num_particles))%result.

Definition compute_metrics
  (jet_predictions : list (array2 Z)) (particle_scores : array2 float)
  (stacked_targets : list (array2 Z)) (stacked_masks : array2 bool)
  : result (Dict.dict float) :=
  let num_targets := length stacked_masks in
  let particle_predictions := threshold_scores particle_scores in
  (acc <- best_permutation_accuracies jet_predictions particle_predictions
            stacked_targets stacked_masks ;;
   let '(jet_accuracies, particle_accuracies, permuted_masks, num_particles) := acc in
   let metrics :=
     Dict.update [] (accuracy_items "jet" jet_accuracies num_particles num_targets) in
   let metrics :=
     Dict.update metrics
       (accuracy_items "particle" particle_accuracies num_particles num_targets) in
   let particle_scores := ravel particle_scores in
   let particle_targets := ravel permuted_masks in
   let particle_predictions := ravel particle_predictions in
   let metrics :=
     fold_left (fun m nm => Dict.set (particle_key (fst nm))
                              (snd nm particle_targets particle_predictions) m)
               particle_metrics metrics in
   let metrics :=
     fold_left (fun m nm => Dict.set (particle_key (fst nm))
                              (snd nm particle_targets particle_scores) m)
               particle_score_metrics metrics in
   validation_accuracy <-
     Dict.getitem (accuracy_key "jet" num_targets num_targets) metrics ;;
   Ok (Dict.set "validation_accuracy" validation_accuracy metrics))%result.

End ComputeMetrics.

(* ===================================================================== *)
(** * Logging *)
(* ===================================================================== *)

Inductive log_entry : Type :=
| LogScalar (name : string) (value : float)
    (** [self.log(name, value, sync_dist=True)] *)
| LogHistogram (name : string) (values : list float) (step : nat)
    (** [self.logger.experiment.add_histogram(name, values, step)] *).

(** A computation that logs and may raise; the trace survives a raise. *)
Definition M (A : Type) : Type := list log_entry -> result A * list log_entry.

Definition ret {A} (a : A) : M A := fun tr => (Ok a, tr).

Definition bind {A B} (m : M A) (k : A -> M B) : M B :=
  fun tr =>
    match m tr with
    | (Ok a, tr') => k a tr'
    | (Raise e, tr') => (Raise e, tr')
    end.

Definition raise {A} (e : exn) : M A := fun tr => (Raise e, tr).

Definition lift {A} (r : result A) : M A := fun tr => (r, tr).

Definition log (name : string) (value : float) : M unit :=
  fun tr => (Ok tt, tr ++ [LogScalar name value]).

Definition add_histogram (name : string) (values : list float) (step : nat)
  : M unit :=
  fun tr => (Ok tt, tr ++ [LogHistogram name values step]).

Declare Scope M_scope.
Delimit Scope M_scope with M.
Notation "x <- m ;; k" := (bind m (fun x => k))
  (at level 61, m at next level, right associativity) : M_scope.
Notation "m ;;; k" := (bind m (fun _ => k))
  (at level 61, right associativity) : M_scope.

(** [for x in xs: body(x)] *)
Fixpoint for_each {A} (xs : list A) (body : A -> M unit) : M unit :=
  match xs with
  | [] => ret tt
  | x :: xs' => (body x ;;; for_each xs' body)%M
  end.

(** [if c: body] *)
Definition when (c : bool) (body : M unit) : M unit :=
  if c then body else ret tt.

(** Run a computation from the empty trace. *)
Definition run {A} (m : M A) : result A * list log_entry := m [].

(* ===================================================================== *)
(** * Tensor helpers of the loss *)
(* ===================================================================== *)

(** An elementwise binary operation with broadcasting along one dimension:
    equal sizes, or one operand of size one. *)
Definition broadcast2 {A B C} (e : exn) (f : A -> B -> C)
  (xs : list A) (ys : list B) : result (list C) :=
  if length xs =? length ys
  then Ok (map (fun xy => f (fst xy) (snd xy)) (combine xs ys))
  else match xs, ys with
       | [x], _ => Ok (map (f x) ys)
       | _, [y] => Ok (map (fun x => f x y) xs)
       | _, _ => Raise e
       end.

(** The in-place variant ([xs op= ys]): the result has the shape of [xs]. *)
Definition ibroadcast2 {A B} (e : exn) (f : A -> B -> A)
  (xs : list A) (ys : list B) : result (list A) :=
  if length xs =? length ys
  then Ok (map (fun xy => f (fst xy) (snd xy)) (combine xs ys))
  else match ys with
       | [y] => Ok (map (fun x => f x y) xs)
       | _ => Raise e
       end.

Definition shape_error : exn :=
  RuntimeError "The size of tensor a must match the size of tensor b".

(** A tensor of shape [(num_targets, 2, batch_size)]: for every target the
    row of the assignment term and the row of the detection term. *)
Definition tensor3 := list (list float * list float).

(** [torch.ones_like] *)
Definition ones_like (t : tensor3) : tensor3 :=
  map (fun ad => (map (fun _ => one) (fst ad), map (fun _ => one) (snd ad))) t.

(** [weights *= v] for a vector [v] over the events. *)
Definition imul_events (weights : tensor3) (v : list float) : result tensor3 :=
  mapR (fun ad =>
          (a <- ibroadcast2 shape_error mul32 (fst ad) v ;;
           d <- ibroadcast2 shape_error mul32 (snd ad) v ;;
           Ok (a, d))%result)
       weights.

(** [(masks * particle_index_tensor.unsqueeze(1)).sum(0)] *)
Definition class_indices_of (masks : array2 bool) (particle_index_tensor : list nat)
  : result (list nat) :=
  (rows <- broadcast2 shape_error
             (fun (mask : list bool) (p : nat) => map (fun m : bool => if m then p else 0) mask)
             masks particle_index_tensor ;;
   Ok (map (fun b => list_sum (column b rows)) (seq 0 (ncols rows))))%result.

(** [torch.stack] of vectors: a non-empty list of vectors of one size. *)
Definition stack {A} (rows : list (list A)) : result (array2 A) :=
  match rows with
  | [] => Raise (RuntimeError "stack expects a non-empty TensorList")
  | r :: rest =>
      if forallb (fun r' => length r' =? length r) rest
      then Ok rows
      else Raise (RuntimeError "stack expects each tensor to be equal size")
  end.

(** [torch.clamp(n, 1, None)] *)
Definition clamp_min_1 (n : nat) : nat := Nat.max n 1.

(** [torch.cat([loss.view(-1) for loss in total_loss])]; a tensor is kept
    flattened, so [view(-1)] is the identity. *)
Definition cat (total_loss : list (list float)) : result (list float) :=
  match total_loss with
  | [] => Raise (RuntimeError "torch.cat(): expected a non-empty list of Tensors")
  | _ => Ok (concat total_loss)
  end.

(* ===================================================================== *)
(** * [np.sort] and the permutation groups of a target *)
(* ===================================================================== *)

Fixpoint insert_sorted (x : Z) (l : list Z) : list Z :=
  match l with
  | [] => [x]
  | y :: l' => if (x <=? y)%Z then x :: l else y :: insert_sorted x l'
  end.

(** [np.sort] of one row of integers: the row in ascending order. *)
Definition np_sort (l : list Z) : list Z := fold_right insert_sorted [] l.

(** [row[i] = v] *)
Fixpoint set_nth (i : nat) (v : Z) (row : list Z) : list Z :=
  match row, i with
  | [], _ => []
  | _ :: row', 0 => v :: row'
  | x :: row', S i' => x :: set_nth i' v row'
  end.

(** [row[indices] = values], one position after the other. *)
Fixpoint scatter (row : list Z) (indices : list nat) (values : list Z) : list Z :=
  match indices, values with
  | i :: indices', v :: values' => scatter (set_nth i v row) indices' values'
  | _, _ => row
  end.

(** [row[indices] = np.sort(row[indices])] *)
Definition sort_row (indices : list nat) (row : list Z) : result (list Z) :=
  (values <- index_many row indices ;;
   Ok (scatter row indices (np_sort values)))%result.

(** [a[:, indices] = np.sort(a[:, indices])]: every event is sorted on its own
    (the sort is along the last axis).  An array with no rows carries no
    width, its index check succeeds. *)
Definition sort_columns (indices : list nat) (a : array2 Z) : result (array2 Z) :=
  mapR (sort_row indices) a.

(** [for indices in decoder.permutation_indices: if len(indices) > 1: ...] *)
Fixpoint apply_permutation_indices (prediction target : array2 Z)
  (permutation_indices : list (list nat)) : result (array2 Z * array2 Z) :=
  match permutation_indices with
  | [] => Ok (prediction, target)
  | indices :: rest =>
      if 1 <? length indices
      then (prediction' <- sort_columns indices prediction ;;
            target' <- sort_columns indices target ;;
            apply_permutation_indices prediction' target' rest)%result
      else apply_permutation_indices prediction target rest
  end.

(** [for target, prediction, decoder in zip(stacked_targets, jet_predictions,
    self.branch_decoders)]: the arrays are updated in place, those past the
    shortest of the three lists are left as they are.  The result is
    [(stacked_targets, jet_predictions)]. *)
Fixpoint apply_permutation_groups (stacked_targets jet_predictions : list (array2 Z))
  (branch_decoders : list (list (list nat)))
  : result (list (array2 Z) * list (array2 Z)) :=
  match stacked_targets, jet_predictions, branch_decoders with
  | target :: targets', prediction :: predictions', decoder :: decoders' =>
      (pt <- apply_permutation_indices prediction target decoder ;;
       rest <- apply_permutation_groups targets' predictions' decoders' ;;
       Ok (snd pt :: fst rest, fst pt :: snd rest))%result
  | _, _, _ => Ok (stacked_targets, jet_predictions)
  end.

(* ===================================================================== *)
(** * The network, its options and a batch *)
(* ===================================================================== *)

(** The fields of [self.options] read by the validation code. *)
Record Options : Type := {
  assignment_loss_scale : float;
  detection_loss_scale : float;
  kl_loss_scale : float;
  regression_loss_scale : float;
  classification_loss_scale : float
}.

(** The attributes of [self] read by the validation code. *)
Record Network : Type := {
  options : Options;
  event_permutation_tensor : array2 nat;
  balance_particles : bool;
  balance_jets : bool;
  particle_index_tensor : list nat;
  particle_weights_tensor : list float;
  jet_weights_tensor : list float;
  (** [self.training_dataset.assignments], the names of the targets *)
  assignment_names : list string;
  (** [decoder.permutation_indices] of every branch decoder *)
  branch_decoders : list (list (list nat));
  global_step : nat
}.

(** One assignment target of a batch: the jet indices of every event and the
    mask of the events in which the target is present. *)
Record AssignmentTarget : Type := {
  indices : array2 Z;
  mask : list bool
}.

Section Validation.

(** The model inputs and the raw outputs are opaque to the validation code. *)
Variables Sources Assignments Detections Regressions Classifications : Type.

Record Batch : Type := {
  sources : Sources;
  num_vectors : list nat;
  assignment_targets : list AssignmentTarget;
  regression_targets : Dict.dict (list float);
  classification_targets : Dict.dict (list Z)
}.

Record Outputs : Type := {
  assignments : Assignments;
  detections : Detections;
  regressions : Regressions;
  classifications : Classifications
}.

(** The predictions returned by [self.predict]:
    [(jet_predictions, particle_scores, regressions, classifications)]. *)
Record Predictions : Type := {
  jet_predictions : list (array2 Z);
  particle_scores : array2 float;
  predicted_regressions : Dict.dict (list float);
  predicted_classifications : Dict.dict (list Z)
}.

(** Library metrics and reductions. *)
Variables accuracy_score recall_score f1_score : list bool -> list bool -> float.
(** [torch.sum] and [torch.mean] over a [float32] vector, [np.mean] over a
    float array. *)
Variables tsum tmean np_mean : list float -> float.

(** Methods inherited from the network. *)
Variable symmetric_losses :
  Assignments -> Detections -> list AssignmentTarget -> tensor3 * list nat.
Variable add_kl_loss :
  list (list float) -> Assignments -> array2 bool -> tensor3 -> list (list float).
Variable add_regression_loss :
  list (list float) -> Regressions -> Dict.dict (list float) -> list (list float).
Variable add_classification_loss :
  list (list float) -> Classifications -> Dict.dict (list Z) -> list (list float).
Variable predict : Sources -> Predictions * Outputs.
(** [self.evaluator.full_report_string(..., prefix="Purity/")] *)
Variable full_report_string :
  list (array2 Z) -> list (array2 Z) -> array2 bool -> Dict.dict float.
(** Whether the batch lives on the CPU, where [tensor.detach().cpu().numpy()]
    shares its memory with the tensor. *)
Variable batch_on_cpu : bool.

Variable self : Network.

(** The permuted masks of the loss: [torch.gather(masks, 0, permutations)]
    for [permutations = self.event_permutation_tensor[best_indices].T]. *)
Definition loss_masks (best_indices : list nat) (batch : Batch)
  : result (array2 bool) :=
  (chosen <- index_many (event_permutation_tensor self) best_indices ;;
   let permutations := transpose (ncols (event_permutation_tensor self)) chosen in
   masks <- stack (map mask (assignment_targets batch)) ;;
   gather0 masks permutations)%result.

(** The event weights of the loss. *)
Definition loss_weights (symmetric : tensor3) (masks : array2 bool)
  (batch : Batch) : result tensor3 :=
  let weights := ones_like symmetric in
  (weights <-
     (if balance_particles self
      then (class_indices <- class_indices_of masks (particle_index_tensor self) ;;
            w <- index_many (particle_weights_tensor self) class_indices ;;
            imul_events weights w)
      else Ok weights) ;;
   if balance_jets self
   then (w <- index_many (jet_weights_tensor self) (num_vectors batch) ;;
         imul_events weights w)
   else Ok weights)%result.

(** [(weights * symmetric_losses).sum(-1) / torch.clamp(masks.sum(-1), 1, None)]
    for [masks] unsqueezed to [(num_targets, 1, batch_size)]; the result has
    shape [(num_targets, 2)]. *)
Definition weighted_average (weights symmetric : tensor3) (masks : array2 bool)
  : result (list (float * float)) :=
  let mul a b := map (fun ws => mul32 (fst ws) (snd ws)) (combine a b) in
  let sums := map (fun ws => (tsum (mul (fst (fst ws)) (fst (snd ws))),
                              tsum (mul (snd (fst ws)) (snd (snd ws)))))
                  (combine weights symmetric) in
  let counts := map (fun row => clamp_min_1 (count_true row)) masks in
  broadcast2 shape_error
    (fun s c => (div32 (fst s) (of_nat32 c), div32 (snd s) (of_nat32 c)))
    sums counts.

(** The aggregation of [compute_validation_losses], up to [torch.unbind]:
    [(weights, masks, assignment_loss, detection_loss)]. *)
Definition aggregate_losses (outputs : Outputs) (batch : Batch)
  : result (tensor3 * array2 bool * list float * list float) :=
  let '(symmetric, best_indices) :=
    symmetric_losses (assignments outputs) (detections outputs)
                     (assignment_targets batch) in
  (masks <- loss_masks best_indices batch ;;
   weights <- loss_weights symmetric masks batch ;;
   averaged <- weighted_average weights symmetric masks ;;
   Ok (weights, masks, map fst averaged, map snd averaged))%result.

(** The list of loss terms entering the total. *)
Definition collect_losses (outputs : Outputs) (batch : Batch)
  (weights : tensor3) (masks : array2 bool)
  (assignment_loss detection_loss : list float) : list (list float) :=
  let total_loss := [] in
  let total_loss :=
    if gtb (assignment_loss_scale (options self)) zero
    then total_loss ++ [assignment_loss] else total_loss in
  let total_loss :=
    if gtb (detection_loss_scale (options self)) zero
    then total_loss ++ [detection_loss] else total_loss in
  let total_loss :=
    if gtb (kl_loss_scale (options self)) zero
    then add_kl_loss total_loss (assignments outputs) masks weights
    else total_loss in
  let total_loss :=
    if gtb (regression_loss_scale (options self)) zero
    then add_regression_loss total_loss (regressions outputs)
           (regression_targets batch)
    else total_loss in
  let total_loss :=
    if gtb (classification_loss_scale (options self)) zero
    then add_classification_loss total_loss (classifications outputs)
           (classification_targets batch)
    else total_loss in
  total_loss.

Definition compute_validation_losses (outputs : Outputs) (batch : Batch)
  : M float :=
  (agg <- lift (aggregate_losses outputs batch) ;;
   let '(weights, masks, assignment_loss, detection_loss) := agg in
   for_each (combine (assignment_names self) assignment_loss)
     (fun nl => log ("validation_loss/" ++ fst nl ++ "/assignment_loss")%string
                    (snd nl)) ;;;
   for_each (combine (assignment_names self) detection_loss)
     (fun nl => log ("validation_loss/" ++ fst nl ++ "/detection_loss")%string
                    (snd nl)) ;;;
   when (existsb isnan assignment_loss)
     (raise (ValueError "Assignment loss has diverged!")) ;;;
   when (existsb isinf assignment_loss)
     (raise (ValueError "Assignment targets contain a collision.")) ;;;
   let total_loss :=
     collect_losses outputs batch weights masks assignment_loss detection_loss in
   total_loss <- lift (cat total_loss) ;;
   log "validation_loss/total_loss" (tsum total_loss) ;;;
   ret (tmean total_loss))%M.

(** [stacked_masks[i] = mask]: a row of [np.zeros((num_targets, batch_size))]
    takes a mask of its size, or broadcasts a mask of size one. *)
Definition assign_mask (batch_size : nat) (m : list bool) : result (list bool) :=
  if length m =? batch_size then Ok m
  else match m with
       | [x] => Ok (repeat x batch_size)
       | _ => Raise (ValueError "could not broadcast input array")
       end.

(** The loop over [regressions] of [validation_step]. *)
Definition log_regressions (regressions : Dict.dict (list float))
  (targets : Dict.dict (list float)) : M unit :=
  for_each (map fst (Dict.items regressions))
    (fun key =>
       (prediction <- lift (Dict.getitem key regressions) ;;
        target <- lift (Dict.getitem key targets) ;;
        let err := ValueError "operands could not be broadcast together" in
        delta <- lift (broadcast2 err sub32 prediction target) ;;
        ratio <- lift (broadcast2 err div32 delta target) ;;
        let percent_error := map SFabs ratio in
        log ("REGRESSION/" ++ key ++ "_percent_error")%string
            (np_mean percent_error) ;;;
        let absolute_error := map SFabs delta in
        log ("REGRESSION/" ++ key ++ "_absolute_error")%string
            (np_mean absolute_error) ;;;
        ratio <- lift (broadcast2 err div32 delta target) ;;
        let percent_deviation := ratio in
        add_histogram ("REGRESSION/" ++ key ++ "_percent_deviation")%string
                      percent_deviation (global_step self) ;;;
        let absolute_deviation := delta in
        add_histogram ("REGRESSION/" ++ key ++ "_absolute_deviation")%string
                      absolute_deviation (global_step self))%M).

(** The loop over [classifications] of [validation_step]. *)
Definition log_classifications (classifications : Dict.dict (list Z))
  (targets : Dict.dict (list Z)) : M unit :=
  for_each (map fst (Dict.items classifications))
    (fun key =>
       (prediction <- lift (Dict.getitem key classifications) ;;
        target <- lift (Dict.getitem key targets) ;;
        accuracy <- lift (broadcast2
                            (ValueError "operands could not be broadcast together")
                            Z.eqb prediction target) ;;
        log ("CLASSIFICATION/" ++ key ++ "_accuracy")%string
            (mean_bool accuracy))%M).

(** [for name, value in metrics.items(): if not np.isnan(value): self.log(...)] *)
Definition log_metrics (metrics : Dict.dict float) : M unit :=
  for_each (Dict.items metrics)
    (fun nv => when (negb (isnan (snd nv))) (log (fst nv) (snd nv))).

(** The batch as [compute_validation_losses] sees it after the targets were
    sorted in place: on the CPU the numpy targets are views of the tensors of
    the batch. *)
Definition batch_after_sorting (batch : Batch) (stacked_targets : list (array2 Z))
  : Batch :=
  if batch_on_cpu
  then {| sources := sources batch;
          num_vectors := num_vectors batch;
          assignment_targets :=
            map (fun tt => {| indices := fst tt; mask := mask (snd tt) |})
                (combine stacked_targets (assignment_targets batch));
          regression_targets := regression_targets batch;
          classification_targets := classification_targets batch |}
  else batch.

Definition validation_step (batch : Batch) (batch_idx : nat)
  : M (Dict.dict float) :=
  let num_jets := num_vectors batch in
  let targets := assignment_targets batch in
  let '(predictions, outputs) := predict (sources batch) in
  let batch_size := length num_jets in
  let stacked_targets := map indices targets in
  (stacked_masks <- lift (mapR (fun t => assign_mask batch_size (mask t)) targets) ;;
   let metrics :=
     full_report_string (jet_predictions predictions) stacked_targets stacked_masks in
   sorted <- lift (apply_permutation_groups stacked_targets
                     (jet_predictions predictions) (branch_decoders self)) ;;
   let '(stacked_targets, jet_predictions) := sorted in
   computed <- lift (compute_metrics accuracy_score recall_score f1_score
                       (event_permutation_tensor self)
                       jet_predictions (particle_scores predictions)
                       stacked_targets stacked_masks) ;;
   let metrics := Dict.update metrics (Dict.items computed) in
   log_regressions (predicted_regressions predictions) (regression_targets batch) ;;;
   log_classifications (predicted_classifications predictions)
                       (classification_targets batch) ;;;
   log_metrics metrics ;;;
   _ <- compute_validation_losses outputs (batch_after_sorting batch stacked_targets) ;;
   ret metrics)%M.

Definition test_step (batch : Batch) (batch_idx : nat) : M (Dict.dict float) :=
  validation_step batch batch_idx.

End Validation.

(* ===================================================================== *)
(** * Reference notions used by the properties *)
(* ===================================================================== *)

(** Two rows of jets are equal: the same jets in the same slots. *)
Fixpoint row_eqb (p t : list Z) : bool :=
  match p, t with
  | [], [] => true
  | x :: p', y :: t' => Z.eqb x y && row_eqb p' t'
  | _, _ => false
  end.

(** For every event, whether the predicted row of jets is the target row. *)
Definition all_axis1_eq (prediction target : array2 Z) : list bool :=
  map (fun pt => row_eqb (fst pt) (snd pt)) (combine prediction target).

(** Entry by entry, whether two boolean arrays of one shape agree. *)
Definition eq_elementwise (a b : array2 bool) : array2 bool :=
  map (fun rs => map (fun xy => Bool.eqb (fst xy) (snd xy))
                     (combine (fst rs) (snd rs)))
      (combine a b).

(** The number of targets of event [b] whose predicted row of jets is exactly
    the row of the target that [permutation] puts in their place. *)
Definition matching_targets (jet_predictions stacked_targets : list (array2 Z))
  (permutation : list nat) (b : nat) : nat :=
  length
    (filter (fun pt => if list_eq_dec Z.eq_dec (nth b (fst pt) []) (nth b (snd pt) [])
                       then true else false)
            (combine jet_predictions
                     (map (fun i => nth i stacked_targets []) permutation))).

(** The shapes that [validation_step] hands to [compute_metrics]: a non-empty
    permutation group over the [num_targets] targets, one prediction array and
    one target array per target with one row per event, masks and scores of
    shape [(num_targets, batch_size)], and at least one event.  Every array of
    jets has one width, and a prediction has the width of every target that a
    permutation of the group puts in its place: the group exchanges targets of
    one kind. *)
Definition well_shaped (event_permutation_group : array2 nat)
  (jet_predictions : list (array2 Z)) {S : Type} (particle_scores : array2 S)
  (stacked_targets : list (array2 Z)) (stacked_masks : array2 bool) : bool :=
  let num_targets := length stacked_masks in
  let batch_size := ncols stacked_masks in
  negb (length event_permutation_group =? 0)
  && forallb (fun permutation =>
                (length permutation =? num_targets)
                && forallb (fun i => i <? num_targets) permutation)
             event_permutation_group
  && (length stacked_targets =? num_targets)
  && (length jet_predictions =? num_targets)
  && forallb (fun a : array2 Z => length a =? batch_size) stacked_targets
  && forallb (fun a : array2 Z => length a =? batch_size) jet_predictions
  && forallb (fun r : list bool => length r =? batch_size) stacked_masks
  && (length particle_scores =? num_targets)
  && forallb (fun r : list S => length r =? batch_size) particle_scores
  && (1 <=? batch_size)
  && forallb (fun a : array2 Z => forallb (fun r => length r =? ncols a) a)
             (jet_predictions ++ stacked_targets)
  && forallb (fun permutation =>
                forallb (fun pt : array2 Z * array2 Z => ncols (fst pt) =? ncols (snd pt))
                        (combine jet_predictions
                                 (map (fun i => nth i stacked_targets []) permutation)))
             event_permutation_group.

(** The pairs [(i, j)] of the two comprehensions of [compute_metrics], in the
    order of the loops. *)
Definition accuracy_pairs (num_targets : nat) : list (nat * nat) :=
  flat_map (fun j => map (fun i => (i, j)) (seq 1 j)) (seq 1 num_targets).

(** The fraction, among the events with exactly [j] present targets, of the
    events whose accuracy count is at least [i]; events are given by their
    number of present targets and their accuracy count. *)
Definition events_fraction (accuracies num_particles : list nat) (i j : nat)
  : float :=
  let events := combine num_particles accuracies in
  div64
    (of_nat64 (length (filter (fun e => (fst e =? j) && (i <=? snd e)) events)))
    (of_nat64 (length (filter (fun e => fst e =? j) events))).

(** The shape facts packed in [well_shaped]. *)
Record shapes (ept : array2 nat) (preds : list (array2 Z)) (S : Type)
  (scores : array2 S) (targets : list (array2 Z)) (masks : array2 bool) : Prop := {
  sh_group : ept <> [];
  sh_perm_len : forall perm, In perm ept -> length perm = length masks;
  sh_perm_rng : forall perm i, In perm ept -> In i perm -> i < length masks;
  sh_targets : length targets = length masks;
  sh_preds : length preds = length masks;
  sh_target_rows : forall a, In a targets -> length a = ncols masks;
  sh_pred_rows : forall a, In a preds -> length a = ncols masks;
  sh_mask_rows : forall r, In r masks -> length r = ncols masks;
  sh_scores : length scores = length masks;
  sh_score_rows : forall r, In r scores -> length r = ncols masks
}.

(** The facts on the events and on the widths packed in [well_shaped]. *)
Record aligned (ept : array2 nat) (preds targets : list (array2 Z))
  (masks : array2 bool) : Prop := {
  al_events : 1 <= ncols masks;
  al_rows : forall a, In a (preds ++ targets) ->
            forall r, In r a -> length r = ncols a;
  al_widths : forall perm pt,
      In perm ept ->
      In pt (combine preds (map (fun i => nth i targets []) perm)) ->
      ncols (fst pt) = ncols (snd pt)
}.

(** The slice [jet_accuracies[i]] of a permutation on well-shaped arrays. *)
Definition jet_rows_of (preds targets : list (array2 Z)) (perm : list nat)
  : array2 bool :=
  map (fun pt => all_axis1_eq (fst pt) (snd pt))
      (combine preds (map (fun i => nth i targets []) perm)).

(** [jet_accuracies] and [particle_accuracies] after [.sum(1)]: one row per
    permutation, one column per event. *)
Definition jet_table (ept : array2 nat) (preds targets : list (array2 Z))
  (masks : array2 bool) : array2 nat :=
  map (fun perm => sum_axis0 (ncols masks) (jet_rows_of preds targets perm)) ept.

Definition particle_table (ept : array2 nat) (ppreds masks : array2 bool)
  : array2 nat :=
  map (fun perm => sum_axis0 (ncols masks)
                     (eq_elementwise (map (fun i => nth i masks []) perm) ppreds))
      ept.

(** The metrics of [validation_step]: the permutation groups are applied to
    the targets and the predictions, then [compute_metrics] runs on the sorted
    arrays. *)
Definition metrics_after_sorting
  (accuracy_score recall_score f1_score : list bool -> list bool -> float)
  (event_permutation_tensor : array2 nat) (branch_decoders : list (list (list nat)))
  (stacked_targets jet_predictions : list (array2 Z))
  (particle_scores : array2 float) (stacked_masks : array2 bool)
  : result (Dict.dict float) :=
  (sorted <- apply_permutation_groups stacked_targets jet_predictions branch_decoders ;;
   compute_metrics accuracy_score recall_score f1_score event_permutation_tensor
     (snd sorted) particle_scores (fst sorted) stacked_masks)%result.

(** [row[indices]] on positions inside the row. *)
Definition gather_row (row : list Z) (indices : list nat) : list Z :=
  map (fun k => nth k row 0%Z) indices.

(** The row after [row[indices] = np.sort(row[indices])]. *)
Definition sorted_row (indices : list nat) (row : list Z) : list Z :=
  scatter row indices (np_sort (gather_row row indices)).

(** The row after the loop over the permutation indices of its decoder. *)
Definition normal_row (groups : list (list nat)) (row : list Z) : list Z :=
  fold_left (fun r g => if 1 <? length g then sorted_row g r else r) groups row.

(** Two rows of jets that differ by permutations inside the symmetric groups
    (the groups of more than one index) of a decoder. *)
Definition same_up_to_groups (groups : list (list nat)) (r r' : list Z) : Prop :=
  length r = length r'
  /\ (forall k, (forall g, In g groups -> 1 < length g -> ~ In k g) ->
                nth k r 0%Z = nth k r' 0%Z)
  /\ (forall g, In g groups -> 1 < length g ->
                Permutation (gather_row r g) (gather_row r' g)).

(** A row and the row that the loop over the permutation indices makes of it:
    the jets outside the symmetric groups stay, the jets of every symmetric
    group are the same jets in ascending order. *)
Definition sorted_from (groups : list (list nat)) (row row' : list Z) : Prop :=
  length row' = length row
  /\ (forall k, (forall g, In g groups -> 1 < length g -> ~ In k g) ->
                nth k row' 0%Z = nth k row 0%Z)
  /\ (forall g, In g groups -> 1 < length g ->
                Sorted Z.le (gather_row row' g)
                /\ Permutation (gather_row row' g) (gather_row row g)).

(** A relation between rows, for every event of every target under the decoder
    of the target. *)
Inductive per_target (R : list (list nat) -> list Z -> list Z -> Prop) :
  list (list (list nat)) -> list (array2 Z) -> list (array2 Z) -> Prop :=
| per_target_nil : per_target R [] [] []
| per_target_cons groups decoders a a' l l' :
    Forall2 (R groups) a a' ->
    per_target R decoders l l' ->
    per_target R (groups :: decoders) (a :: l) (a' :: l').

(** The permutation groups of a decoder are pairwise disjoint lists of
    distinct jet positions of its target, and every row of the array of the
    target has these positions. *)
Definition decodable (groups : list (list nat)) (a : array2 Z) : Prop :=
  ForallOrdPairs (fun g h => forall k, In k g -> ~ In k h) groups
  /\ Forall (fun g => NoDup g) groups
  /\ Forall (fun row => Forall (Forall (fun k => k < length row)) groups) a.

(** The arrays of all targets after the loop over the decoders. *)
Definition normal_arrays (decoders : list (list (list nat))) (l : list (array2 Z))
  : list (array2 Z) :=
  map (fun da => map (normal_row (fst da)) (snd da)) (combine decoders l).

(** A logging computation appends to the trace it is given and reads nothing
    from it. *)
Definition framed {A} (m : M A) : Prop :=
  forall tr, m tr = (fst (run m), tr ++ snd (run m)).

(** The aggregated loss of one target: the elementwise products of the event
    weights and the symmetric losses, summed over the events, over the number
    of events whose permuted mask is set, this number being at least one. *)
Definition weighted_term (tsum : list float -> float)
  (weights losses : list float) (permuted_mask : list bool) : float :=
  div32 (tsum (map (fun wl => mul32 (fst wl) (snd wl)) (combine weights losses)))
        (of_nat32 (Nat.max (count_true permuted_mask) 1)).

(** The log entries of the per-target losses. *)
Definition loss_entries (kind : string) (names : list string) (losses : list float)
  : list log_entry :=
  map (fun nl => LogScalar ("validation_loss/" ++ fst nl ++ kind)%string (snd nl))
      (combine names losses).

(** The log entries of the loop over the metrics: the entries that are not
    NaN, in the order of the dictionary. *)
Definition metric_entries (metrics : Dict.dict float) : list log_entry :=
  map (fun nv => LogScalar (fst nv) (snd nv))
      (filter (fun nv => negb (isnan (snd nv))) (Dict.items metrics)).



(** The terms of a loss component that enter the total: all of them when the
    scale of the component is positive, none otherwise. *)
Definition selected (scale : float) (terms : list (list float))
  : list (list float) :=
  if gtb scale zero then terms else [].

(** The number of targets of event [b] whose thresholded detection score
    agrees with the mask of the target that [permutation] puts in their place. *)
Definition matching_particles (stacked_masks particle_predictions : array2 bool)
  (permutation : list nat) (b : nat) : nat :=
  length
    (filter (fun mp => Bool.eqb (nth b (fst mp) false) (nth b (snd mp) false))
            (combine (map (fun i => nth i stacked_masks []) permutation)
                     particle_predictions)).

(** The names of the entries of the dictionary of [compute_metrics] for
    [num_targets] targets, in the order in which they are inserted. *)
Definition metric_names (num_targets : nat) : list string :=
  map (fun ij => accuracy_key "jet" (fst ij) (snd ij)) (accuracy_pairs num_targets)
  ++ map (fun ij => accuracy_key "particle" (fst ij) (snd ij))
         (accuracy_pairs num_targets)
  ++ ["particle/accuracy"; "particle/sensitivity"; "particle/specificity";
      "particle/f_score"; "validation_accuracy"].

(** A row and a row of the same length that has the same jets outside the
    symmetric groups (the groups of more than one index). *)
Definition kept_outside (groups : list (list nat)) (row row' : list Z) : Prop :=
  length row' = length row
  /\ (forall k, (forall g, In g groups -> 1 < length g -> ~ In k g) ->
                nth k row' 0%Z = nth k row 0%Z).

(* ===================================================================== *)
(** * A small event: two targets of two interchangeable jets, two events *)
(* ===================================================================== *)

Module Example.

Definition add32 : float -> float -> float := SFadd prec32 emax32.

(** Reductions from left to right. *)
Definition sum32 (l : list float) : float := fold_left add32 l zero.
Definition mean32 (l : list float) : float := div32 (sum32 l) (of_nat32 (length l)).

(** The share of equal labels, standing for each of the library metrics. *)
Definition agreement (t p : list bool) : float :=
mean_bool (map (fun xy => Bool.eqb (fst xy) (snd xy)) (combine t p)).

Definition ept : array2 nat := [[0; 1]; [1; 0]].

Definition decoders : list (list (list nat)) := [[[0; 1]]; [[0; 1]]].

Definition preds : list (array2 Z) := [[[1; 2]; [3; 4]]; [[5; 6]; [7; 8]]]%Z.

(** The predictions with the two jets of every target exchanged. *)
Definition preds_swapped : list (array2 Z) :=
[[[2; 1]; [4; 3]]; [[6; 5]; [8; 7]]]%Z.

Definition targets : list (array2 Z) := [[[5; 6]; [3; 4]]; [[1; 2]; [7; 8]]]%Z.


Definition masks : array2 bool := [[true; true]; [true; true]].

Definition scores : array2 float := [[half; zero]; [one; nan]].

(** The outputs of the network carry the symmetric losses and the best
  permutation of every event. *)
Definition symmetric : tensor3 :=
[([one; half], [zero; zero]); ([half; one], [one; one])].

(** Symmetric losses with a NaN for the first target and an infinity for the
  second. *)
Definition symmetric_diverged : tensor3 :=
[([nan; zero], [zero; zero]); ([inf; zero], [zero; zero])].

Definition symmetric_losses (a : tensor3) (d : list nat)
(_ : list AssignmentTarget) : tensor3 * list nat := (a, d).

Definition kl_terms (_ : tensor3) (_ : array2 bool) (_ : tensor3)
: list (list float) := [[half]].
Definition regression_terms (_ : unit) (_ : Dict.dict (list float))
: list (list float) := [[one]; [zero]].
Definition classification_terms (_ : unit) (_ : Dict.dict (list Z))
: list (list float) := [].

Definition add_kl_loss (total : list (list float)) (a : tensor3)
(m : array2 bool) (w : tensor3) : list (list float) :=
total ++ kl_terms a m w.
Definition add_regression_loss (total : list (list float)) (r : unit)
(t : Dict.dict (list float)) : list (list float) :=
total ++ regression_terms r t.
Definition add_classification_loss (total : list (list float)) (c : unit)
(t : Dict.dict (list Z)) : list (list float) :=
total ++ classification_terms c t.

Definition network : Network :=
{| options := {| assignment_loss_scale := one;
                 detection_loss_scale := zero;
                 kl_loss_scale := half;
                 regression_loss_scale := one;
                 classification_loss_scale := one |};
   event_permutation_tensor := ept;
   balance_particles := false;
   balance_jets := false;
   particle_index_tensor := [1; 2];
   particle_weights_tensor := [one; one; one; one];
   jet_weights_tensor := [one; one; one];
   assignment_names := ["t1"; "t2"];
   branch_decoders := decoders;
   global_step := 0 |}.

Definition batch : Batch unit :=
{| sources := tt;
   num_vectors := [2; 2];
   assignment_targets :=
     [ {| indices := [[5; 6]; [3; 4]]%Z; mask := [true; true] |};
       {| indices := [[1; 2]; [7; 8]]%Z; mask := [true; true] |} ];
   regression_targets := [("mass", [one; half])];
   classification_targets := [("flavour", [1; 0]%Z)] |}.

Definition outputs : Outputs tensor3 (list nat) unit unit :=
{| assignments := symmetric; detections := [0; 1];
   regressions := tt; classifications := tt |}.

Definition outputs_diverged : Outputs tensor3 (list nat) unit unit :=
{| assignments := symmetric_diverged; detections := [0; 1];
   regressions := tt; classifications := tt |}.

Definition predict (_ : unit)
: Predictions * Outputs tensor3 (list nat) unit unit :=
({| jet_predictions := preds;
    particle_scores := scores;
    predicted_regressions := [("mass", [one; one])];
    predicted_classifications := [("flavour", [1; 1]%Z)] |},
 outputs).

Definition full_report_string (_ _ : list (array2 Z)) (_ : array2 bool)
: Dict.dict float :=
[("Purity/event_purity", half)].

Definition losses :
Outputs tensor3 (list nat) unit unit -> Batch unit -> M float :=
compute_validation_losses sum32 mean32 symmetric_losses add_kl_loss
  add_regression_loss add_classification_loss network.

(** The aggregated losses of the batch. *)
Definition aggregated : result (tensor3 * array2 bool * list float * list float) :=
Eval vm_compute in
  aggregate_losses sum32 symmetric_losses network outputs batch.

Definition assignment_loss : list float :=
match aggregated with Ok (_, _, l, _) => l | Raise _ => [] end.

Definition detection_loss : list float :=
match aggregated with Ok (_, _, _, l) => l | Raise _ => [] end.

Definition step : Batch unit -> nat -> M (Dict.dict float) :=
validation_step agreement agreement agreement sum32 mean32 mean32
  symmetric_losses add_kl_loss add_regression_loss add_classification_loss
  predict full_report_string true network.

(** The network with the loss balanced by the number of jets. *)
Definition network_balanced_jets (jet_weights : list float) : Network :=
  {| options := options network;
     event_permutation_tensor := ept;
     balance_particles := false;
     balance_jets := true;
     particle_index_tensor := [1; 2];
     particle_weights_tensor := [one; one; one; one];
     jet_weights_tensor := jet_weights;
     assignment_names := ["t1"; "t2"];
     branch_decoders := decoders;
     global_step := 0 |}.

(** The network with the loss balanced by the particles present. *)
Definition network_balanced_particles : Network :=
  {| options := options network;
     event_permutation_tensor := ept;
     balance_particles := true;
     balance_jets := false;
     particle_index_tensor := [1; 2];
     particle_weights_tensor := [one; one; one; half];
     jet_weights_tensor := [one; one; one];
     assignment_names := ["t1"; "t2"];
     branch_decoders := decoders;
     global_step := 0 |}.

(** The batch with the jets of the symmetric groups exchanged in the
    targets. *)
Definition batch_swapped : Batch unit :=
  {| sources := tt;
     num_vectors := [2; 2];
     assignment_targets :=
       [ {| indices := [[6; 5]; [3; 4]]%Z; mask := [true; true] |};
         {| indices := [[1; 2]; [8; 7]]%Z; mask := [true; true] |} ];
     regression_targets := regression_targets batch;
     classification_targets := classification_targets batch |}.


(** The network without a permutation of its event. *)
Definition network_without_group : Network :=
  {| options := options network;
     event_permutation_tensor := [];
     balance_particles := false;
     balance_jets := false;
     particle_index_tensor := [1; 2];
     particle_weights_tensor := [one; one; one; one];
     jet_weights_tensor := [one; one; one];
     assignment_names := ["t1"; "t2"];
     branch_decoders := decoders;
     global_step := 0 |}.

(** The predictions with the jets of the symmetric groups exchanged. *)
Definition predict_swapped (_ : unit)
  : Predictions * Outputs tensor3 (list nat) unit unit :=
  ({| jet_predictions := preds_swapped;
      particle_scores := scores;
      predicted_regressions := [("mass", [one; one])];
      predicted_classifications := [("flavour", [1; 1]%Z)] |},
   outputs).

Definition predict_diverged (_ : unit)
  : Predictions * Outputs tensor3 (list nat) unit unit :=
  (fst (predict tt), outputs_diverged).

Definition step_of (predict : unit -> Predictions * Outputs tensor3 (list nat) unit unit)
  (self : Network) : Batch unit -> nat -> M (Dict.dict float) :=
  validation_step agreement agreement agreement sum32 mean32 mean32
    symmetric_losses add_kl_loss add_regression_loss add_classification_loss
    predict full_report_string true self.

(** The metrics of the batch. *)
Definition computed_metrics : Dict.dict float :=
  Eval vm_compute in
    match compute_metrics agreement agreement agreement ept preds scores
            targets masks with
    | Ok metrics => metrics
    | Raise _ => []
    end.

(** What the step returns on the batch, and what it logs. *)
Definition returned : result (Dict.dict float) * list log_entry :=
Eval vm_compute in run (step batch 0).

Definition returned_metrics : Dict.dict float :=
match fst returned with Ok m => m | Raise _ => [] end.

(** What the step returns on the batch with the exchanged jets. *)
Definition returned_swapped : result (Dict.dict float) * list log_entry :=
  Eval vm_compute in run (step_of predict_swapped network batch_swapped 0).

Definition returned_metrics_swapped : Dict.dict float :=
  match fst returned_swapped with Ok m => m | Raise _ => [] end.

End Example.


(* ===================================================================== *)
(** * Properties *)
(* ===================================================================== *)

(** ** The result monad *)

Lemma mapR_ok {A B} (f : A -> result B) (g : A -> B) (l : list A) :
  (forall x, In x l -> f x = Ok (g x)) -> mapR f l = Ok (map g l).
Proof.
  induction l as [|a l IH]; intros H; simpl; [reflexivity|].
  rewrite (H a (or_introl eq_refl)); simpl.
  rewrite IH by (intros x Hx; apply H; now right). reflexivity.
Qed.

Lemma mapR_exists {A B} (f : A -> result B) (P : B -> Prop) (l : list A) :
  (forall x, In x l -> exists y, f x = Ok y /\ P y) ->
  exists l', mapR f l = Ok l' /\ length l' = length l /\ Forall P l'.
Proof.
  induction l as [|a l IH]; intros H; simpl.
  - exists []. repeat split; constructor.
  - destruct (H a (or_introl eq_refl)) as [y [Hy Py]].
    destruct IH as [l' [Hl' [Hlen HP]]]; [intros x Hx; apply H; now right|].
    exists (y :: l'). rewrite Hy, Hl'. simpl.
    repeat split; [now rewrite Hlen|now constructor].
Qed.

Lemma index_ok {A} (xs : list A) (i : nat) (d : A) :
  i < length xs -> index xs i = Ok (nth i xs d).
Proof.
  intros H. unfold index. rewrite (nth_error_nth' xs d H). reflexivity.
Qed.

Lemma index_many_ok {A} (xs : list A) (idx : list nat) (d : A) :
  (forall i, In i idx -> i < length xs) ->
  index_many xs idx = Ok (map (fun i => nth i xs d) idx).
Proof.
  intros H. unfold index_many. apply mapR_ok.
  intros i Hi. apply index_ok. now apply H.
Qed.

(** ** Maxima of a column *)

Lemma list_max_opt_spec (l : list nat) :
  l <> [] -> list_max_opt l = Some (list_max l).
Proof.
  induction l as [|x l IH]; intros H; [congruence|].
  simpl. destruct l as [|y l].
  - simpl. now rewrite Nat.max_0_r.
  - rewrite IH by discriminate. reflexivity.
Qed.

Lemma list_max_attained (l : list nat) :
  l <> [] -> In (list_max l) l.
Proof.
  induction l as [|x l IH]; intros H; [congruence|].
  simpl. destruct l as [|y l].
  - left. simpl. lia.
  - destruct (Nat.max_spec x (list_max (y :: l))) as [[_ E]|[_ E]].
    + right. rewrite E. apply IH. discriminate.
    + left. now rewrite E.
Qed.

Lemma list_max_upper (l : list nat) (x : nat) : In x l -> x <= list_max l.
Proof.
  intros H. pose proof (proj1 (list_max_le l (list_max l)) (Nat.le_refl _)) as F.
  rewrite Forall_forall in F. now apply F.
Qed.

Lemma argmax_opt_lt (l : list nat) :
  l <> [] -> exists i, argmax_opt l = Some i /\ i < length l.
Proof.
  induction l as [|x l IH]; intros H; [congruence|].
  simpl. destruct l as [|y l].
  - exists 0. simpl. split; [reflexivity|lia].
  - destruct IH as [i [Hi Hlt]]; [discriminate|].
    rewrite Hi. rewrite (list_max_opt_spec (l:=y :: l)) by discriminate.
    destruct (list_max (y :: l) <=? x).
    + exists 0. split; [reflexivity|simpl; lia].
    + exists (S i). split; [reflexivity|simpl in *; lia].
Qed.

Lemma column_nonempty (b : nat) (a : array2 nat) : a <> [] -> column b a <> [].
Proof. destruct a; [congruence|discriminate]. Qed.

Lemma max_axis0_ok (width : nat) (a : array2 nat) :
  a <> [] ->
  max_axis0 width a = Ok (map (fun b => list_max (column b a)) (seq 0 width)).
Proof.
  intros H. unfold max_axis0. destruct a as [|r a]; [congruence|].
  apply mapR_ok. intros b _.
  rewrite list_max_opt_spec by (apply column_nonempty; discriminate). reflexivity.
Qed.

Lemma argmax_axis0_ok (width : nat) (a : array2 nat) :
  a <> [] ->
  exists best, argmax_axis0 width a = Ok best
               /\ length best = width
               /\ forall i, In i best -> i < length a.
Proof.
  intros H. unfold argmax_axis0. destruct a as [|r a]; [congruence|].
  set (t := r :: a) in *.
  destruct (@mapR_exists _ _
              (fun b => match argmax_opt (column b t) with
                        | Some i => Ok i
                        | None => Raise (ValueError "attempt to get argmax of an empty sequence")
                        end)
              (fun i => i < length t) (seq 0 width)) as [best [Hb [Hlen HP]]].
  { intros b _. destruct (argmax_opt_lt (column_nonempty b H)) as [i [Hi Hlt]].
    exists i. rewrite Hi. split; [reflexivity|].
    unfold column in Hlt. now rewrite length_map in Hlt. }
  exists best. rewrite length_seq in Hlen. rewrite Forall_forall in HP.
  repeat split; assumption.
Qed.
(** ** Shapes *)

Lemma nth_map_seq {A} (f : nat -> A) (n b : nat) (d : A) :
  b < n -> nth b (map f (seq 0 n)) d = f b.
Proof.
  intros H. rewrite (nth_indep _ d (f 0)) by (now rewrite length_map, length_seq).
  rewrite (map_nth f (seq 0 n) 0 b). now rewrite seq_nth.
Qed.

Lemma row_eqb_eq (p t : list Z) : row_eqb p t = true <-> p = t.
Proof.
  revert t. induction p as [|x p IH]; intros [|y t]; simpl; split;
    try congruence; try discriminate.
  - rewrite andb_true_iff, Z.eqb_eq, IH. intros [-> ->]. reflexivity.
  - intros E. injection E as -> ->. rewrite andb_true_iff, Z.eqb_eq, IH. now split.
Qed.

Lemma row_eqb_dec (p t : list Z) :
  row_eqb p t = if list_eq_dec Z.eq_dec p t then true else false.
Proof.
  destruct (list_eq_dec Z.eq_dec p t) as [E|N].
  - now apply row_eqb_eq.
  - destruct (row_eqb p t) eqn:E; [|reflexivity].
    apply row_eqb_eq in E. contradiction.
Qed.

Lemma all_axis1_eq_nth (prediction target : array2 Z) (b : nat) :
  b < length prediction -> b < length target ->
  nth b (all_axis1_eq prediction target) false
  = row_eqb (nth b prediction []) (nth b target []).
Proof.
  revert target b. induction prediction as [|p prediction IH];
    intros [|t target] b Hp Ht; simpl in *; try lia.
  destruct b as [|b]; [reflexivity|].
  apply IH; lia.
Qed.

Lemma well_shaped_shapes ept preds (S : Type) (scores : array2 S) targets masks :
  well_shaped ept preds scores targets masks = true ->
  shapes ept preds scores targets masks.
Proof.
  unfold well_shaped. rewrite !andb_true_iff, !forallb_forall, negb_true_iff.
  intros [[[[[[[[[[[H1 H2] H3] H4] H5] H6] H7] H8] H9] _] _] _].
  apply Nat.eqb_eq in H3, H4, H8. apply Nat.eqb_neq in H1.
  constructor; auto.
  - intros ->. now apply H1.
  - intros perm Hp. specialize (H2 perm Hp). rewrite andb_true_iff in H2.
    now apply Nat.eqb_eq.
  - intros perm i Hp Hi. specialize (H2 perm Hp). rewrite andb_true_iff, forallb_forall in H2.
    apply Nat.ltb_lt. now apply H2.
  - intros a Ha. now apply Nat.eqb_eq, H5.
  - intros a Ha. now apply Nat.eqb_eq, H6.
  - intros a Ha. now apply Nat.eqb_eq, H7.
  - intros a Ha. now apply Nat.eqb_eq, H9.
Qed.

Lemma well_shaped_aligned ept preds (S : Type) (scores : array2 S) targets masks :
  well_shaped ept preds scores targets masks = true ->
  aligned ept preds targets masks.
Proof.
  unfold well_shaped. rewrite !andb_true_iff, !forallb_forall.
  intros [[[_ E] R] W]. constructor.
  - now apply Nat.leb_le.
  - intros a Ha r Hr. specialize (R a Ha). rewrite forallb_forall in R.
    now apply Nat.eqb_eq, R.
  - intros perm pt Hp Hpt. specialize (W perm Hp). rewrite forallb_forall in W.
    now apply Nat.eqb_eq, W.
Qed.

Lemma shapes_threshold ept preds scores targets masks :
  shapes ept preds scores targets masks ->
  shapes ept preds (threshold_scores scores) targets masks.
Proof.
  intros [H1 H2 H3 H4 H5 H6 H7 H8 H9 H10]. constructor; auto.
  - unfold threshold_scores. now rewrite length_map.
  - unfold threshold_scores. intros r Hr. apply in_map_iff in Hr.
    destruct Hr as [r' [<- Hr']]. rewrite length_map. now apply H10.
Qed.

Lemma count_true_map_filter {A} (f g : A -> bool) (l : list A) :
  (forall x, In x l -> f x = g x) ->
  length (filter (fun b : bool => b) (map f l)) = length (filter g l).
Proof.
  induction l as [|x l IH]; intros H; [reflexivity|].
  simpl. rewrite <- (H x (or_introl eq_refl)).
  destruct (f x); simpl; rewrite IH by (intros y Hy; apply H; now right); reflexivity.
Qed.

(** ** Arrays of one shape *)

Lemma stretched_id (n i : nat) : i < n -> stretched n i = i.
Proof.
  intros H. unfold stretched. destruct (n =? 1) eqn:E; [|reflexivity].
  apply Nat.eqb_eq in E. lia.
Qed.

Lemma map_seq_from {A B} (f : nat -> B) (g : A -> B) (l : list A) (d : A) (s : nat) :
  (forall i, i < length l -> f (s + i) = g (nth i l d)) ->
  map f (seq s (length l)) = map g l.
Proof.
  revert s. induction l as [|x l IH]; intros s H; [reflexivity|].
  cbn [length seq map]. f_equal.
  - rewrite <- (Nat.add_0_r s). apply (H 0). simpl. lia.
  - apply IH. intros i Hi. rewrite Nat.add_succ_comm. apply (H (S i)). simpl. lia.
Qed.

Lemma map_seq_combine {A B C} (f : nat -> C) (g : A -> B -> C)
  (l1 : list A) (l2 : list B) (d1 : A) (d2 : B) :
  length l1 = length l2 ->
  (forall i, i < length l1 -> f i = g (nth i l1 d1) (nth i l2 d2)) ->
  map f (seq 0 (length l1)) = map (fun xy => g (fst xy) (snd xy)) (combine l1 l2).
Proof.
  intros L H.
  assert (Lc : length (combine l1 l2) = length l1)
    by (rewrite length_combine; lia).
  rewrite <- Lc.
  apply (@map_seq_from _ _ f (fun xy => g (fst xy) (snd xy)) (combine l1 l2)
           (d1, d2) 0).
  intros i Hi. rewrite combine_nth by exact L. cbn [fst snd]. apply H. lia.
Qed.

Lemma eq_broadcast_same {A} (eqb : A -> A -> bool) (d : A) (a b : array2 A) :
  length a = length b ->
  ncols a = ncols b ->
  (forall r, In r a -> length r = ncols a) ->
  (forall r, In r b -> length r = ncols b) ->
  eq_broadcast eqb d a b
  = Ok (map (fun rs => map (fun xy => eqb (fst xy) (snd xy))
                           (combine (fst rs) (snd rs)))
            (combine a b)).
Proof.
  intros L W Ra Rb. unfold eq_broadcast, broadcast_dim.
  rewrite <- L, <- W, !Nat.eqb_refl. f_equal.
  apply (@map_seq_combine _ _ _ _
           (fun r1 r2 => map (fun xy => eqb (fst xy) (snd xy)) (combine r1 r2))
           a b [] [] L).
  intros i Hi. unfold at2. rewrite <- L, <- W, (stretched_id Hi).
  assert (L1 : length (nth i a []) = ncols a) by (apply Ra, nth_In, Hi).
  assert (L2 : length (nth i b []) = ncols a).
  { rewrite W. apply Rb, nth_In. now rewrite <- L. }
  rewrite <- L1.
  apply (@map_seq_combine _ _ _ _ eqb (nth i a []) (nth i b []) d d).
  - now rewrite L1, L2.
  - intros k Hk. rewrite L1. rewrite L1 in Hk. now rewrite (stretched_id Hk).
Qed.

Lemma forallb_row_eqb (p t : list Z) :
  length p = length t ->
  forallb (fun x => x) (map (fun xy => Z.eqb (fst xy) (snd xy)) (combine p t))
  = row_eqb p t.
Proof.
  revert t. induction p as [|x p IH]; intros [|y t] L; try discriminate L;
    [reflexivity|].
  cbn [combine map forallb row_eqb fst snd]. rewrite IH by (now injection L).
  reflexivity.
Qed.

Lemma all_axis1_rows (p t : array2 Z) :
  ncols p = ncols t ->
  (forall r, In r p -> length r = ncols p) ->
  (forall r, In r t -> length r = ncols t) ->
  all_axis1 (map (fun rs => map (fun xy => Z.eqb (fst xy) (snd xy))
                                (combine (fst rs) (snd rs)))
                 (combine p t))
  = all_axis1_eq p t.
Proof.
  intros W Rp Rt. unfold all_axis1, all_axis1_eq. rewrite map_map.
  apply map_ext_in. intros [r1 r2] Hin. cbn [fst snd].
  apply forallb_row_eqb.
  rewrite (Rp r1 (in_combine_l _ _ _ _ Hin)), (Rt r2 (in_combine_r _ _ _ _ Hin)).
  exact W.
Qed.

Lemma broadcast_to1_same {A} (size : nat) (v : list A) :
  length v = size -> broadcast_to1 size v = Ok v.
Proof. intros L. unfold broadcast_to1. now rewrite L, Nat.eqb_refl. Qed.

Lemma broadcast_to2_same {A} (d : A) (rows cols : nat) (v : array2 A) :
  v <> [] -> length v = rows ->
  (forall r, In r v -> length r = cols) ->
  broadcast_to2 d rows cols v = Ok v.
Proof.
  intros N L R. unfold broadcast_to2.
  assert (W : ncols v = cols).
  { unfold ncols. destruct v as [|r v]; [congruence|]. apply R. now left. }
  rewrite L, W, !Nat.eqb_refl. cbn [orb andb]. f_equal.
  rewrite <- L.
  rewrite (@map_seq_from _ _ _ (fun r : list A => r) v [] 0); [apply map_id|].
  intros i Hi. cbn [Nat.add]. unfold at2. rewrite W, (stretched_id Hi).
  assert (Lr : length (nth i v []) = cols) by (apply R, nth_In, Hi).
  rewrite <- Lr.
  rewrite (@map_seq_from _ _ _ (fun x : A => x) (nth i v []) d 0); [apply map_id|].
  intros k Hk. cbn [Nat.add]. now rewrite Lr, (stretched_id (n:=cols)) by lia.
Qed.

Lemma map_snd_enumerate {A B} (g : A -> B) (l : list A) (s n : nat) :
  length l <= n ->
  map (fun jx : nat * A => g (snd jx)) (combine (seq s n) l) = map g l.
Proof.
  revert s n. induction l as [|x l IH]; intros s n L.
  - now rewrite combine_nil.
  - destruct n as [|n]; [simpl in L; lia|].
    cbn [seq combine map snd]. f_equal. apply IH. simpl in L. lia.
Qed.

Lemma mapR_enumerate {A B} (f : nat * A -> result B) (g : A -> B)
  (l : list A) (n : nat) :
  length l <= n ->
  (forall j x, In (j, x) (combine (seq 0 n) l) -> f (j, x) = Ok (g x)) ->
  mapR f (combine (seq 0 n) l) = Ok (map g l).
Proof.
  intros L H.
  rewrite (mapR_ok f (fun jx => g (snd jx)) (combine (seq 0 n) l)).
  - now rewrite map_snd_enumerate.
  - intros [j x] Hin. now apply H.
Qed.

(** ** The accuracies of one permutation *)

Section OnePermutation.
Variables (ept : array2 nat) (preds targets : list (array2 Z)).
Variables (ppreds masks : array2 bool).
Hypothesis Sh : shapes ept preds ppreds targets masks.
Hypothesis Al : aligned ept preds targets masks.

Lemma permutation_accuracies_ok (perm : list nat) :
  In perm ept ->
  permutation_accuracies preds targets masks ppreds perm
  = Ok (jet_rows_of preds targets perm,
        eq_elementwise (map (fun i => nth i masks []) perm) ppreds).
Proof.
  intros Hp. destruct Sh as [S_group S_perm_len S_perm_rng S_targets S_preds S_target_rows S_pred_rows S_mask_rows S_scores S_score_rows].
  destruct Al as [A_events A_rows A_widths].
  assert (T1 : masks <> []).
  { intros E. unfold ncols in A_events. rewrite E in A_events.
    cbn [hd length] in A_events. lia. }
  unfold permutation_accuracies.
  rewrite (@index_many_ok _ targets perm [])
    by (intros i Hi; rewrite S_targets; eauto).
  cbn [rbind].
  set (pairs := combine preds (map (fun i => nth i targets []) perm)).
  assert (Lpairs : length pairs = length masks).
  { unfold pairs. rewrite length_combine, length_map, S_preds, (S_perm_len _ Hp).
    apply Nat.min_id. }
  assert (F : forall pt, In pt pairs ->
                length (fst pt) = ncols masks /\ length (snd pt) = ncols masks
                /\ ncols (fst pt) = ncols (snd pt)
                /\ (forall r, In r (fst pt) -> length r = ncols (fst pt))
                /\ (forall r, In r (snd pt) -> length r = ncols (snd pt))).
  { intros [p t] Hin. cbn [fst snd].
    assert (Ip : In p preds) by (eapply in_combine_l; exact Hin).
    assert (It : In t targets).
    { apply in_combine_r in Hin. apply in_map_iff in Hin.
      destruct Hin as [i [<- Hi]]. apply nth_In. rewrite S_targets. eauto. }
    split; [now apply S_pred_rows|]. split; [now apply S_target_rows|].
    split; [exact (A_widths perm (p, t) Hp Hin)|].
    split; apply A_rows, in_or_app; [now left|now right]. }
  rewrite (@mapR_enumerate _ _ _ (fun pt => all_axis1_eq (fst pt) (snd pt))
             pairs (length preds)).
  2:{ rewrite Lpairs, S_preds. apply Nat.le_refl. }
  2:{ intros j pt Hin. cbn [fst snd].
      assert (Hj : j < length masks).
      { apply in_combine_l, in_seq in Hin. rewrite S_preds in Hin. lia. }
      apply in_combine_r in Hin.
      destruct (F pt Hin) as [Lp [Lt [W [Rp Rt]]]].
      rewrite (eq_broadcast_same Z.eqb 0%Z (fst pt) (snd pt))
        by (try assumption; now rewrite Lp, Lt).
      cbn [rbind]. apply Nat.ltb_lt in Hj. rewrite Hj.
      rewrite (@all_axis1_rows (fst pt) (snd pt) W Rp Rt). apply broadcast_to1_same.
      unfold all_axis1_eq. rewrite length_map, length_combine, Lp, Lt.
      apply Nat.min_id. }
  cbn [rbind]. cbv zeta.
  fold pairs.
  change (map (fun pt : array2 Z * array2 Z => all_axis1_eq (fst pt) (snd pt)) pairs)
    with (jet_rows_of preds targets perm).
  assert (L : length (jet_rows_of preds targets perm) = length masks).
  { unfold jet_rows_of. fold pairs. now rewrite length_map. }
  rewrite L, Nat.sub_diag. cbn [repeat]. rewrite app_nil_r.
  rewrite (@index_many_ok _ masks perm [])
    by (intros i Hi; eauto).
  cbn [rbind].
  set (pm := map (fun i => nth i masks []) perm).
  assert (Lpm : length pm = length masks).
  { unfold pm. now rewrite length_map, (S_perm_len _ Hp). }
  assert (Rpm : forall r, In r pm -> length r = ncols masks).
  { intros r Hr. unfold pm in Hr. apply in_map_iff in Hr.
    destruct Hr as [i [<- Hi]]. apply S_mask_rows, nth_In. eauto. }
  assert (N : forall (a : array2 bool),
             length a = length masks ->
             (forall r, In r a -> length r = ncols masks) ->
             a <> [] /\ ncols a = ncols masks).
  { intros a La Ra. destruct a as [|r a].
    - destruct masks; [congruence|discriminate La].
    - split; [discriminate|]. unfold ncols at 1. cbn [hd]. apply Ra. now left. }
  destruct (N pm Lpm Rpm) as [Npm Wpm].
  destruct (N ppreds S_scores S_score_rows) as [Npp Wpp].
  rewrite (eq_broadcast_same Bool.eqb false pm ppreds).
  2:{ now rewrite Lpm, S_scores. }
  2:{ now rewrite Wpm, Wpp. }
  2:{ intros r Hr. rewrite Wpm. now apply Rpm. }
  2:{ intros r Hr. rewrite Wpp. now apply S_score_rows. }
  cbn [rbind]. fold (eq_elementwise pm ppreds).
  rewrite broadcast_to2_same; [reflexivity| | |].
  - unfold eq_elementwise. destruct pm; [congruence|].
    destruct ppreds; [congruence|]. discriminate.
  - unfold eq_elementwise. rewrite length_map, length_combine, Lpm, S_scores.
    apply Nat.min_id.
  - intros r Hr. unfold eq_elementwise in Hr. apply in_map_iff in Hr.
    destruct Hr as [[r1 r2] [<- Hin]]. cbn [fst snd].
    rewrite length_map, length_combine,
      (Rpm r1 (in_combine_l _ _ _ _ Hin)),
      (S_score_rows r2 (in_combine_r _ _ _ _ Hin)).
    apply Nat.min_id.
Qed.

Lemma jet_count_matching (perm : list nat) (b : nat) :
  In perm ept -> b < ncols masks ->
  nth b (sum_axis0 (ncols masks) (jet_rows_of preds targets perm)) 0
  = matching_targets preds targets perm b.
Proof.
  clear Al.
  intros Hp Hb. destruct Sh as [S_group S_perm_len S_perm_rng S_targets S_preds S_target_rows S_pred_rows S_mask_rows S_scores S_score_rows]. unfold sum_axis0.
  rewrite nth_map_seq by assumption.
  unfold jet_rows_of, matching_targets, count_true.
  assert (F : forall pt, In pt (combine preds (map (fun i => nth i targets []) perm)) ->
                         length (fst pt) = ncols masks /\ length (snd pt) = ncols masks).
  { intros [p t] Hin. split; simpl.
    - apply S_pred_rows. eapply in_combine_l; eauto.
    - apply in_combine_r in Hin. apply in_map_iff in Hin.
      destruct Hin as [i [<- Hi]]. apply S_target_rows, nth_In.
      rewrite S_targets. eauto. }
  rewrite map_map. apply count_true_map_filter.
  intros pt Hpt. destruct (F pt Hpt) as [Lp Lt].
  rewrite all_axis1_eq_nth by lia. apply row_eqb_dec.
Qed.
End OnePermutation.

(** Outside these shapes the comparison follows numpy.  A width of one is
    stretched: one event, a prediction [[7; 7]] against the target [[7]] and a
    prediction [[5]] against the target [[5; 5]] match under the exchange of
    the two targets, and the jet accuracy of the event is two. *)
Example widths_of_one_are_broadcast :
  best_permutation_accuracies [[0; 1]; [1; 0]] [[[7; 7]]; [[5]]]%Z
    [[true]; [true]] [[[5; 5]]; [[7]]]%Z [[true]; [true]]
  = Ok ([2], [2], [[true]; [true]], [2]).
Proof. reflexivity. Qed.

(** Widths of two and of three cannot be broadcast: the comparison raises. *)
Example other_widths_raise :
  best_permutation_accuracies [[0; 1]; [1; 0]] [[[7; 7]]; [[5; 5; 5]]]%Z
    [[true]; [true]] [[[5; 5]]; [[7; 7; 7]]]%Z [[true]; [true]]
  = Raise (ValueError "operands could not be broadcast together").
Proof. reflexivity. Qed.

(** ** The permutation search *)

Section Search.
Variables (ept : array2 nat) (preds targets : list (array2 Z)).
Variables (ppreds masks : array2 bool).
Hypothesis Sh : shapes ept preds ppreds targets masks.
Hypothesis Al : aligned ept preds targets masks.

Lemma ncols_group : ncols ept = length masks.
Proof.
  clear Al.
  destruct Sh as [S_group S_perm_len S_perm_rng S_targets S_preds S_target_rows S_pred_rows S_mask_rows S_scores S_score_rows]. unfold ncols. destruct ept as [|perm rest]; [congruence|].
  simpl. apply S_perm_len. now left.
Qed.

Lemma gather0_chosen (best : list nat) :
  length best = ncols masks ->
  (forall i, In i best -> i < length ept) ->
  exists permuted_masks,
    gather0 masks (transpose (ncols ept) (map (fun i => nth i ept []) best))
    = Ok permuted_masks.
Proof.
  clear Al.
  intros Hlen Hrng. pose proof ncols_group as NC. destruct Sh as [S_group S_perm_len S_perm_rng S_targets S_preds S_target_rows S_pred_rows S_mask_rows S_scores S_score_rows].
  unfold gather0.
  destruct (@mapR_exists _ _
    (fun idx_row : list nat =>
       mapR (fun bi => (row <- index masks (snd bi) ;; index row (fst bi))%result)
            (combine (seq 0 (length idx_row)) idx_row))
    (fun _ => True)
    (transpose (ncols ept) (map (fun i => nth i ept []) best)))
    as [pm [Hpm _]].
  2:{ exists pm. exact Hpm. }
  intros idx_row Hrow. unfold transpose in Hrow. apply in_map_iff in Hrow.
  destruct Hrow as [t [<- Ht]]. apply in_seq in Ht. rewrite NC in Ht.
  destruct (@mapR_exists _ _
    (fun bi : nat * nat => (row <- index masks (snd bi) ;; index row (fst bi))%result)
    (fun _ => True)
    (combine (seq 0 (length (map (fun row => nth t row 0)
                                 (map (fun i => nth i ept []) best))))
             (map (fun row => nth t row 0) (map (fun i => nth i ept []) best))))
    as [r [Hr _]].
  2:{ exists r. split; [exact Hr|exact I]. }
  intros [b v] Hbv. pose proof (in_combine_l _ _ _ _ Hbv) as Hb.
  pose proof (in_combine_r _ _ _ _ Hbv) as Hv.
  apply in_seq in Hb. rewrite !length_map, Hlen in Hb.
  rewrite map_map in Hv. apply in_map_iff in Hv. destruct Hv as [i [<- Hi]].
  assert (Hperm : In (nth i ept []) ept) by (apply nth_In; auto).
  assert (Hv : nth t (nth i ept []) 0 < length masks).
  { apply (S_perm_rng _ _ Hperm). apply nth_In.
    rewrite (S_perm_len _ Hperm). lia. }
  simpl. rewrite (index_ok masks [] Hv). simpl.
  assert (Hrow : length (nth (nth t (nth i ept []) 0) masks []) = ncols masks).
  { apply S_mask_rows, nth_In, Hv. }
  exists (nth b (nth (nth t (nth i ept []) 0) masks []) false).
  split; [|exact I]. apply index_ok. lia.
Qed.

Lemma best_permutation_accuracies_ok :
  exists permuted_masks,
    best_permutation_accuracies ept preds ppreds targets masks
    = Ok (map (fun b => list_max (column b (jet_table ept preds targets masks))) (seq 0 (ncols masks)),
          map (fun b => list_max (column b (particle_table ept ppreds masks))) (seq 0 (ncols masks)),
          permuted_masks,
          sum_axis0 (ncols masks) masks).
Proof.
  unfold best_permutation_accuracies.
  rewrite (mapR_ok _ _ _ (fun perm Hp => permutation_accuracies_ok Sh Al perm Hp)).
  simpl. rewrite !map_map. simpl. fold (jet_rows_of preds targets). fold (jet_table ept preds targets masks). fold (particle_table ept ppreds masks).
  assert (NE : jet_table ept preds targets masks <> []).
  { unfold jet_table. destruct Sh as [S_group S_perm_len S_perm_rng S_targets S_preds S_target_rows S_pred_rows S_mask_rows S_scores S_score_rows]. destruct ept; [congruence|discriminate]. }
  assert (NE' : particle_table ept ppreds masks <> []).
  { unfold particle_table. destruct Sh as [S_group S_perm_len S_perm_rng S_targets S_preds S_target_rows S_pred_rows S_mask_rows S_scores S_score_rows]. destruct ept; [congruence|discriminate]. }
  destruct (argmax_axis0_ok (ncols masks) NE) as [best [Hbest [Hlen Hrng]]].
  rewrite Hbest. simpl.
  assert (Hrng' : forall i, In i best -> i < length ept).
  { intros i Hi. specialize (Hrng i Hi). unfold jet_table in Hrng.
    now rewrite length_map in Hrng. }
  rewrite (@index_many_ok _ ept best []) by exact Hrng'. simpl.
  destruct (gather0_chosen best Hlen Hrng') as [pm Hpm].
  rewrite Hpm. simpl.
  rewrite (max_axis0_ok _ NE), (max_axis0_ok _ NE'). simpl.
  exists pm. reflexivity.
Qed.
End Search.


(** ** Dictionaries *)

Lemma get_set_same {V} (k : string) (v : V) (d : Dict.dict V) :
  Dict.get k (Dict.set k v d) = Some v.
Proof.
  induction d as [|[k' v'] d IH]; simpl.
  - now rewrite String.eqb_refl.
  - destruct (String.eqb k k') eqn:E; simpl; rewrite E; [reflexivity|exact IH].
Qed.

Lemma get_set_other {V} (k k' : string) (v : V) (d : Dict.dict V) :
  k <> k' -> Dict.get k (Dict.set k' v d) = Dict.get k d.
Proof.
  intros N. induction d as [|[k0 v0] d IH]; simpl.
  - apply String.eqb_neq in N. now rewrite N.
  - destruct (String.eqb k' k0) eqn:E; simpl.
    + apply String.eqb_eq in E. subst k0. apply String.eqb_neq in N. now rewrite N.
    + destruct (String.eqb k k0); [reflexivity|exact IH].
Qed.

Lemma get_update_other {V} (k : string) (items : list (string * V)) (d : Dict.dict V) :
  (forall kv, In kv items -> fst kv <> k) ->
  Dict.get k (Dict.update d items) = Dict.get k d.
Proof.
  revert d. induction items as [|[k' v'] items IH]; intros d H; [reflexivity|].
  unfold Dict.update in *. simpl. rewrite IH by (intros kv Hkv; apply H; now right).
  apply get_set_other. intros ->. now apply (H (k', v') (or_introl eq_refl)).
Qed.

Lemma get_update_in {X V} (key : X -> string) (val : X -> V) (xs : list X)
  (d : Dict.dict V) (x : X) :
  (forall y, In y xs -> key y = key x -> val y = val x) ->
  In x xs ->
  Dict.get (key x) (Dict.update d (map (fun y => (key y, val y)) xs)) = Some (val x).
Proof.
  revert d. induction xs as [|a xs IH] using rev_ind; intros d Inj Hin; [contradiction|].
  unfold Dict.update. rewrite map_app, fold_left_app. simpl.
  destruct (string_dec (key x) (key a)) as [E|N].
  - rewrite E, get_set_same. f_equal. apply Inj; [apply in_or_app; right; now left|now symmetry].
  - rewrite get_set_other by exact N. apply IH.
    + intros y Hy. apply Inj. apply in_or_app. now left.
    + apply in_app_or in Hin. destruct Hin as [Hin|[<-|[]]]; [exact Hin|congruence].
Qed.

(** ** Metric names *)

Lemma append_cancel_l (a b c : string) : (a ++ b = a ++ c)%string -> b = c.
Proof. induction a as [|x a IH]; simpl; intros H; [exact H|]. injection H as H. auto. Qed.

Lemma string_of_uint_digits (d : Decimal.uint) :
  ~ In "_"%char (list_ascii_of_string (NilEmpty.string_of_uint d)).
Proof.
  induction d; simpl; intros H; try contradiction;
    destruct H as [H|H]; try discriminate; contradiction.
Qed.

Lemma separator_inj (s s' r r' : string) :
  ~ In "_"%char (list_ascii_of_string s) ->
  ~ In "_"%char (list_ascii_of_string s') ->
  (s ++ String "_" r = s' ++ String "_" r')%string -> s = s' /\ r = r'.
Proof.
  revert s'. induction s as [|c s IH]; intros [|c' s'] Hs Hs' E; simpl in *.
  - injection E as E. now split.
  - injection E as E1 E2. exfalso. apply Hs'. now left.
  - injection E as E1 E2. exfalso. apply Hs. now left.
  - injection E as E1 E2. subst c'.
    destruct (IH s') as [-> ->]; auto.
Qed.

Lemma str_of_nat_inj (n m : nat) : str_of_nat n = str_of_nat m -> n = m.
Proof.
  unfold str_of_nat. intros E.
  apply Unsigned.to_uint_inj.
  pose proof (NilEmpty.usu (Nat.to_uint n)) as Hn.
  pose proof (NilEmpty.usu (Nat.to_uint m)) as Hm.
  rewrite E in Hn. congruence.
Qed.

Lemma accuracy_key_inj (family : string) (i j i' j' : nat) :
  accuracy_key family i j = accuracy_key family i' j' -> i = i' /\ j = j'.
Proof.
  unfold accuracy_key. intros E.
  apply append_cancel_l in E.
  apply (append_cancel_l "/accuracy") in E.
  change ("_" ++ ?x)%string with (String "_" x) in E.
  injection E as E.
  apply separator_inj in E; try apply string_of_uint_digits.
  destruct E as [E1 E2]. apply (append_cancel_l "of_") in E2.
  split; now apply str_of_nat_inj.
Qed.

(** ** The metric dictionary *)

Lemma accuracy_fraction_events (accuracies num_particles : list nat) (i j : nat) :
  accuracy_fraction accuracies num_particles i j
  = events_fraction accuracies num_particles i j.
Proof.
  unfold accuracy_fraction, events_fraction, mean_bool, count_true.
  assert (E : forall np acc,
             length (filter (fun b : bool => b)
                       (map (fun a => i <=? a) (select (map (fun n => n =? j) np) acc)))
             = length (filter (fun e => (fst e =? j) && (i <=? snd e)) (combine np acc))
             /\ length (map (fun a => i <=? a) (select (map (fun n => n =? j) np) acc))
                = length (filter (fun e => fst e =? j) (combine np acc))).
  { induction np as [|n np IH]; intros [|a acc]; simpl; try (split; reflexivity).
    destruct (IH acc) as [E1 E2].
    destruct (n =? j); simpl; [|now split].
    destruct (i <=? a); simpl; split; congruence. }
  destruct (E num_particles accuracies) as [-> ->]. reflexivity.
Qed.

Lemma accuracy_items_pairs (family : string) (acc np : list nat) (n : nat) :
  accuracy_items family acc np n
  = map (fun ij => (accuracy_key family (fst ij) (snd ij),
                    accuracy_fraction acc np (fst ij) (snd ij)))
        (accuracy_pairs n).
Proof.
  unfold accuracy_items, accuracy_pairs.
  induction (seq 1 n) as [|j l IH]; simpl; [reflexivity|].
  rewrite map_app, map_map, IH. reflexivity.
Qed.

Lemma in_accuracy_pairs (n i j : nat) :
  In (i, j) (accuracy_pairs n) <-> 1 <= i /\ i <= j /\ j <= n.
Proof.
  unfold accuracy_pairs. rewrite in_flat_map. split.
  - intros [j' [Hj Hi]]. apply in_map_iff in Hi. destruct Hi as [i' [E Hi]].
    injection E as -> ->. apply in_seq in Hj, Hi. lia.
  - intros H. exists j. split; [apply in_seq; lia|].
    apply in_map_iff. exists i. split; [reflexivity|apply in_seq; lia].
Qed.

Lemma get_accuracy_items (family : string) (acc np : list nat) (n i j : nat)
  (d : Dict.dict float) :
  1 <= i -> i <= j -> j <= n ->
  Dict.get (accuracy_key family i j) (Dict.update d (accuracy_items family acc np n))
  = Some (accuracy_fraction acc np i j).
Proof.
  intros H1 H2 H3. rewrite accuracy_items_pairs.
  apply (get_update_in (fun ij => accuracy_key family (fst ij) (snd ij))
           (fun ij => accuracy_fraction acc np (fst ij) (snd ij))
           (accuracy_pairs n) d (i, j)).
  - intros [i' j'] _ E. simpl in *. apply accuracy_key_inj in E.
    destruct E as [-> ->]. reflexivity.
  - apply in_accuracy_pairs. lia.
Qed.

Lemma get_other_family (family family' : string) (acc np : list nat) (n : nat)
  (k : string) (d : Dict.dict float) :
  (forall i j, accuracy_key family i j <> k) ->
  Dict.get k (Dict.update d (accuracy_items family acc np n)) = Dict.get k d.
Proof.
  intros N. apply get_update_other. intros kv Hkv.
  rewrite accuracy_items_pairs in Hkv. apply in_map_iff in Hkv.
  destruct Hkv as [[i j] [<- _]]. simpl. apply N.
Qed.

Ltac keys_differ :=
  unfold accuracy_key, particle_key; cbn [append]; discriminate.

Section MetricDictionary.
Variables accuracy_score recall_score f1_score : list bool -> list bool -> float.
Variables (ept : array2 nat) (preds targets : list (array2 Z)).
Variables (scores : array2 float) (masks : array2 bool).
Variables (ja pa np : list nat) (pm : array2 bool).

Hypothesis Best :
  best_permutation_accuracies ept preds (threshold_scores scores) targets masks
  = Ok (ja, pa, pm, np).
Hypothesis Some_target : 1 <= length masks.

Lemma compute_metrics_entries :
  exists metrics,
    compute_metrics accuracy_score recall_score f1_score ept
      preds scores targets masks = Ok metrics
    /\ (forall i j, 1 <= i -> i <= j -> j <= length masks ->
          Dict.get (accuracy_key "jet" i j) metrics
          = Some (accuracy_fraction ja np i j))
    /\ (forall i j, 1 <= i -> i <= j -> j <= length masks ->
          Dict.get (accuracy_key "particle" i j) metrics
          = Some (accuracy_fraction pa np i j))
    /\ Dict.get "particle/accuracy" metrics
       = Some (accuracy_score (ravel pm) (ravel (threshold_scores scores)))
    /\ Dict.get "particle/sensitivity" metrics
       = Some (recall_score (ravel pm) (ravel (threshold_scores scores)))
    /\ Dict.get "particle/specificity" metrics
       = Some (recall_score (map negb (ravel pm))
                            (map negb (ravel (threshold_scores scores))))
    /\ Dict.get "particle/f_score" metrics
       = Some (f1_score (ravel pm) (ravel (threshold_scores scores)))
    /\ Dict.get "validation_accuracy" metrics
       = Some (accuracy_fraction ja np (length masks) (length masks)).
Proof.
  unfold compute_metrics. rewrite Best. cbn [rbind].
  unfold particle_metrics, particle_score_metrics.
  cbn [fold_left fst snd]. 
  change (particle_key "accuracy") with "particle/accuracy".
  change (particle_key "sensitivity") with "particle/sensitivity".
  change (particle_key "specificity") with "particle/specificity".
  change (particle_key "f_score") with "particle/f_score".
  set (n := length masks) in *.
  set (d1 := Dict.update [] (accuracy_items "jet" ja np n)).
  set (d2 := Dict.update d1 (accuracy_items "particle" pa np n)).
  set (tg := ravel pm). set (pr := ravel (threshold_scores scores)).
  set (d3 := Dict.set "particle/accuracy" (accuracy_score tg pr) d2).
  set (d4 := Dict.set "particle/sensitivity" (recall_score tg pr) d3).
  set (d5 := Dict.set "particle/specificity"
               (recall_score (map negb tg) (map negb pr)) d4).
  set (d6 := Dict.set "particle/f_score" (f1_score tg pr) d5).
  assert (J : forall i j, 1 <= i -> i <= j -> j <= n ->
              Dict.get (accuracy_key "jet" i j) d6
              = Some (accuracy_fraction ja np i j)).
  { intros i j H1 H2 H3. unfold d6, d5, d4, d3, d2.
    rewrite !get_set_other by keys_differ.
    rewrite (@get_other_family "particle" "jet") by (intros; keys_differ).
    now apply get_accuracy_items. }
  assert (P : forall i j, 1 <= i -> i <= j -> j <= n ->
              Dict.get (accuracy_key "particle" i j) d6
              = Some (accuracy_fraction pa np i j)).
  { intros i j H1 H2 H3. unfold d6, d5, d4, d3, d2.
    rewrite !get_set_other by keys_differ.
    now apply get_accuracy_items. }
  unfold Dict.getitem. rewrite (J n n) by lia. cbn [rbind].
  eexists. split; [reflexivity|].
  repeat split.
  - intros i j H1 H2 H3. rewrite get_set_other by keys_differ. now apply J.
  - intros i j H1 H2 H3. rewrite get_set_other by keys_differ. now apply P.
  - unfold d6, d5, d4, d3. rewrite !get_set_other by discriminate.
    apply get_set_same.
  - unfold d6, d5, d4. rewrite !get_set_other by discriminate.
    apply get_set_same.
  - unfold d6, d5. rewrite !get_set_other by discriminate.
    apply get_set_same.
  - unfold d6. rewrite !get_set_other by discriminate.
    apply get_set_same.
  - apply get_set_same.
Qed.
End MetricDictionary.

(** C7.  On a batch with [n >= 1] targets of the shapes that [validation_step]
    builds, with at least one event and with every prediction as wide as the
    targets that the group puts in its place ([well_shaped]),
    [compute_metrics] returns a dictionary that has, for every pair
    [1 <= i <= j <= n], the entries ["jet/accuracy_i_of_j"] and
    ["particle/accuracy_i_of_j"], each the fraction, among the events with
    exactly [j] present targets, of the events whose best-permutation accuracy
    count is at least [i]; and the four entries ["particle/accuracy"],
    ["particle/sensitivity"], ["particle/specificity"], ["particle/f_score"],
    computed by the library metrics over the flattened permuted masks and the
    flattened thresholded scores. *)
Theorem accuracy_entries :
  forall (accuracy_score recall_score f1_score : list bool -> list bool -> float)
         (ept : array2 nat) (preds : list (array2 Z)) (scores : array2 float)
         (targets : list (array2 Z)) (masks : array2 bool),
    well_shaped ept preds scores targets masks = true ->
    1 <= length masks ->
    exists metrics jet_accuracies particle_accuracies permuted_masks,
      let num_particles := sum_axis0 (ncols masks) masks in
      let predictions := ravel (threshold_scores scores) in
      best_permutation_accuracies ept preds (threshold_scores scores) targets masks
      = Ok (jet_accuracies, particle_accuracies, permuted_masks, num_particles)
      /\ compute_metrics accuracy_score recall_score f1_score ept
           preds scores targets masks = Ok metrics
      /\ (forall i j, 1 <= i -> i <= j -> j <= length masks ->
            Dict.get (accuracy_key "jet" i j) metrics
            = Some (events_fraction jet_accuracies num_particles i j)
            /\ Dict.get (accuracy_key "particle" i j) metrics
               = Some (events_fraction particle_accuracies num_particles i j))
      /\ Dict.get "particle/accuracy" metrics
         = Some (accuracy_score (ravel permuted_masks) predictions)
      /\ Dict.get "particle/sensitivity" metrics
         = Some (recall_score (ravel permuted_masks) predictions)
      /\ Dict.get "particle/specificity" metrics
         = Some (recall_score (map negb (ravel permuted_masks)) (map negb predictions))
      /\ Dict.get "particle/f_score" metrics
         = Some (f1_score (ravel permuted_masks) predictions).
Proof.
  intros acc_s rec_s f1_s ept preds scores targets masks W N.
  pose proof (shapes_threshold (well_shaped_shapes _ _ _ _ _ W)) as Sh.
  pose proof (well_shaped_aligned _ _ _ _ _ W) as Al.
  destruct (best_permutation_accuracies_ok Sh Al) as [pm Best].
  destruct (compute_metrics_entries acc_s rec_s f1_s _ _ _ _ _ Best N)
    as [metrics [E [J [P [A [R [Sp [F _]]]]]]]].
  exists metrics. eexists _, _, pm. cbv zeta.
  split; [exact Best|]. split; [exact E|].
  repeat split; try assumption.
  - rewrite <- accuracy_fraction_events. now apply J.
  - rewrite <- accuracy_fraction_events. now apply P.
Qed.

(** C5.  On such a well-shaped batch the returned dictionary has the entry
    ["validation_accuracy"], equal to the entry ["jet/accuracy_n_of_n"] for the
    number [n] of targets: the fraction, among the events with all [n] targets
    present, of the events whose best-permutation jet accuracy reaches [n]. *)
Theorem validation_accuracy_entry :
  forall (accuracy_score recall_score f1_score : list bool -> list bool -> float)
         (ept : array2 nat) (preds : list (array2 Z)) (scores : array2 float)
         (targets : list (array2 Z)) (masks : array2 bool),
    well_shaped ept preds scores targets masks = true ->
    1 <= length masks ->
    exists metrics jet_accuracies particle_accuracies permuted_masks,
      let n := length masks in
      let num_particles := sum_axis0 (ncols masks) masks in
      best_permutation_accuracies ept preds (threshold_scores scores) targets masks
      = Ok (jet_accuracies, particle_accuracies, permuted_masks, num_particles)
      /\ compute_metrics accuracy_score recall_score f1_score ept
           preds scores targets masks = Ok metrics
      /\ Dict.get "validation_accuracy" metrics
         = Dict.get (accuracy_key "jet" n n) metrics
      /\ Dict.get "validation_accuracy" metrics
         = Some (events_fraction jet_accuracies num_particles n n).
Proof.
  intros acc_s rec_s f1_s ept preds scores targets masks W N.
  pose proof (shapes_threshold (well_shaped_shapes _ _ _ _ _ W)) as Sh.
  pose proof (well_shaped_aligned _ _ _ _ _ W) as Al.
  destruct (best_permutation_accuracies_ok Sh Al) as [pm Best].
  destruct (compute_metrics_entries acc_s rec_s f1_s _ _ _ _ _ Best N)
    as [metrics [E [J [_ [_ [_ [_ [_ V]]]]]]]].
  exists metrics. eexists _, _, pm. cbv zeta.
  split; [exact Best|]. split; [exact E|].
  rewrite V, J by lia. split; [reflexivity|].
  now rewrite accuracy_fraction_events.
Qed.


(** ** The threshold of the particle scores *)



(** C9.  [test_step] returns what [validation_step] returns on the same
    batch and batch index, with the same log. *)
Theorem test_step_is_validation_step :
  forall (Sources Assignments Detections Regressions Classifications : Type)
         (accuracy_score recall_score f1_score : list bool -> list bool -> float)
         (tsum tmean np_mean : list float -> float)
         symmetric_losses add_kl_loss add_regression_loss add_classification_loss
         predict full_report_string (batch_on_cpu : bool) (self : Network)
         (batch : Batch Sources) (batch_idx : nat) (trace : list log_entry),
    @test_step Sources Assignments Detections Regressions Classifications
      accuracy_score recall_score f1_score tsum tmean np_mean
      symmetric_losses add_kl_loss add_regression_loss add_classification_loss
      predict full_report_string batch_on_cpu self batch batch_idx trace
    = @validation_step Sources Assignments Detections Regressions Classifications
        accuracy_score recall_score f1_score tsum tmean np_mean
        symmetric_losses add_kl_loss add_regression_loss add_classification_loss
        predict full_report_string batch_on_cpu self batch batch_idx trace.
Proof. reflexivity. Qed.

(** ** Sorting a row *)

Lemma insert_sorted_comm (x y : Z) (l : list Z) :
  insert_sorted x (insert_sorted y l) = insert_sorted y (insert_sorted x l).
Proof.
  induction l as [|z l IH]; simpl.
  - destruct (Z.leb_spec x y), (Z.leb_spec y x); try lia; try reflexivity.
    assert (x = y) by lia. now subst.
  - destruct (Z.leb_spec y z), (Z.leb_spec x z); simpl;
      repeat match goal with
             | |- context [(?a <=? ?b)%Z] => destruct (Z.leb_spec a b)
             end; try lia; try reflexivity.
    + assert (x = y) by lia. now subst.
    + now rewrite IH.
Qed.

Lemma np_sort_permutation_invariant (l l' : list Z) :
  Permutation l l' -> np_sort l = np_sort l'.
Proof.
  induction 1; simpl.
  - reflexivity.
  - now f_equal.
  - apply insert_sorted_comm.
  - congruence.
Qed.

Lemma insert_sorted_perm (x : Z) (l : list Z) : Permutation (insert_sorted x l) (x :: l).
Proof.
  induction l as [|y l IH]; simpl; [reflexivity|].
  destruct (x <=? y)%Z; [reflexivity|].
  rewrite IH. apply perm_swap.
Qed.

Lemma np_sort_perm (l : list Z) : Permutation (np_sort l) l.
Proof.
  induction l as [|x l IH]; simpl; [reflexivity|].
  rewrite insert_sorted_perm. now constructor.
Qed.

Lemma np_sort_length (l : list Z) : length (np_sort l) = length l.
Proof. apply Permutation_length, np_sort_perm. Qed.

Lemma insert_sorted_sorted (x : Z) (l : list Z) :
  Sorted Z.le l -> Sorted Z.le (insert_sorted x l).
Proof.
  induction 1 as [|y l Hs IH Hd]; simpl.
  - repeat constructor.
  - destruct (Z.leb_spec x y).
    + constructor; [now constructor|now constructor].
    + constructor; [exact IH|].
      destruct l as [|z l]; simpl.
      * constructor. lia.
      * inversion Hd; subst. destruct (Z.leb_spec x z); constructor; lia.
Qed.

Lemma np_sort_sorted (l : list Z) : Sorted Z.le (np_sort l).
Proof.
  induction l as [|x l IH]; simpl; [constructor|].
  now apply insert_sorted_sorted.
Qed.

(** ** Writing a row back *)

Lemma set_nth_length (i : nat) (v : Z) (row : list Z) :
  length (set_nth i v row) = length row.
Proof.
  revert i. induction row as [|x row IH]; intros [|i]; simpl; auto.
Qed.

Lemma set_nth_same (i : nat) (v d : Z) (row : list Z) :
  i < length row -> nth i (set_nth i v row) d = v.
Proof.
  revert i. induction row as [|x row IH]; intros [|i] H; simpl in *; try lia; auto.
  apply IH. lia.
Qed.

Lemma set_nth_other (i k : nat) (v d : Z) (row : list Z) :
  k <> i -> nth k (set_nth i v row) d = nth k row d.
Proof.
  revert i k. induction row as [|x row IH]; intros [|i] [|k] H; simpl; try reflexivity;
    try congruence.
  apply IH. congruence.
Qed.

Lemma scatter_length (row : list Z) (g : list nat) (v : list Z) :
  length (scatter row g v) = length row.
Proof.
  revert row v. induction g as [|i g IH]; intros row [|x v]; simpl; auto.
  now rewrite IH, set_nth_length.
Qed.

Lemma scatter_outside (row : list Z) (g : list nat) (v : list Z) (k : nat) (d : Z) :
  ~ In k g -> nth k (scatter row g v) d = nth k row d.
Proof.
  revert row v. induction g as [|i g IH]; intros row [|x v] H; simpl; auto.
  rewrite IH by (intros C; apply H; now right).
  apply set_nth_other. intros ->. apply H. now left.
Qed.

Lemma scatter_agree (r r' : list Z) (g : list nat) (v : list Z) (k : nat) (d : Z) :
  length r = length r' -> length v = length g ->
  In k g \/ nth k r d = nth k r' d ->
  nth k (scatter r g v) d = nth k (scatter r' g v) d.
Proof.
  revert r r' v. induction g as [|i g IH]; intros r r' [|x v] L Lv H; simpl in *;
    try discriminate.
  - destruct H as [[]|H]. exact H.
  - apply IH.
    + now rewrite !set_nth_length.
    + lia.
    + destruct (Nat.eq_dec k i) as [->|N].
      * right. destruct (Nat.lt_ge_cases i (length r)) as [Hi|Hi].
        -- rewrite !set_nth_same by lia. reflexivity.
        -- rewrite !nth_overflow by (rewrite set_nth_length; lia). reflexivity.
      * destruct H as [[E|H]|H]; [congruence|now left|].
        right. now rewrite !set_nth_other.
Qed.

Lemma gather_scatter (row : list Z) (g : list nat) (v : list Z) :
  NoDup g -> Forall (fun k => k < length row) g -> length v = length g ->
  gather_row (scatter row g v) g = v.
Proof.
  unfold gather_row. revert row v.
  induction g as [|i g IH]; intros row [|x v] ND R L; simpl in *; try discriminate;
    [reflexivity|].
  inversion ND; subst. inversion R; subst. f_equal.
  - rewrite scatter_outside by assumption. now apply set_nth_same.
  - apply IH; auto.
    + rewrite set_nth_length. assumption.
Qed.

Lemma gather_row_length (row : list Z) (g : list nat) :
  length (gather_row row g) = length g.
Proof. unfold gather_row. apply length_map. Qed.

Lemma sorted_row_length (g : list nat) (row : list Z) :
  length (sorted_row g row) = length row.
Proof. unfold sorted_row. apply scatter_length. Qed.

Lemma sorted_row_outside (g : list nat) (row : list Z) (k : nat) :
  ~ In k g -> nth k (sorted_row g row) 0%Z = nth k row 0%Z.
Proof. intros H. unfold sorted_row. now apply scatter_outside. Qed.

Lemma gather_disjoint (g h : list nat) (row : list Z) :
  (forall k, In k h -> ~ In k g) ->
  gather_row (sorted_row g row) h = gather_row row h.
Proof.
  intros D. unfold gather_row. apply map_ext_in.
  intros k Hk. apply sorted_row_outside. now apply D.
Qed.

Lemma sort_row_ok (g : list nat) (row : list Z) :
  Forall (fun k => k < length row) g -> sort_row g row = Ok (sorted_row g row).
Proof.
  intros R. unfold sort_row. rewrite Forall_forall in R.
  rewrite (@index_many_ok _ row g 0%Z) by exact R. reflexivity.
Qed.

(** ** The loop over the permutation indices, on one row *)

Lemma normal_row_cons (g : list nat) (rest : list (list nat)) (row : list Z) :
  normal_row (g :: rest) row
  = normal_row rest (if 1 <? length g then sorted_row g row else row).
Proof. reflexivity. Qed.

Lemma normal_row_length (groups : list (list nat)) (row : list Z) :
  length (normal_row groups row) = length row.
Proof.
  revert row. induction groups as [|g rest IH]; intros row; [reflexivity|].
  rewrite normal_row_cons, IH. destruct (1 <? length g); [apply sorted_row_length|reflexivity].
Qed.

Lemma normal_row_outside (groups : list (list nat)) (row : list Z) (k : nat) :
  (forall g, In g groups -> 1 < length g -> ~ In k g) ->
  nth k (normal_row groups row) 0%Z = nth k row 0%Z.
Proof.
  revert row. induction groups as [|g rest IH]; intros row H; [reflexivity|].
  rewrite normal_row_cons, IH by (intros h Hh; apply H; now right).
  destruct (Nat.ltb_spec 1 (length g)) as [B|B]; [|reflexivity].
  apply sorted_row_outside. apply H; [now left|exact B].
Qed.

Lemma normal_row_gather_outside (groups : list (list nat)) (row : list Z)
  (h : list nat) :
  (forall g, In g groups -> forall k, In k h -> ~ In k g) ->
  gather_row (normal_row groups row) h = gather_row row h.
Proof.
  intros D. unfold gather_row. apply map_ext_in. intros k Hk.
  apply normal_row_outside. intros g Hg _. now apply D.
Qed.

Lemma same_up_to_nil (r r' : list Z) : same_up_to_groups [] r r' -> r = r'.
Proof.
  intros [L [O _]]. apply (nth_ext r r' 0%Z 0%Z L).
  intros k _. apply O. intros g [].
Qed.

Lemma normal_row_invariant (groups : list (list nat)) (r r' : list Z) :
  ForallOrdPairs (fun g h => forall k, In k g -> ~ In k h) groups ->
  same_up_to_groups groups r r' ->
  normal_row groups r = normal_row groups r'.
Proof.
  intros D. revert r r'. induction D as [|g rest Dg Drest IH]; intros r r' S.
  - simpl. now apply same_up_to_nil.
  - rewrite !normal_row_cons. apply IH. destruct S as [L [O P]].
    rewrite Forall_forall in Dg.
    destruct (Nat.ltb_spec 1 (length g)) as [B|B].
    + assert (E : np_sort (gather_row r g) = np_sort (gather_row r' g)).
      { apply np_sort_permutation_invariant. apply P; [now left|exact B]. }
      split; [now rewrite !sorted_row_length|]. split.
      * intros k Hk. unfold sorted_row. rewrite E.
        apply scatter_agree; [exact L| |].
        -- now rewrite np_sort_length, gather_row_length.
        -- destruct (in_dec Nat.eq_dec k g) as [I|N]; [now left|right].
           apply O. intros h [<-|Hh] Bh; [exact N|now apply Hk].
      * intros h Hh Bh.
        rewrite !gather_disjoint
          by (intros k Hk Hg; exact (Dg h Hh k Hg Hk)).
        apply P; [now right|exact Bh].
    + split; [exact L|]. split.
      * intros k Hk. apply O. intros h [<-|Hh] Bh; [lia|now apply Hk].
      * intros h Hh Bh. apply P; [now right|exact Bh].
Qed.

Lemma normal_row_sorted (groups : list (list nat)) (row : list Z) :
  ForallOrdPairs (fun g h => forall k, In k g -> ~ In k h) groups ->
  Forall (fun g => NoDup g) groups ->
  Forall (Forall (fun k => k < length row)) groups ->
  forall g, In g groups -> 1 < length g ->
            gather_row (normal_row groups row) g = np_sort (gather_row row g).
Proof.
  intros D. revert row.
  induction D as [|g0 rest Dg Drest IH]; intros row ND R g Hg B; [contradiction|].
  inversion ND as [|? ? ND0 NDrest]; subst. inversion R as [|? ? R0 Rrest]; subst.
  rewrite Forall_forall in Dg. rewrite normal_row_cons.
  destruct Hg as [<-|Hg].
  - apply Nat.ltb_lt in B. rewrite B.
    rewrite normal_row_gather_outside
      by (intros h Hh k Hk; now apply (Dg h Hh)).
    unfold sorted_row. apply gather_scatter; [exact ND0|exact R0|].
    now rewrite np_sort_length, gather_row_length.
  - assert (E : gather_row (if 1 <? length g0 then sorted_row g0 row else row) g
                = gather_row row g).
    { destruct (1 <? length g0); [|reflexivity].
      apply gather_disjoint. intros k Hk Hg0. exact (Dg g Hg k Hg0 Hk). }
    rewrite <- E. apply IH; auto.
    destruct (1 <? length g0); [|exact Rrest].
    now rewrite sorted_row_length.
Qed.

Lemma normal_row_sorted_from (groups : list (list nat)) (row : list Z) :
  ForallOrdPairs (fun g h => forall k, In k g -> ~ In k h) groups ->
  Forall (fun g => NoDup g) groups ->
  Forall (Forall (fun k => k < length row)) groups ->
  sorted_from groups row (normal_row groups row).
Proof.
  intros D ND R. split; [apply normal_row_length|]. split.
  - intros k Hk. now apply normal_row_outside.
  - intros g Hg B. rewrite (@normal_row_sorted groups row D ND R g Hg B).
    split; [apply np_sort_sorted|apply np_sort_perm].
Qed.

(** ** The loop over the permutation indices, on the arrays *)

Lemma sort_columns_ok (g : list nat) (a : array2 Z) :
  Forall (fun row => Forall (fun k => k < length row) g) a ->
  sort_columns g a = Ok (map (sorted_row g) a).
Proof.
  intros R. unfold sort_columns. apply mapR_ok.
  rewrite Forall_forall in R. intros row Hrow. now apply sort_row_ok, R.
Qed.

Lemma in_range_tail (g : list nat) (rest : list (list nat)) (a : array2 Z) :
  Forall (fun row => Forall (Forall (fun k => k < length row)) (g :: rest)) a ->
  Forall (fun row => Forall (fun k => k < length row) g) a
  /\ Forall (fun row => Forall (Forall (fun k => k < length row)) rest) a
  /\ Forall (fun row => Forall (Forall (fun k => k < length row)) rest)
            (map (sorted_row g) a).
Proof.
  intros R. rewrite !Forall_forall in *. repeat split.
  - intros row Hrow. specialize (R row Hrow). now inversion R.
  - intros row Hrow. specialize (R row Hrow). now inversion R.
  - intros row Hrow. apply in_map_iff in Hrow. destruct Hrow as [row0 [<- Hrow]].
    specialize (R row0 Hrow). inversion R; subst. now rewrite sorted_row_length.
Qed.

Lemma apply_permutation_indices_ok (groups : list (list nat)) (p t : array2 Z) :
  Forall (fun row => Forall (Forall (fun k => k < length row)) groups) p ->
  Forall (fun row => Forall (Forall (fun k => k < length row)) groups) t ->
  apply_permutation_indices p t groups
  = Ok (map (normal_row groups) p, map (normal_row groups) t).
Proof.
  revert p t. induction groups as [|g rest IH]; intros p t Rp Rt.
  - simpl. now rewrite !map_id.
  - destruct (in_range_tail Rp) as [Rp0 [Rp1 Rp2]].
    destruct (in_range_tail Rt) as [Rt0 [Rt1 Rt2]].
    simpl. destruct (1 <? length g) eqn:B.
    + rewrite (sort_columns_ok Rp0), (sort_columns_ok Rt0). simpl.
      rewrite IH by assumption. rewrite !map_map.
      f_equal. f_equal; apply map_ext; intros row;
        rewrite normal_row_cons, B; reflexivity.
    + rewrite IH by assumption.
      f_equal. f_equal; apply map_ext; intros row;
        rewrite normal_row_cons, B; reflexivity.
Qed.

(** ** The loop over the decoders *)

Lemma apply_permutation_groups_ok (decoders : list (list (list nat)))
  (targets preds : list (array2 Z)) :
  Forall2 decodable decoders preds ->
  Forall2 decodable decoders targets ->
  apply_permutation_groups targets preds decoders
  = Ok (normal_arrays decoders targets, normal_arrays decoders preds).
Proof.
  intros Hp. revert targets.
  induction Hp as [|groups p decoders preds Dp Hp IH]; intros targets Ht;
    inversion Ht as [|? t ? targets' Dt Ht']; subst.
  - reflexivity.
  - destruct Dp as [_ [_ Rp]]. destruct Dt as [_ [_ Rt]].
    simpl. rewrite (apply_permutation_indices_ok Rp Rt). simpl.
    rewrite (IH _ Ht'). reflexivity.
Qed.

Lemma same_rows_in_range (groups : list (list nat)) (a a' : array2 Z) :
  Forall2 (same_up_to_groups groups) a a' ->
  Forall (fun row => Forall (Forall (fun k => k < length row)) groups) a ->
  Forall (fun row => Forall (Forall (fun k => k < length row)) groups) a'.
Proof.
  induction 1 as [|r r' a a' [L _] _ IH]; intros R; [constructor|].
  inversion R; subst. constructor; [|now apply IH].
  now rewrite <- L.
Qed.

Lemma same_jets_decodable (decoders : list (list (list nat)))
  (l l' : list (array2 Z)) :
  per_target same_up_to_groups decoders l l' ->
  Forall2 decodable decoders l -> Forall2 decodable decoders l'.
Proof.
  induction 1 as [|groups decoders a a' l l' Ha _ IH]; intros D; [constructor|].
  inversion D as [|? ? ? ? [D1 [D2 D3]] D']; subst.
  constructor; [|now apply IH].
  repeat split; try assumption. now apply (same_rows_in_range Ha).
Qed.

Lemma same_jets_normal (decoders : list (list (list nat)))
  (l l' : list (array2 Z)) :
  per_target same_up_to_groups decoders l l' ->
  Forall2 decodable decoders l ->
  normal_arrays decoders l' = normal_arrays decoders l.
Proof.
  unfold normal_arrays.
  induction 1 as [|groups decoders a a' l l' Ha _ IH]; intros D; [reflexivity|].
  inversion D as [|? ? ? ? [D1 _] D']; subst.
  simpl. rewrite IH by assumption. f_equal.
  clear -Ha D1. induction Ha as [|r r' a a' S _ IH]; [reflexivity|].
  simpl. rewrite IH. f_equal. symmetry. now apply normal_row_invariant.
Qed.

Lemma normal_arrays_sorted (decoders : list (list (list nat))) (l : list (array2 Z)) :
  Forall2 decodable decoders l ->
  per_target sorted_from decoders l (normal_arrays decoders l).
Proof.
  unfold normal_arrays.
  induction 1 as [|groups a decoders l [D1 [D2 D3]] _ IH]; simpl; constructor;
    [|exact IH].
  clear -D1 D2 D3. induction D3 as [|row a R _ IH]; simpl; constructor; [|exact IH].
  now apply normal_row_sorted_from.
Qed.

(** ** The exceptions of the tensor operations *)
















(** ** Logging computations *)

Lemma framed_ret {A} (a : A) : framed (ret a).
Proof. intros tr. unfold ret, run. simpl. now rewrite app_nil_r. Qed.

Lemma framed_raise {A} (e : exn) : framed (@raise A e).
Proof. intros tr. unfold raise, run. simpl. now rewrite app_nil_r. Qed.

Lemma framed_lift {A} (r : result A) : framed (lift r).
Proof. intros tr. unfold lift, run. simpl. now rewrite app_nil_r. Qed.

Lemma framed_log (name : string) (value : float) : framed (log name value).
Proof. intros tr. reflexivity. Qed.

Lemma framed_add_histogram (name : string) (values : list float) (step : nat) :
  framed (add_histogram name values step).
Proof. intros tr. reflexivity. Qed.

Lemma framed_bind {A B} (m : M A) (k : A -> M B) :
  framed m -> (forall a, framed (k a)) -> framed (bind m k).
Proof.
  intros Hm Hk tr. unfold bind, run. rewrite (Hm tr).
  destruct (run m) as [[a|e] tr1] eqn:E; unfold run in E; rewrite E; simpl.
  - rewrite (Hk a (tr ++ tr1)), (Hk a tr1). simpl. now rewrite app_assoc.
  - reflexivity.
Qed.

Lemma framed_when (c : bool) (body : M unit) : framed body -> framed (when c body).
Proof. intros H. destruct c; [exact H|apply framed_ret]. Qed.

Lemma framed_for_each {A} (xs : list A) (body : A -> M unit) :
  (forall x, framed (body x)) -> framed (for_each xs body).
Proof.
  intros H. induction xs as [|x xs IH]; simpl; [apply framed_ret|].
  apply framed_bind; [apply H|intros _; exact IH].
Qed.

Create HintDb framed.
#[local] Hint Resolve framed_ret framed_raise framed_lift framed_log
  framed_add_histogram framed_when : framed.

Ltac framed :=
  repeat first
    [ apply framed_bind; [|intro]
    | apply framed_for_each; intro
    | solve [auto with framed]
    | match goal with
      | |- framed (let '(_, _) := ?p in _) => destruct p
      end ].

Lemma bind_log {B} (name : string) (value : float) (k : unit -> M B)
  (tr : list log_entry) :
  bind (log name value) k tr = k tt (tr ++ [LogScalar name value]).
Proof. reflexivity. Qed.

Lemma bind_ret {A B} (a : A) (k : A -> M B) (tr : list log_entry) :
  bind (ret a) k tr = k a tr.
Proof. reflexivity. Qed.

Lemma bind_lift_ok {A B} (a : A) (k : A -> M B) (tr : list log_entry) :
  bind (lift (Ok a)) k tr = k a tr.
Proof. reflexivity. Qed.


Lemma for_each_log {A} (xs : list A) (name : A -> string) (value : A -> float)
  (tr : list log_entry) :
  for_each xs (fun x => log (name x) (value x)) tr
  = (Ok tt, tr ++ map (fun x => LogScalar (name x) (value x)) xs).
Proof.
  revert tr. induction xs as [|x xs IH]; intros tr; simpl.
  - unfold ret. now rewrite app_nil_r.
  - rewrite bind_log, IH. now rewrite <- app_assoc.
Qed.

Lemma log_metrics_trace (metrics : Dict.dict float) (tr : list log_entry) :
  log_metrics metrics tr = (Ok tt, tr ++ metric_entries metrics).
Proof.
  unfold log_metrics, metric_entries, Dict.items.
  revert tr. induction metrics as [|[name value] metrics IH]; intros tr; simpl.
  - unfold ret. now rewrite app_nil_r.
  - destruct (isnan value); simpl.
    + rewrite bind_ret. apply IH.
    + rewrite bind_log, IH. now rewrite <- app_assoc.
Qed.

(** ** Lists of results and positions *)

Lemma mapR_inv {A B} (f : A -> result B) (l : list A) (l' : list B) :
  mapR f l = Ok l' -> Forall2 (fun x y => f x = Ok y) l l'.
Proof.
  revert l'. induction l as [|x l IH]; intros l' H; simpl in H.
  - injection H as <-. constructor.
  - destruct (f x) as [y|e] eqn:E; simpl in H; [|discriminate].
    destruct (mapR f l) as [ys|e]; simpl in H; [|discriminate].
    injection H as <-. constructor; [exact E|now apply IH].
Qed.

Lemma Forall2_nth_error {A B} (R : A -> B -> Prop) (l : list A) (l' : list B)
  (t : nat) (x : A) :
  Forall2 R l l' -> nth_error l t = Some x ->
  exists y, nth_error l' t = Some y /\ R x y.
Proof.
  intros F. revert t. induction F as [|a b l l' Hab _ IH]; intros [|t] H;
    simpl in *; try discriminate.
  - injection H as <-. now exists b.
  - now apply IH.
Qed.

Lemma nth_error_combine {A B} (l : list A) (l' : list B) (t : nat) (x : A) (y : B) :
  nth_error l t = Some x -> nth_error l' t = Some y ->
  nth_error (combine l l') t = Some (x, y).
Proof.
  revert l' t. induction l as [|a l IH]; intros [|b l'] [|t] Hx Hy;
    simpl in *; try discriminate.
  - now injection Hx as <-; injection Hy as <-.
  - now apply IH.
Qed.

Lemma ibroadcast2_length {A B} (e : exn) (f : A -> B -> A) (xs zs : list A)
  (ys : list B) :
  ibroadcast2 e f xs ys = Ok zs -> length zs = length xs.
Proof.
  unfold ibroadcast2. destruct (Nat.eqb_spec (length xs) (length ys)) as [L|L].
  - intros H. injection H as <-. rewrite length_map, length_combine. lia.
  - destruct ys as [|y [|y' ys]]; try discriminate.
    intros H. injection H as <-. apply length_map.
Qed.

(** Two tensors of one shape. *)
Lemma imul_events_shape (weights weights' : tensor3) (v : list float) :
  imul_events weights v = Ok weights' ->
  Forall2 (fun w w' => length (fst w') = length (fst w)
                       /\ length (snd w') = length (snd w)) weights weights'.
Proof.
  intros H. apply mapR_inv in H. induction H as [|w w' l l' Hw _ IH]; constructor;
    [|exact IH].
  destruct (ibroadcast2 shape_error mul32 (fst w) v) as [a|e] eqn:Ea;
    simpl in Hw; [|discriminate].
  destruct (ibroadcast2 shape_error mul32 (snd w) v) as [d|e] eqn:Ed;
    simpl in Hw; [|discriminate].
  injection Hw as <-. simpl.
  split; eapply ibroadcast2_length; eassumption.
Qed.

Lemma ones_like_shape (t : tensor3) :
  Forall2 (fun s w => length (fst w) = length (fst s)
                      /\ length (snd w) = length (snd s)) t (ones_like t).
Proof.
  unfold ones_like. induction t as [|s t IH]; simpl; constructor; [|exact IH].
  simpl. now rewrite !length_map.
Qed.

Lemma ones_like_ones (t : tensor3) :
  Forall (fun w => Forall (eq one) (fst w) /\ Forall (eq one) (snd w)) (ones_like t).
Proof.
  unfold ones_like. apply Forall_forall. intros w Hw.
  apply in_map_iff in Hw. destruct Hw as [s [<- _]]. simpl.
  split; apply Forall_forall; intros x Hx; apply in_map_iff in Hx;
    destruct Hx as [? [<- _]]; reflexivity.
Qed.

Lemma shape_trans (a b c : tensor3) :
  Forall2 (fun s w => length (fst w) = length (fst s)
                      /\ length (snd w) = length (snd s)) a b ->
  Forall2 (fun s w => length (fst w) = length (fst s)
                      /\ length (snd w) = length (snd s)) b c ->
  Forall2 (fun s w => length (fst w) = length (fst s)
                      /\ length (snd w) = length (snd s)) a c.
Proof.
  intros H. revert c. induction H as [|x y a b [H1 H2] _ IH]; intros c Hc;
    inversion Hc as [|? z ? c' [H3 H4] Hc']; subst; constructor.
  - split; congruence.
  - now apply IH.
Qed.

(** ** The validation loss *)

Section LossProperties.

Variables Sources Assignments Detections Regressions Classifications : Type.
Variables tsum tmean : list float -> float.
Variable symmetric_losses :
  Assignments -> Detections -> list AssignmentTarget -> tensor3 * list nat.
Variable add_kl_loss :
  list (list float) -> Assignments -> array2 bool -> tensor3 -> list (list float).
Variable add_regression_loss :
  list (list float) -> Regressions -> Dict.dict (list float) -> list (list float).
Variable add_classification_loss :
  list (list float) -> Classifications -> Dict.dict (list Z) -> list (list float).
Variable self : Network.

Local Abbreviation outputs_t :=
  (Outputs Assignments Detections Regressions Classifications).
Local Abbreviation losses :=
  (compute_validation_losses tsum tmean symmetric_losses add_kl_loss
     add_regression_loss add_classification_loss self).
Local Abbreviation aggregate := (aggregate_losses tsum symmetric_losses self).
Local Abbreviation collect :=
  (collect_losses add_kl_loss add_regression_loss add_classification_loss self).

Lemma compute_validation_losses_closed (outputs : outputs_t)
  (batch : Batch Sources) (tr : list log_entry) :
  losses outputs batch tr
  = match aggregate outputs batch with
    | Raise e => (Raise e, tr)
    | Ok (weights, masks, assignment_loss, detection_loss) =>
        let tr1 := tr ++ loss_entries "/assignment_loss" (assignment_names self)
                           assignment_loss
                      ++ loss_entries "/detection_loss" (assignment_names self)
                           detection_loss in
        if existsb isnan assignment_loss
        then (Raise (ValueError "Assignment loss has diverged!"), tr1)
        else if existsb isinf assignment_loss
        then (Raise (ValueError "Assignment targets contain a collision."), tr1)
        else match cat (collect outputs batch weights masks
                          assignment_loss detection_loss) with
             | Ok total =>
                 (Ok (tmean total),
                  tr1 ++ [LogScalar "validation_loss/total_loss" (tsum total)])
             | Raise e => (Raise e, tr1)
             end
    end.
Proof.
  unfold compute_validation_losses.
  destruct (aggregate_losses tsum symmetric_losses self outputs batch)
    as [[[[weights masks] al] dl]|e]; [|reflexivity].
  rewrite bind_lift_ok.
  unfold bind at 1. rewrite for_each_log.
  unfold bind at 1. rewrite for_each_log.
  unfold loss_entries. rewrite <- app_assoc.
  destruct (existsb isnan al); [reflexivity|].
  destruct (existsb isinf al); [reflexivity|].
  simpl when. rewrite !bind_ret.
  destruct (cat _) as [total|e]; reflexivity.
Qed.






Lemma loss_weights_shape (symmetric weights : tensor3) (masks : array2 bool)
  (batch : Batch Sources) :
  loss_weights self symmetric masks batch = Ok weights ->
  Forall2 (fun s w => length (fst w) = length (fst s)
                      /\ length (snd w) = length (snd s)) symmetric weights.
Proof.
  unfold loss_weights. intros H.
  destruct (if balance_particles self then _ else _) as [w1|e] eqn:E1;
    simpl in H; [|discriminate].
  assert (S1 : Forall2 (fun s w => length (fst w) = length (fst s)
                                   /\ length (snd w) = length (snd s))
                       symmetric w1).
  { destruct (balance_particles self).
    - destruct (class_indices_of _ _) as [ci|e]; simpl in E1; [|discriminate].
      destruct (index_many _ ci) as [w|e]; simpl in E1; [|discriminate].
      eapply shape_trans; [apply ones_like_shape|].
      now apply imul_events_shape with (v := w).
    - injection E1 as <-. apply ones_like_shape. }
  destruct (balance_jets self).
  - destruct (index_many _ _) as [w|e]; simpl in H; [|discriminate].
    eapply shape_trans; [exact S1|]. now apply imul_events_shape with (v := w).
  - now injection H as <-.
Qed.

Lemma loss_weights_unbalanced (symmetric : tensor3) (masks : array2 bool)
  (batch : Batch Sources) :
  balance_particles self = false -> balance_jets self = false ->
  loss_weights self symmetric masks batch = Ok (ones_like symmetric).
Proof. intros Hp Hj. unfold loss_weights. now rewrite Hp, Hj. Qed.

Lemma loss_masks_length (best : list nat) (batch : Batch Sources)
  (masks : array2 bool) :
  loss_masks self best batch = Ok masks ->
  length masks = ncols (event_permutation_tensor self).
Proof.
  unfold loss_masks. intros H.
  destruct (index_many _ best) as [chosen|e]; simpl in H; [|discriminate].
  destruct (stack _) as [stacked|e]; simpl in H; [|discriminate].
  apply mapR_inv, Forall2_length in H. rewrite <- H.
  unfold transpose. now rewrite length_map, length_seq.
Qed.

(** C3.  For every target the aggregated loss of [compute_validation_losses]
    is the sum over the events of the elementwise products of the event
    weights and the symmetric losses, divided by the number of events whose
    permuted mask is set, this number being clamped below at one; the
    assignment term and the detection term are aggregated alike.  When
    neither [balance_particles] nor [balance_jets] is enabled every event
    weight is one. *)
Theorem weighted_average_of_losses :
  forall (outputs : outputs_t) (batch : Batch Sources)
         (symmetric weights : tensor3) (best_indices : list nat)
         (masks : array2 bool),
    symmetric_losses (assignments outputs) (detections outputs)
                     (assignment_targets batch) = (symmetric, best_indices) ->
    loss_masks self best_indices batch = Ok masks ->
    loss_weights self symmetric masks batch = Ok weights ->
    ncols (event_permutation_tensor self) = length symmetric ->
    exists assignment_loss detection_loss,
      aggregate outputs batch
      = Ok (weights, masks, assignment_loss, detection_loss)
      /\ (forall t s m,
             nth_error symmetric t = Some s ->
             nth_error masks t = Some m ->
             exists w,
               nth_error weights t = Some w
               /\ length (fst w) = length (fst s)
               /\ length (snd w) = length (snd s)
               /\ nth_error assignment_loss t
                  = Some (weighted_term tsum (fst w) (fst s) m)
               /\ nth_error detection_loss t
                  = Some (weighted_term tsum (snd w) (snd s) m))
      /\ (balance_particles self = false -> balance_jets self = false ->
          weights = ones_like symmetric
          /\ Forall (fun w => Forall (eq one) (fst w) /\ Forall (eq one) (snd w))
                    weights).
Proof.
  intros outputs batch symmetric weights best masks Hs Hm Hw Hn.
  pose proof (loss_weights_shape _ _ _ Hw) as Sh.
  pose proof (Forall2_length Sh) as Lw.
  pose proof (loss_masks_length _ _ Hm) as Lm. rewrite Hn in Lm.
  unfold aggregate_losses. rewrite Hs, Hm. cbn [rbind]. rewrite Hw. cbn [rbind].
  unfold weighted_average, broadcast2.
  rewrite !length_map, length_combine, <- Lw, Nat.min_id, <- Lm, Nat.eqb_refl.
  cbn [rbind]. eexists _, _. split; [reflexivity|].
  set (term := fun ws : (list float * list float) * (list float * list float) =>
                 (tsum (map (fun ws => mul32 (fst ws) (snd ws))
                            (combine (fst (fst ws)) (fst (snd ws)))),
                  tsum (map (fun ws => mul32 (fst ws) (snd ws))
                            (combine (snd (fst ws)) (snd (snd ws)))))).
  assert (Sums : forall t w s,
             nth_error weights t = Some w -> nth_error symmetric t = Some s ->
             nth_error (map term (combine weights symmetric)) t
             = Some (term (w, s))).
  { intros t w s Hwt Ht.
    now rewrite nth_error_map, (@nth_error_combine _ _ _ _ _ _ _ Hwt Ht). }
  assert (Counts : forall t m,
             nth_error masks t = Some m ->
             nth_error (map (fun row => clamp_min_1 (count_true row)) masks) t
             = Some (clamp_min_1 (count_true m))).
  { intros t m Hmt. now rewrite nth_error_map, Hmt. }
  split.
  - intros t s m Ht Hmt.
    destruct (Forall2_nth_error t Sh Ht) as [w [Hwt [L1 L2]]].
    exists w. repeat split; try assumption.
    + rewrite !nth_error_map.
      rewrite (@nth_error_combine _ _ _ _ _ _ _ (Sums t w s Hwt Ht) (Counts t m Hmt)).
      reflexivity.
    + rewrite !nth_error_map.
      rewrite (@nth_error_combine _ _ _ _ _ _ _ (Sums t w s Hwt Ht) (Counts t m Hmt)).
      reflexivity.
  - intros Hp Hj. rewrite (loss_weights_unbalanced _ _ _ Hp Hj) in Hw.
    injection Hw as <-. split; [reflexivity|apply ones_like_ones].
Qed.

(** C6.  When the two checks pass, the value returned by
    [compute_validation_losses] is the mean of the concatenation of exactly
    the loss components whose scale is positive: the assignment loss iff
    [assignment_loss_scale > 0], the detection loss iff
    [detection_loss_scale > 0], and the terms that the inherited methods
    append for the KL, regression and classification losses iff their scales
    are positive, in this order.  With no component selected there is
    nothing to concatenate and [torch.cat] fails. *)
Theorem total_loss_is_mean_of_selected_components :
  forall (outputs : outputs_t) (batch : Batch Sources)
         (weights : tensor3) (masks : array2 bool)
         (assignment_loss detection_loss : list float)
         (kl_terms : Assignments -> array2 bool -> tensor3 -> list (list float))
         (regression_terms :
            Regressions -> Dict.dict (list float) -> list (list float))
         (classification_terms :
            Classifications -> Dict.dict (list Z) -> list (list float)),
    (forall total a m w, add_kl_loss total a m w = total ++ kl_terms a m w) ->
    (forall total r t,
        add_regression_loss total r t = total ++ regression_terms r t) ->
    (forall total c t,
        add_classification_loss total c t = total ++ classification_terms c t) ->
    aggregate outputs batch = Ok (weights, masks, assignment_loss, detection_loss) ->
    existsb isnan assignment_loss = false ->
    existsb isinf assignment_loss = false ->
    let components :=
      selected (assignment_loss_scale (options self)) [assignment_loss]
      ++ selected (detection_loss_scale (options self)) [detection_loss]
      ++ selected (kl_loss_scale (options self))
           (kl_terms (assignments outputs) masks weights)
      ++ selected (regression_loss_scale (options self))
           (regression_terms (regressions outputs) (regression_targets batch))
      ++ selected (classification_loss_scale (options self))
           (classification_terms (classifications outputs)
              (classification_targets batch)) in
    (components <> [] ->
     fst (run (losses outputs batch)) = Ok (tmean (concat components)))
    /\ (components = [] ->
        exists msg, fst (run (losses outputs batch)) = Raise (RuntimeError msg)).
Proof.
  intros outputs batch weights masks al dl kl reg cls Hkl Hreg Hcls Hagg Hnan Hinf
         components.
  assert (C : collect outputs batch weights masks al dl = components).
  { unfold collect_losses, components, selected.
    rewrite Hkl, Hreg, Hcls.
    destruct (gtb (assignment_loss_scale (options self)) zero),
             (gtb (detection_loss_scale (options self)) zero),
             (gtb (kl_loss_scale (options self)) zero),
             (gtb (regression_loss_scale (options self)) zero),
             (gtb (classification_loss_scale (options self)) zero);
      cbn [app]; rewrite ?app_nil_r, <- ?app_assoc; reflexivity. }
  unfold run. rewrite compute_validation_losses_closed, Hagg. cbv zeta.
  rewrite Hnan, Hinf, C. unfold cat. split.
  - intros NE. destruct components; [congruence|reflexivity].
  - intros ->. eexists. reflexivity.
Qed.

End LossProperties.

(** ** The log of [validation_step] *)

Lemma bind_framed {A B} (m : M A) (k : A -> M B) (tr : list log_entry) :
  framed m ->
  bind m k tr = match fst (run m) with
                | Ok a => k a (tr ++ snd (run m))
                | Raise e => (Raise e, tr ++ snd (run m))
                end.
Proof.
  intros F. unfold bind. rewrite (F tr). destruct (fst (run m)); reflexivity.
Qed.

Lemma framed_log_regressions (np_mean : list float -> float) (self : Network)
  (regressions targets : Dict.dict (list float)) :
  framed (log_regressions np_mean self regressions targets).
Proof. unfold log_regressions. framed. Qed.

Lemma framed_log_classifications (classifications targets : Dict.dict (list Z)) :
  framed (log_classifications classifications targets).
Proof. unfold log_classifications. framed. Qed.

Lemma metric_entries_not_nan (metrics : Dict.dict float) :
  Forall (fun e => match e with
                   | LogScalar _ value => isnan value = false
                   | LogHistogram _ _ _ => False
                   end) (metric_entries metrics).
Proof.
  unfold metric_entries. apply Forall_forall. intros e He.
  apply in_map_iff in He. destruct He as [[name value] [<- H]].
  apply filter_In in H. destruct H as [_ H]. simpl in *.
  now apply negb_true_iff in H.
Qed.

Lemma metric_entries_complete (metrics : Dict.dict float) (name : string)
  (value : float) :
  In (LogScalar name value) (metric_entries metrics)
  <-> In (name, value) (Dict.items metrics) /\ isnan value = false.
Proof.
  unfold metric_entries. rewrite in_map_iff. split.
  - intros [[n v] [E H]]. injection E as -> ->. apply filter_In in H.
    destruct H as [H N]. simpl in N. apply negb_true_iff in N. now split.
  - intros [H N]. exists (name, value). split; [reflexivity|].
    apply filter_In. split; [exact H|]. simpl. now rewrite N.
Qed.

Section StepProperties.

Variables Sources Assignments Detections Regressions Classifications : Type.
Variables accuracy_score recall_score f1_score : list bool -> list bool -> float.
Variables tsum tmean np_mean : list float -> float.
Variable symmetric_losses :
  Assignments -> Detections -> list AssignmentTarget -> tensor3 * list nat.
Variable add_kl_loss :
  list (list float) -> Assignments -> array2 bool -> tensor3 -> list (list float).
Variable add_regression_loss :
  list (list float) -> Regressions -> Dict.dict (list float) -> list (list float).
Variable add_classification_loss :
  list (list float) -> Classifications -> Dict.dict (list Z) -> list (list float).
Variable predict :
  Sources -> Predictions * Outputs Assignments Detections Regressions Classifications.
Variable full_report_string :
  list (array2 Z) -> list (array2 Z) -> array2 bool -> Dict.dict float.
Variable batch_on_cpu : bool.
Variable self : Network.

Local Abbreviation losses :=
  (compute_validation_losses tsum tmean symmetric_losses add_kl_loss
     add_regression_loss add_classification_loss self).
Local Abbreviation step :=
  (validation_step accuracy_score recall_score f1_score tsum tmean np_mean
     symmetric_losses add_kl_loss add_regression_loss add_classification_loss
     predict full_report_string batch_on_cpu self).

Lemma framed_losses
  (outputs : Outputs Assignments Detections Regressions Classifications)
  (batch : Batch Sources) :
  framed (losses outputs batch).
Proof.
  intros tr. unfold run. rewrite !compute_validation_losses_closed.
  destruct (aggregate_losses _ _ _ _ _) as [[[[weights masks] al] dl]|e];
    [|simpl; now rewrite app_nil_r].
  cbv zeta. cbn [app].
  destruct (existsb isnan al); [reflexivity|].
  destruct (existsb isinf al); [reflexivity|].
  destruct (cat _); simpl; [|reflexivity].
  now rewrite <- !app_assoc.
Qed.

(** C10.  [validation_step] logs an entry of the metrics dictionary only if
    its value is not NaN: when the step returns, its log is the log of the
    regression and classification loops, then one entry for every metric
    whose value is not NaN and none for the others, in the order of the
    dictionary, then the log of [compute_validation_losses].  The returned
    dictionary is the whole dictionary, the report of the evaluator updated
    with the result of [compute_metrics], with its NaN entries. *)
Theorem nan_metrics_are_not_logged :
  forall (batch : Batch Sources) (batch_idx : nat)
         (trace0 trace : list log_entry) (metrics : Dict.dict float),
    step batch batch_idx trace0 = (Ok metrics, trace) ->
    exists stacked_masks sorted_targets sorted_predictions computed,
      let predictions := fst (predict (sources batch)) in
      let outputs := snd (predict (sources batch)) in
      let stacked_targets := map indices (assignment_targets batch) in
      mapR (fun t => assign_mask (length (num_vectors batch)) (mask t))
           (assignment_targets batch) = Ok stacked_masks
      /\ apply_permutation_groups stacked_targets (jet_predictions predictions)
           (branch_decoders self) = Ok (sorted_targets, sorted_predictions)
      /\ compute_metrics accuracy_score recall_score f1_score
           (event_permutation_tensor self) sorted_predictions
           (particle_scores predictions) sorted_targets stacked_masks
         = Ok computed
      /\ metrics
         = Dict.update
             (full_report_string (jet_predictions predictions) stacked_targets
                stacked_masks)
             (Dict.items computed)
      /\ trace
         = trace0
           ++ snd (run (log_regressions np_mean self
                          (predicted_regressions predictions)
                          (regression_targets batch)))
           ++ snd (run (log_classifications
                          (predicted_classifications predictions)
                          (classification_targets batch)))
           ++ metric_entries metrics
           ++ snd (run (losses outputs
                          (batch_after_sorting batch_on_cpu batch sorted_targets)))
      /\ (forall name value,
            In (LogScalar name value) (metric_entries metrics)
            <-> In (name, value) (Dict.items metrics) /\ isnan value = false).
Proof.
  intros batch batch_idx trace0 trace metrics H.
  unfold validation_step in H.
  destruct (predict (sources batch)) as [predictions outputs] eqn:P.
  cbn [fst snd].
  destruct (mapR _ (assignment_targets batch)) as [stacked_masks|e] eqn:E1;
    [|discriminate H].
  rewrite bind_lift_ok in H.
  destruct (apply_permutation_groups _ _ _) as [[sorted_t sorted_p]|e] eqn:E2;
    [|discriminate H].
  rewrite bind_lift_ok in H.
  destruct (compute_metrics _ _ _ _ _ _ _ _) as [computed|e] eqn:E3;
    [|discriminate H].
  rewrite bind_lift_ok in H.
  rewrite (bind_framed _ _ (framed_log_regressions _ _ _ _)) in H.
  destruct (fst (run (log_regressions _ _ _ _))) as [[]|e]; [|discriminate H].
  rewrite (bind_framed _ _ (framed_log_classifications _ _)) in H.
  destruct (fst (run (log_classifications _ _))) as [[]|e]; [|discriminate H].
  unfold bind at 1 in H. rewrite log_metrics_trace in H.
  rewrite (bind_framed _ _ (framed_losses _ _)) in H.
  destruct (fst (run (losses _ _))) as [loss|e]; [|discriminate H].
  unfold ret in H. injection H as <- <-.
  exists stacked_masks, sorted_t, sorted_p, computed.
  split; [reflexivity|]. split; [reflexivity|]. split; [exact E3|].
  split; [reflexivity|]. split; [now rewrite <- !app_assoc|].
  intros name value. apply metric_entries_complete.
Qed.

End StepProperties.

(* ===================================================================== *)
(** * The properties on the small event *)
(* ===================================================================== *)


Lemma accuracy_entries_witness :
  well_shaped Example.ept Example.preds Example.scores Example.targets Example.masks
  = true
  /\ 1 <= length Example.masks
  /\ exists metrics jet_accuracies particle_accuracies permuted_masks,
      let num_particles := sum_axis0 (ncols Example.masks) Example.masks in
      let predictions := ravel (threshold_scores Example.scores) in
      best_permutation_accuracies Example.ept Example.preds
        (threshold_scores Example.scores) Example.targets Example.masks
      = Ok (jet_accuracies, particle_accuracies, permuted_masks, num_particles)
      /\ compute_metrics Example.agreement Example.agreement Example.agreement
           Example.ept Example.preds Example.scores Example.targets Example.masks
         = Ok metrics
      /\ (forall i j, 1 <= i -> i <= j -> j <= length Example.masks ->
            Dict.get (accuracy_key "jet" i j) metrics
            = Some (events_fraction jet_accuracies num_particles i j)
            /\ Dict.get (accuracy_key "particle" i j) metrics
               = Some (events_fraction particle_accuracies num_particles i j))
      /\ Dict.get "particle/accuracy" metrics
         = Some (Example.agreement (ravel permuted_masks) predictions)
      /\ Dict.get "particle/sensitivity" metrics
         = Some (Example.agreement (ravel permuted_masks) predictions)
      /\ Dict.get "particle/specificity" metrics
         = Some (Example.agreement (map negb (ravel permuted_masks))
                                   (map negb predictions))
      /\ Dict.get "particle/f_score" metrics
         = Some (Example.agreement (ravel permuted_masks) predictions).
Proof.
  split; [reflexivity|]. split; [simpl; lia|].
  apply (accuracy_entries Example.agreement Example.agreement Example.agreement
           Example.ept Example.preds Example.scores Example.targets Example.masks).
  - reflexivity.
  - simpl. lia.
Defined.

Lemma validation_accuracy_entry_witness :
  well_shaped Example.ept Example.preds Example.scores Example.targets Example.masks
  = true
  /\ 1 <= length Example.masks
  /\ exists metrics jet_accuracies particle_accuracies permuted_masks,
      let n := length Example.masks in
      let num_particles := sum_axis0 (ncols Example.masks) Example.masks in
      best_permutation_accuracies Example.ept Example.preds
        (threshold_scores Example.scores) Example.targets Example.masks
      = Ok (jet_accuracies, particle_accuracies, permuted_masks, num_particles)
      /\ compute_metrics Example.agreement Example.agreement Example.agreement
           Example.ept Example.preds Example.scores Example.targets Example.masks
         = Ok metrics
      /\ Dict.get "validation_accuracy" metrics
         = Dict.get (accuracy_key "jet" n n) metrics
      /\ Dict.get "validation_accuracy" metrics
         = Some (events_fraction jet_accuracies num_particles n n).
Proof.
  split; [reflexivity|]. split; [simpl; lia|].
  apply (validation_accuracy_entry Example.agreement Example.agreement
           Example.agreement Example.ept Example.preds Example.scores
           Example.targets Example.masks).
  - reflexivity.
  - simpl. lia.
Defined.


Lemma example_decodable (a : array2 Z) :
  Forall (fun row => length row = 2) a -> decodable [[0; 1]] a.
Proof.
  intros H. repeat split.
  - repeat constructor.
  - repeat constructor; simpl; intuition discriminate.
  - apply Forall_forall. intros row Hrow.
    rewrite Forall_forall in H. rewrite (H row Hrow).
    repeat constructor.
Qed.



Lemma example_preds_decodable : Forall2 decodable Example.decoders Example.preds.
Proof.
  constructor; [apply example_decodable; repeat constructor|].
  constructor; [apply example_decodable; repeat constructor|constructor].
Qed.

Lemma example_targets_decodable : Forall2 decodable Example.decoders Example.targets.
Proof.
  constructor; [apply example_decodable; repeat constructor|].
  constructor; [apply example_decodable; repeat constructor|constructor].
Qed.



Lemma weighted_average_of_losses_witness :
  Example.symmetric_losses (assignments Example.outputs)
    (detections Example.outputs) (assignment_targets Example.batch)
  = (Example.symmetric, [0; 1])
  /\ loss_masks Example.network [0; 1] Example.batch = Ok Example.masks
  /\ loss_weights Example.network Example.symmetric Example.masks Example.batch
     = Ok (ones_like Example.symmetric)
  /\ ncols (event_permutation_tensor Example.network) = length Example.symmetric
  /\ exists assignment_loss detection_loss,
      aggregate_losses Example.sum32 Example.symmetric_losses Example.network
        Example.outputs Example.batch
      = Ok (ones_like Example.symmetric, Example.masks,
            assignment_loss, detection_loss)
      /\ (forall t s m,
             nth_error Example.symmetric t = Some s ->
             nth_error Example.masks t = Some m ->
             exists w,
               nth_error (ones_like Example.symmetric) t = Some w
               /\ length (fst w) = length (fst s)
               /\ length (snd w) = length (snd s)
               /\ nth_error assignment_loss t
                  = Some (weighted_term Example.sum32 (fst w) (fst s) m)
               /\ nth_error detection_loss t
                  = Some (weighted_term Example.sum32 (snd w) (snd s) m))
      /\ (balance_particles Example.network = false ->
          balance_jets Example.network = false ->
          ones_like Example.symmetric = ones_like Example.symmetric
          /\ Forall (fun w => Forall (eq one) (fst w) /\ Forall (eq one) (snd w))
                    (ones_like Example.symmetric)).
Proof.
  split; [reflexivity|]. split; [reflexivity|]. split; [reflexivity|].
  split; [reflexivity|].
  apply (@weighted_average_of_losses unit tensor3 (list nat) unit unit
           Example.sum32 Example.symmetric_losses Example.network
           Example.outputs Example.batch Example.symmetric
           (ones_like Example.symmetric) [0; 1] Example.masks);
    reflexivity.
Defined.

Lemma total_loss_is_mean_of_selected_components_witness :
  aggregate_losses Example.sum32 Example.symmetric_losses Example.network
    Example.outputs Example.batch
  = Ok (ones_like Example.symmetric, Example.masks,
        Example.assignment_loss, Example.detection_loss)
  /\ existsb isnan Example.assignment_loss = false
  /\ existsb isinf Example.assignment_loss = false
  /\ fst (run (Example.losses Example.outputs Example.batch))
     = Ok (Example.mean32
             (concat (selected one [Example.assignment_loss]
                      ++ selected zero [Example.detection_loss]
                      ++ selected half [[half]]
                      ++ selected one [[one]; [zero]]
                      ++ selected one []))).
Proof.
  split; [reflexivity|]. split; [reflexivity|]. split; [reflexivity|].
  refine (proj1 (@total_loss_is_mean_of_selected_components
                   unit tensor3 (list nat) unit unit
                   Example.sum32 Example.mean32 Example.symmetric_losses
                   Example.add_kl_loss Example.add_regression_loss
                   Example.add_classification_loss Example.network
                   Example.outputs Example.batch
                   (ones_like Example.symmetric) Example.masks
                   Example.assignment_loss Example.detection_loss
                   Example.kl_terms Example.regression_terms
                   Example.classification_terms
                   (fun _ _ _ _ => eq_refl) (fun _ _ _ => eq_refl)
                   (fun _ _ _ => eq_refl) eq_refl eq_refl eq_refl) _).
  discriminate.
Defined.

Lemma nan_metrics_are_not_logged_witness :
  Example.step Example.batch 0 []
  = (Ok Example.returned_metrics, snd Example.returned)
  /\ exists stacked_masks sorted_targets sorted_predictions computed,
      let predictions := fst (Example.predict (sources Example.batch)) in
      let outputs := snd (Example.predict (sources Example.batch)) in
      let stacked_targets := map indices (assignment_targets Example.batch) in
      mapR (fun t => assign_mask (length (num_vectors Example.batch)) (mask t))
           (assignment_targets Example.batch) = Ok stacked_masks
      /\ apply_permutation_groups stacked_targets (jet_predictions predictions)
           (branch_decoders Example.network) = Ok (sorted_targets, sorted_predictions)
      /\ compute_metrics Example.agreement Example.agreement Example.agreement
           (event_permutation_tensor Example.network) sorted_predictions
           (particle_scores predictions) sorted_targets stacked_masks
         = Ok computed
      /\ Example.returned_metrics
         = Dict.update
             (Example.full_report_string (jet_predictions predictions)
                stacked_targets stacked_masks)
             (Dict.items computed)
      /\ snd Example.returned
         = []
           ++ snd (run (log_regressions Example.mean32 Example.network
                          (predicted_regressions predictions)
                          (regression_targets Example.batch)))
           ++ snd (run (log_classifications
                          (predicted_classifications predictions)
                          (classification_targets Example.batch)))
           ++ metric_entries Example.returned_metrics
           ++ snd (run (Example.losses outputs
                          (batch_after_sorting true Example.batch sorted_targets)))
      /\ (forall name value,
            In (LogScalar name value) (metric_entries Example.returned_metrics)
            <-> In (name, value) (Dict.items Example.returned_metrics)
                /\ isnan value = false).
Proof.
  split; [vm_compute; reflexivity|].
  apply (@nan_metrics_are_not_logged unit tensor3 (list nat) unit unit
           Example.agreement Example.agreement Example.agreement
           Example.sum32 Example.mean32 Example.mean32
           Example.symmetric_losses Example.add_kl_loss
           Example.add_regression_loss Example.add_classification_loss
           Example.predict Example.full_report_string true Example.network
           Example.batch 0 [] (snd Example.returned) Example.returned_metrics).
  vm_compute. reflexivity.
Defined.

(** On the small event the bin of the events with exactly one present target
    is empty: its accuracy is NaN, the returned dictionary has the entry and
    the log has none. *)
Lemma nan_bin_is_returned_and_not_logged :
  Dict.get "jet/accuracy_1_of_1" Example.returned_metrics = Some nan
  /\ forallb (fun e => match e with
                       | LogScalar name _ => negb (String.eqb name "jet/accuracy_1_of_1")
                       | LogHistogram _ _ _ => true
                       end) (snd Example.returned) = true.
Proof. split; vm_compute; reflexivity. Qed.


(* ===================================================================== *)
(** * Further properties of [compute_metrics] *)
(* ===================================================================== *)

(** X1.  [compute_metrics] needs a permutation and a target.  With an empty
    event permutation group it raises the [ValueError] of [argmax], whatever
    the batch; with no target it raises too, at the latest on the lookup of
    ["jet/accuracy_0_of_0"] for ["validation_accuracy"].  So it returns only
    for a group with at least one permutation and a batch with at least one
    target. *)
Theorem compute_metrics_needs_a_permutation_and_a_target :
  forall (accuracy_score recall_score f1_score : list bool -> list bool -> float)
         (ept : array2 nat) (preds targets : list (array2 Z))
         (scores : array2 float) (masks : array2 bool),
    let result :=
      compute_metrics accuracy_score recall_score f1_score ept preds scores
        targets masks in
    (ept = [] ->
     result = Raise (ValueError "attempt to get argmax of an empty sequence"))
    /\ (masks = [] -> exists e, result = Raise e)
    /\ (forall metrics, result = Ok metrics -> ept <> [] /\ 1 <= length masks).
Proof.
  intros acc_s rec_s f1_s ept preds targets scores masks result.
  assert (E : ept = [] ->
              result = Raise (ValueError "attempt to get argmax of an empty sequence")).
  { intros ->. reflexivity. }
  assert (M : masks = [] -> exists e, result = Raise e).
  { intros ->. subst result. unfold compute_metrics. cbv zeta.
    destruct (best_permutation_accuracies _ _ _ _ _) as [[[[ja pa] pm] np]|e].
    - eexists. reflexivity.
    - exists e. reflexivity. }
  split; [exact E|]. split; [exact M|].
  intros metrics H. split.
  - intros N. rewrite (E N) in H. discriminate H.
  - destruct masks as [|row masks]; [|simpl; lia].
    destruct (M eq_refl) as [e He]. rewrite He in H. discriminate H.
Qed.

Lemma filter_length_le {A} (f : A -> bool) (l : list A) :
  length (filter f l) <= length l.
Proof.
  induction l as [|x l IH]; simpl; [lia|]. destruct (f x); simpl; lia.
Qed.

Lemma eqb_row_nth (r1 r2 : list bool) (b : nat) :
  b < length r1 -> b < length r2 ->
  nth b (map (fun xy => Bool.eqb (fst xy) (snd xy)) (combine r1 r2)) false
  = Bool.eqb (nth b r1 false) (nth b r2 false).
Proof.
  revert r2 b. induction r1 as [|x r1 IH]; intros [|y r2] b H1 H2; simpl in *; try lia.
  destruct b as [|b]; [reflexivity|]. apply IH; lia.
Qed.

Section Particles.
Variables (ept : array2 nat) (preds targets : list (array2 Z)).
Variables (ppreds masks : array2 bool).
Hypothesis Sh : shapes ept preds ppreds targets masks.

Lemma column_jet_table (b : nat) :
  b < ncols masks ->
  column b (jet_table ept preds targets masks)
  = map (fun perm => matching_targets preds targets perm b) ept.
Proof.
  intros Hb. unfold column, jet_table. rewrite map_map. apply map_ext_in.
  intros perm Hp. now apply (jet_count_matching Sh).
Qed.

Lemma particle_count_matching (perm : list nat) (b : nat) :
  In perm ept -> b < ncols masks ->
  nth b (sum_axis0 (ncols masks)
           (eq_elementwise (map (fun i => nth i masks []) perm) ppreds)) 0
  = matching_particles masks ppreds perm b.
Proof.
  intros Hp Hb.
  destruct Sh as [S_group S_perm_len S_perm_rng S_targets S_preds S_target_rows
                  S_pred_rows S_mask_rows S_scores S_score_rows].
  unfold sum_axis0. rewrite nth_map_seq by assumption.
  unfold eq_elementwise, matching_particles, count_true.
  rewrite map_map. apply count_true_map_filter.
  intros [m p] Hin. simpl. apply eqb_row_nth.
  - apply in_combine_l in Hin. apply in_map_iff in Hin.
    destruct Hin as [i [<- Hi]]. rewrite S_mask_rows; [exact Hb|].
    apply nth_In. eauto.
  - apply in_combine_r in Hin. now rewrite S_score_rows.
Qed.

Lemma column_particle_table (b : nat) :
  b < ncols masks ->
  column b (particle_table ept ppreds masks)
  = map (fun perm => matching_particles masks ppreds perm b) ept.
Proof.
  intros Hb. unfold column, particle_table. rewrite map_map. apply map_ext_in.
  intros perm Hp. now apply particle_count_matching.
Qed.

Lemma matching_targets_le (perm : list nat) (b : nat) :
  matching_targets preds targets perm b <= length masks.
Proof.
  destruct Sh as [S_group S_perm_len S_perm_rng S_targets S_preds S_target_rows
                  S_pred_rows S_mask_rows S_scores S_score_rows].
  unfold matching_targets. etransitivity; [apply filter_length_le|].
  rewrite length_combine, S_preds. lia.
Qed.

Lemma matching_particles_le (perm : list nat) (b : nat) :
  matching_particles masks ppreds perm b <= length masks.
Proof.
  destruct Sh as [S_group S_perm_len S_perm_rng S_targets S_preds S_target_rows
                  S_pred_rows S_mask_rows S_scores S_score_rows].
  unfold matching_particles. etransitivity; [apply filter_length_le|].
  rewrite length_combine, S_scores. lia.
Qed.
End Particles.

(** X2.  On a well-shaped batch the particle accuracy of an event is found
    like its jet accuracy: it is
    the maximum, over the permutations of the group, of the number of targets
    whose thresholded detection score agrees with the permuted mask.  Its best
    permutation is its own, not the one of the jet accuracy. *)
Theorem particle_accuracy_is_best_permutation :
  forall (ept : array2 nat) (preds targets : list (array2 Z))
         (ppreds masks : array2 bool),
    well_shaped ept preds ppreds targets masks = true ->
    exists jet_accuracies particle_accuracies permuted_masks num_particles,
      best_permutation_accuracies ept preds ppreds targets masks
      = Ok (jet_accuracies, particle_accuracies, permuted_masks, num_particles)
      /\ length particle_accuracies = ncols masks
      /\ forall b, b < ncols masks ->
           (forall permutation, In permutation ept ->
              matching_particles masks ppreds permutation b
              <= nth b particle_accuracies 0)
           /\ (exists permutation, In permutation ept
                 /\ nth b particle_accuracies 0
                    = matching_particles masks ppreds permutation b).
Proof.
  intros ept preds targets ppreds masks W.
  pose proof (well_shaped_shapes _ _ _ _ _ W) as Sh.
  pose proof (well_shaped_aligned _ _ _ _ _ W) as Al.
  destruct (best_permutation_accuracies_ok Sh Al) as [pm E].
  eexists _, _, _, _. split; [exact E|]. split.
  - now rewrite length_map, length_seq.
  - intros b Hb. rewrite nth_map_seq by assumption.
    rewrite (column_particle_table Sh Hb). split.
    + intros perm Hp. apply list_max_upper. apply in_map_iff.
      exists perm. split; [reflexivity|assumption].
    + assert (NE : map (fun perm => matching_particles masks ppreds perm b) ept <> []).
      { destruct Sh as [S_group]. destruct ept; [congruence|discriminate]. }
      pose proof (list_max_attained NE) as Hin. apply in_map_iff in Hin.
      destruct Hin as [perm [Hperm Hp]]. exists perm. split; [exact Hp|now symmetry].
Qed.

(** X3.  On a well-shaped batch no accuracy count exceeds the number of
    targets: the jet accuracy, the
    particle accuracy and the number of present targets of every event are at
    most [num_targets], so every event falls in one of the bins
    [accuracy_i_of_j] or has no present target. *)
Theorem accuracy_counts_are_bounded :
  forall (ept : array2 nat) (preds targets : list (array2 Z))
         (ppreds masks : array2 bool),
    well_shaped ept preds ppreds targets masks = true ->
    exists jet_accuracies particle_accuracies permuted_masks num_particles,
      best_permutation_accuracies ept preds ppreds targets masks
      = Ok (jet_accuracies, particle_accuracies, permuted_masks, num_particles)
      /\ Forall (fun a => a <= length masks) jet_accuracies
      /\ Forall (fun a => a <= length masks) particle_accuracies
      /\ Forall (fun n => n <= length masks) num_particles.
Proof.
  intros ept preds targets ppreds masks W.
  pose proof (well_shaped_shapes _ _ _ _ _ W) as Sh.
  pose proof (well_shaped_aligned _ _ _ _ _ W) as Al.
  destruct (best_permutation_accuracies_ok Sh Al) as [pm E].
  eexists _, _, _, _. split; [exact E|].
  repeat split; apply Forall_forall; intros a Ha; apply in_map_iff in Ha;
    destruct Ha as [b [<- Hb]]; apply in_seq in Hb.
  - rewrite (column_jet_table Sh) by lia. apply list_max_le, Forall_forall.
    intros c Hc. apply in_map_iff in Hc. destruct Hc as [perm [<- _]].
    apply (matching_targets_le Sh).
  - rewrite (column_particle_table Sh) by lia. apply list_max_le, Forall_forall.
    intros c Hc. apply in_map_iff in Hc. destruct Hc as [perm [<- _]].
    apply (matching_particles_le Sh).
  - unfold count_true. etransitivity; [apply filter_length_le|].
    now rewrite length_map.
Qed.

Lemma argmax_opt_spec (l : list nat) (i : nat) :
  argmax_opt l = Some i ->
  i < length l /\ nth i l 0 = list_max l
  /\ forall j, j < i -> nth j l 0 < list_max l.
Proof.
  revert i. induction l as [|x l IH]; intros i H; [discriminate|].
  simpl in H. destruct l as [|y l].
  - simpl in H. injection H as <-. simpl. repeat split; try lia.
  - rewrite (@list_max_opt_spec (y :: l)) in H by discriminate.
    destruct (argmax_opt (y :: l)) as [i'|] eqn:E.
    + destruct (IH i' eq_refl) as [L [M F]].
      change (list_max (x :: y :: l)) with (Nat.max x (list_max (y :: l))).
      destruct (Nat.leb_spec (list_max (y :: l)) x) as [C|C]; injection H as <-.
      * repeat split; [cbn [length]; lia| |intros j Hj; lia].
        change (nth 0 (x :: y :: l) 0) with x. lia.
      * repeat split; [cbn [length] in *; lia| |].
        -- change (nth (S i') (x :: y :: l) 0) with (nth i' (y :: l) 0). lia.
        -- intros [|j] Hj; [change (nth 0 (x :: y :: l) 0) with x; lia|].
           change (nth (S j) (x :: y :: l) 0) with (nth j (y :: l) 0).
           assert (j < i') by lia. specialize (F j H). lia.
    + destruct (argmax_opt_lt (l := y :: l)) as [i' [Hi _]]; [discriminate|congruence].
Qed.

Lemma argmax_axis0_spec (width : nat) (a : array2 nat) (best : list nat) :
  argmax_axis0 width a = Ok best ->
  length best = width
  /\ forall b, b < width -> argmax_opt (column b a) = Some (nth b best 0).
Proof.
  unfold argmax_axis0. destruct a as [|r a]; [discriminate|].
  intros H. apply mapR_inv in H.
  pose proof (Forall2_length H) as L. rewrite length_seq in L. split; [now symmetry|].
  intros b Hb.
  assert (Hs : nth_error (seq 0 width) b = Some b).
  { rewrite nth_error_nth' with (d := 0) by (now rewrite length_seq).
    now rewrite seq_nth. }
  destruct (Forall2_nth_error b H Hs) as [i [Hi Hr]].
  rewrite (nth_error_nth _ _ 0 Hi).
  destruct (argmax_opt (column b (r :: a))); [now injection Hr as ->|discriminate].
Qed.

Lemma gather0_ok {A} (a : array2 A) (idx : array2 nat) (d : A) :
  (forall row b v, In row idx -> In (b, v) (combine (seq 0 (length row)) row) ->
                   v < length a /\ b < length (nth v a [])) ->
  gather0 a idx
  = Ok (map (fun row =>
               map (fun bi => nth (fst bi) (nth (snd bi) a []) d)
                   (combine (seq 0 (length row)) row))
            idx).
Proof.
  intros H. unfold gather0. apply mapR_ok. intros row Hrow.
  apply mapR_ok. intros [b v] Hbv. destruct (H row b v Hrow Hbv) as [Hv Hb].
  simpl. rewrite (index_ok a [] Hv). simpl. now apply index_ok.
Qed.

Lemma nth_combine_seq (row : list nat) (b : nat) :
  b < length row ->
  nth b (combine (seq 0 (length row)) row) (0, 0) = (b, nth b row 0).
Proof.
  intros H. rewrite combine_nth by (now rewrite length_seq).
  now rewrite seq_nth.
Qed.

Lemma nth_map_lt {A B} (f : A -> B) (l : list A) (d : B) (d' : A) (b : nat) :
  b < length l -> nth b (map f l) d = f (nth b l d').
Proof.
  intros H. rewrite (nth_indep _ d (f d')) by (now rewrite length_map).
  apply map_nth.
Qed.

Lemma nth_map_combine_seq {A} (h : nat * nat -> A) (row : list nat) (b : nat) (d : A) :
  b < length row ->
  nth b (map h (combine (seq 0 (length row)) row)) d = h (b, nth b row 0).
Proof.
  intros H. rewrite (nth_map_lt h _ d (0, 0))
    by (rewrite length_combine, length_seq; lia).
  now rewrite nth_combine_seq.
Qed.

Section FirstBest.
Variables (ept : array2 nat) (preds targets : list (array2 Z)).
Variables (ppreds masks : array2 bool).
Hypothesis Sh : shapes ept preds ppreds targets masks.
Hypothesis Al : aligned ept preds targets masks.

Lemma best_permutation_detail :
  exists best jet_accuracies particle_accuracies permuted_masks,
    best_permutation_accuracies ept preds ppreds targets masks
    = Ok (jet_accuracies, particle_accuracies, permuted_masks,
          sum_axis0 (ncols masks) masks)
    /\ length best = ncols masks
    /\ length permuted_masks = length masks
    /\ forall b, b < ncols masks ->
         argmax_opt (column b (jet_table ept preds targets masks))
         = Some (nth b best 0)
         /\ nth b jet_accuracies 0
            = list_max (column b (jet_table ept preds targets masks))
         /\ nth b best 0 < length ept
         /\ forall t, t < length masks ->
              nth b (nth t permuted_masks []) false
              = nth b (nth (nth t (nth (nth b best 0) ept []) 0) masks []) false.
Proof.
  pose proof (ncols_group Sh) as NC.
  unfold best_permutation_accuracies.
  rewrite (mapR_ok _ _ _ (fun perm Hp => permutation_accuracies_ok Sh Al perm Hp)).
  simpl. rewrite !map_map. simpl.
  fold (jet_rows_of preds targets). fold (jet_table ept preds targets masks).
  fold (particle_table ept ppreds masks).
  destruct Sh as [S_group S_perm_len S_perm_rng S_targets S_preds S_target_rows
                  S_pred_rows S_mask_rows S_scores S_score_rows].
  assert (NE : jet_table ept preds targets masks <> []).
  { unfold jet_table. destruct ept; [congruence|discriminate]. }
  assert (NE' : particle_table ept ppreds masks <> []).
  { unfold particle_table. destruct ept; [congruence|discriminate]. }
  destruct (argmax_axis0_ok (ncols masks) NE) as [best [Hbest [Hlen Hrng]]].
  destruct (argmax_axis0_spec _ _ Hbest) as [_ Harg].
  rewrite Hbest. simpl.
  assert (Hrng' : forall i, In i best -> i < length ept).
  { intros i Hi. specialize (Hrng i Hi). unfold jet_table in Hrng.
    now rewrite length_map in Hrng. }
  rewrite (@index_many_ok _ ept best []) by exact Hrng'. simpl.
  rewrite (@gather0_ok _ masks _ false).
  2:{ intros row b v Hrow Hbv. unfold transpose in Hrow.
      apply in_map_iff in Hrow. destruct Hrow as [t [<- Ht]].
      apply in_seq in Ht. rewrite NC in Ht.
      pose proof (in_combine_l _ _ _ _ Hbv) as Hb.
      pose proof (in_combine_r _ _ _ _ Hbv) as Hv.
      apply in_seq in Hb. rewrite !length_map, Hlen in Hb.
      rewrite map_map in Hv. apply in_map_iff in Hv. destruct Hv as [i [<- Hi]].
      assert (Hperm : In (nth i ept []) ept) by (apply nth_In; auto).
      assert (Hv : nth t (nth i ept []) 0 < length masks).
      { apply (S_perm_rng _ _ Hperm). apply nth_In.
        rewrite (S_perm_len _ Hperm). lia. }
      split; [exact Hv|].
      rewrite S_mask_rows by (apply nth_In, Hv). lia. }
  simpl. rewrite (max_axis0_ok _ NE), (max_axis0_ok _ NE'). simpl.
  exists best. eexists _, _, _. split; [reflexivity|].
  split; [exact Hlen|]. split.
  { unfold transpose. now rewrite !length_map, length_seq. }
  intros b Hb. split; [now apply Harg|]. split; [now rewrite nth_map_seq|].
  split; [apply Hrng', nth_In; lia|].
  intros t Ht. unfold transpose.
  rewrite map_map, nth_map_seq by lia.
  rewrite nth_map_combine_seq by (rewrite !length_map; lia).
  cbn [fst snd]. rewrite map_map.
  rewrite (nth_map_lt (fun i => nth t (nth i ept []) 0) best 0 0) by lia.
  reflexivity.
Qed.
End FirstBest.

Lemma list_as_map_nth {A} (l : list A) (d : A) :
  l = map (fun t => nth t l d) (seq 0 (length l)).
Proof.
  apply (nth_ext _ _ d d); [now rewrite length_map, length_seq|].
  intros n Hn. now rewrite nth_map_seq.
Qed.

Lemma count_true_permutation (l l' : list bool) :
  Permutation l l' -> count_true l = count_true l'.
Proof.
  unfold count_true. induction 1; simpl; try congruence.
  - destruct x; simpl; congruence.
  - destruct x, y; reflexivity.
Qed.

(** X4.  On a well-shaped batch the masks that enter the particle metrics are
    those of one permutation of
    the group per event, the first one that reaches the jet accuracy of the
    event ([argmax] keeps the first maximum): every earlier permutation
    matches fewer targets, and the mask of target [t] is the mask of the
    target that this permutation puts in the place of [t]. *)
Theorem permuted_masks_follow_first_best_permutation :
  forall (ept : array2 nat) (preds targets : list (array2 Z))
         (ppreds masks : array2 bool),
    well_shaped ept preds ppreds targets masks = true ->
    exists jet_accuracies particle_accuracies permuted_masks num_particles,
      best_permutation_accuracies ept preds ppreds targets masks
      = Ok (jet_accuracies, particle_accuracies, permuted_masks, num_particles)
      /\ length permuted_masks = length masks
      /\ forall b, b < ncols masks ->
           exists i permutation,
             nth_error ept i = Some permutation
             /\ matching_targets preds targets permutation b = nth b jet_accuracies 0
             /\ (forall j earlier, j < i -> nth_error ept j = Some earlier ->
                   matching_targets preds targets earlier b < nth b jet_accuracies 0)
             /\ forall t, t < length masks ->
                  nth b (nth t permuted_masks []) false
                  = nth b (nth (nth t permutation 0) masks []) false.
Proof.
  intros ept preds targets ppreds masks W.
  pose proof (well_shaped_shapes _ _ _ _ _ W) as Sh.
  pose proof (well_shaped_aligned _ _ _ _ _ W) as Al.
  destruct (best_permutation_detail Sh Al) as [best [ja [pa [pm [E [Lb [Lpm D]]]]]]].
  exists ja, pa, pm, (sum_axis0 (ncols masks) masks).
  split; [exact E|]. split; [exact Lpm|].
  intros b Hb. destruct (D b Hb) as [Harg [Hmax [Hi Hmask]]].
  apply argmax_opt_spec in Harg. destruct Harg as [_ [Hval Hfirst]].
  rewrite (column_jet_table Sh Hb) in Hval, Hfirst, Hmax.
  exists (nth b best 0), (nth (nth b best 0) ept []).
  split; [now apply nth_error_nth'|]. split.
  - rewrite Hmax, <- Hval.
    now rewrite (nth_map_lt (fun perm => matching_targets preds targets perm b)
                   ept 0 []).
  - split; [|exact Hmask].
    intros j earlier Hj Hearlier. rewrite Hmax.
    specialize (Hfirst j Hj).
    rewrite (nth_map_lt (fun perm => matching_targets preds targets perm b)
               ept 0 []) in Hfirst by lia.
    now rewrite (nth_error_nth _ _ [] Hearlier) in Hfirst.
Qed.

(** X5.  On a well-shaped batch, when the rows of the event permutation tensor
    are permutations of the
    targets (no target twice), permuting the masks of an event moves them
    between targets and loses none: in every event the permuted masks have as
    many present targets as the masks of the batch, the count by which the
    accuracy bins are chosen. *)
Theorem permuted_masks_keep_present_targets :
  forall (ept : array2 nat) (preds targets : list (array2 Z))
         (ppreds masks : array2 bool),
    well_shaped ept preds ppreds targets masks = true ->
    Forall (fun permutation => NoDup permutation) ept ->
    exists jet_accuracies particle_accuracies permuted_masks num_particles,
      best_permutation_accuracies ept preds ppreds targets masks
      = Ok (jet_accuracies, particle_accuracies, permuted_masks, num_particles)
      /\ forall b, b < ncols masks ->
           count_true (map (fun row => nth b row false) permuted_masks)
           = nth b num_particles 0.
Proof.
  intros ept preds targets ppreds masks W ND.
  pose proof (well_shaped_shapes _ _ _ _ _ W) as Sh.
  pose proof (well_shaped_aligned _ _ _ _ _ W) as Al.
  destruct (best_permutation_detail Sh Al) as [best [ja [pa [pm [E [Lb [Lpm D]]]]]]].
  exists ja, pa, pm, (sum_axis0 (ncols masks) masks).
  split; [exact E|].
  intros b Hb. destruct (D b Hb) as [_ [_ [Hi Hmask]]].
  destruct Sh as [S_group S_perm_len S_perm_rng S_targets S_preds S_target_rows
                  S_pred_rows S_mask_rows S_scores S_score_rows].
  set (perm := nth (nth b best 0) ept []) in *.
  assert (Hperm : In perm ept) by (apply nth_In; exact Hi).
  set (g := fun i => nth b (nth i masks []) false).
  unfold sum_axis0. rewrite nth_map_seq by exact Hb.
  rewrite (list_as_map_nth pm []) at 1. rewrite map_map, Lpm.
  rewrite (list_as_map_nth masks []) at 2. rewrite map_map.
  fold g.
  rewrite (map_ext_in _ (fun t => g (nth t perm 0)))
    by (intros t Ht; apply in_seq in Ht; apply Hmask; lia).
  rewrite <- (map_map (fun t => nth t perm 0) g).
  rewrite <- (S_perm_len perm Hperm), <- (list_as_map_nth perm 0).
  apply count_true_permutation, Permutation_map.
  apply NoDup_Permutation_bis.
  - rewrite Forall_forall in ND. now apply ND.
  - now rewrite length_seq.
  - intros i Hin. apply in_seq. split; [lia|].
    rewrite (S_perm_len perm Hperm). simpl. eauto.
Qed.

(** ** The names of the metrics *)

Lemma get_none_iff {V} (k : string) (d : Dict.dict V) :
  Dict.get k d = None <-> ~ In k (map fst d).
Proof.
  induction d as [|[k' v'] d IH]; simpl; [tauto|].
  destruct (String.eqb_spec k k') as [->|N].
  - split; [discriminate|]. intros H. exfalso. apply H. now left.
  - rewrite IH. split; [intros H [E|I]; [congruence|tauto]|tauto].
Qed.

Lemma keys_set_fresh {V} (k : string) (v : V) (d : Dict.dict V) :
  ~ In k (map fst d) -> map fst (Dict.set k v d) = map fst d ++ [k].
Proof.
  induction d as [|[k' v'] d IH]; simpl; intros H; [reflexivity|].
  destruct (String.eqb_spec k k') as [->|N]; [tauto|].
  simpl. rewrite IH by tauto. reflexivity.
Qed.

Lemma keys_update_fresh {X V} (key : X -> string) (val : X -> V) (xs : list X)
  (d : Dict.dict V) :
  NoDup (map key xs) ->
  (forall x, In x xs -> ~ In (key x) (map fst d)) ->
  map fst (Dict.update d (map (fun x => (key x, val x)) xs))
  = map fst d ++ map key xs.
Proof.
  revert d. induction xs as [|x xs IH]; intros d ND F; simpl.
  - now rewrite app_nil_r.
  - inversion ND as [|? ? Hx ND']; subst. unfold Dict.update in *. simpl.
    rewrite IH; [| exact ND' |].
    + rewrite keys_set_fresh by (apply F; now left).
      now rewrite <- app_assoc.
    + intros y Hy. rewrite keys_set_fresh by (apply F; now left).
      intros Hin. apply in_app_or in Hin. destruct Hin as [Hin|[E|[]]].
      * apply (F y); [now right|exact Hin].
      * apply Hx. rewrite E. now apply in_map.
Qed.

Lemma NoDup_map_on {A B} (f : A -> B) (l : list A) :
  NoDup l -> (forall x y, In x l -> In y l -> f x = f y -> x = y) ->
  NoDup (map f l).
Proof.
  induction 1 as [|x l Hx ND IH]; intros Inj; simpl; constructor.
  - intros Hin. apply in_map_iff in Hin. destruct Hin as [y [E Hy]].
    apply Hx. rewrite (Inj x y); auto; [now left|now right].
  - apply IH. intros a b Ha Hb. apply Inj; now right.
Qed.

Lemma NoDup_accuracy_pairs (n : nat) : NoDup (accuracy_pairs n).
Proof.
  unfold accuracy_pairs.
  assert (G : forall l, NoDup l -> NoDup (flat_map (fun j => map (fun i => (i, j)) (seq 1 j)) l)).
  { induction 1 as [|j l Hj ND IH]; simpl; [constructor|].
    apply NoDup_app; [|exact IH|].
    - apply NoDup_map_on; [apply seq_NoDup|]. intros x y _ _ E. now injection E.
    - intros [i j'] Hin Hin'. apply in_map_iff in Hin. destruct Hin as [i0 [E _]].
      injection E as -> ->. apply in_flat_map in Hin'.
      destruct Hin' as [j0 [Hj0 Hin']]. apply in_map_iff in Hin'.
      destruct Hin' as [i1 [E _]]. injection E as -> ->. contradiction. }
  apply G, seq_NoDup.
Qed.

Lemma NoDup_accuracy_keys (family : string) (n : nat) :
  NoDup (map (fun ij => accuracy_key family (fst ij) (snd ij)) (accuracy_pairs n)).
Proof.
  apply NoDup_map_on; [apply NoDup_accuracy_pairs|].
  intros [i j] [i' j'] _ _ E. simpl in E. apply accuracy_key_inj in E.
  destruct E as [-> ->]. reflexivity.
Qed.

Lemma in_accuracy_keys (family k : string) (n : nat) :
  In k (map (fun ij => accuracy_key family (fst ij) (snd ij)) (accuracy_pairs n)) ->
  exists i j, k = accuracy_key family i j.
Proof.
  intros H. apply in_map_iff in H. destruct H as [[i j] [<- _]]. now exists i, j.
Qed.

Lemma NoDup_metric_names (n : nat) : NoDup (metric_names n).
Proof.
  unfold metric_names.
  apply NoDup_app; [apply NoDup_accuracy_keys| |].
  - apply NoDup_app; [apply NoDup_accuracy_keys| |].
    + repeat constructor; simpl; intuition discriminate.
    + intros k Hk Hin. apply in_accuracy_keys in Hk. destruct Hk as [i [j ->]].
      simpl in Hin. repeat destruct Hin as [Hin|Hin]; try contradiction;
        revert Hin; keys_differ.
  - intros k Hk Hin. apply in_accuracy_keys in Hk. destruct Hk as [i [j ->]].
    apply in_app_or in Hin. destruct Hin as [Hin|Hin].
    + apply in_accuracy_keys in Hin. destruct Hin as [i' [j' E]].
      revert E. keys_differ.
    + simpl in Hin. repeat destruct Hin as [Hin|Hin]; try contradiction;
        revert Hin; keys_differ.
Qed.

Ltac not_among_keys :=
  let H := fresh in
  intros H;
  repeat (apply in_app_or in H; destruct H as [H|H]);
  try (apply in_accuracy_keys in H; destruct H as [? [? H]]; revert H; keys_differ);
  try (simpl in H; repeat destruct H as [H|H]; try contradiction; discriminate H).

Lemma compute_metrics_names
  (accuracy_score recall_score f1_score : list bool -> list bool -> float)
  (ept : array2 nat) (preds targets : list (array2 Z))
  (scores : array2 float) (masks : array2 bool)
  (ja pa np : list nat) (pm : array2 bool) :
  best_permutation_accuracies ept preds (threshold_scores scores) targets masks
  = Ok (ja, pa, pm, np) ->
  1 <= length masks ->
  exists metrics,
    compute_metrics accuracy_score recall_score f1_score ept
      preds scores targets masks = Ok metrics
    /\ map fst (Dict.items metrics) = metric_names (length masks).
Proof.
  intros Best N.
  destruct (compute_metrics_entries accuracy_score recall_score f1_score
              _ _ _ _ _ Best N) as [metrics [E _]].
  exists metrics. split; [exact E|].
  revert E. unfold compute_metrics. rewrite Best. cbn [rbind].
  unfold particle_metrics, particle_score_metrics.
  cbn [fold_left fst snd].
  change (particle_key "accuracy") with "particle/accuracy".
  change (particle_key "sensitivity") with "particle/sensitivity".
  change (particle_key "specificity") with "particle/specificity".
  change (particle_key "f_score") with "particle/f_score".
  set (n := length masks) in *.
  set (d1 := Dict.update [] (accuracy_items "jet" ja np n)).
  set (d2 := Dict.update d1 (accuracy_items "particle" pa np n)).
  set (tg := ravel pm). set (pr := ravel (threshold_scores scores)).
  set (d3 := Dict.set "particle/accuracy" (accuracy_score tg pr) d2).
  set (d4 := Dict.set "particle/sensitivity" (recall_score tg pr) d3).
  set (d5 := Dict.set "particle/specificity"
               (recall_score (map negb tg) (map negb pr)) d4).
  set (d6 := Dict.set "particle/f_score" (f1_score tg pr) d5).
  set (jets := map (fun ij => accuracy_key "jet" (fst ij) (snd ij)) (accuracy_pairs n)).
  set (parts := map (fun ij => accuracy_key "particle" (fst ij) (snd ij))
                    (accuracy_pairs n)).
  assert (K1 : map fst d1 = jets).
  { unfold d1. rewrite accuracy_items_pairs.
    rewrite keys_update_fresh; [reflexivity|apply NoDup_accuracy_keys|].
    intros x _ []. }
  assert (K2 : map fst d2 = jets ++ parts).
  { unfold d2. rewrite accuracy_items_pairs.
    rewrite keys_update_fresh; [now rewrite K1|apply NoDup_accuracy_keys|].
    intros [i j] _. rewrite K1. unfold jets. simpl. not_among_keys. }
  assert (K3 : map fst d3 = (jets ++ parts) ++ ["particle/accuracy"]).
  { unfold d3. rewrite keys_set_fresh; rewrite K2; [reflexivity|].
    unfold jets, parts. not_among_keys. }
  assert (K4 : map fst d4
               = ((jets ++ parts) ++ ["particle/accuracy"]) ++ ["particle/sensitivity"]).
  { unfold d4. rewrite keys_set_fresh; rewrite K3; [reflexivity|].
    unfold jets, parts. not_among_keys. }
  assert (K5 : map fst d5
               = (((jets ++ parts) ++ ["particle/accuracy"]) ++ ["particle/sensitivity"])
                 ++ ["particle/specificity"]).
  { unfold d5. rewrite keys_set_fresh; rewrite K4; [reflexivity|].
    unfold jets, parts. not_among_keys. }
  assert (K6 : map fst d6
               = ((((jets ++ parts) ++ ["particle/accuracy"]) ++ ["particle/sensitivity"])
                  ++ ["particle/specificity"]) ++ ["particle/f_score"]).
  { unfold d6. rewrite keys_set_fresh; rewrite K5; [reflexivity|].
    unfold jets, parts. not_among_keys. }
  destruct (Dict.getitem (accuracy_key "jet" n n) d6) as [v|e]; [|discriminate].
  cbn [rbind]. intros E. injection E as <-.
  unfold Dict.items. rewrite keys_set_fresh; rewrite K6.
  - unfold metric_names. fold jets. fold parts.
    rewrite <- !app_assoc. reflexivity.
  - unfold jets, parts. not_among_keys.
Qed.

(** X6.  On a well-shaped batch with [n >= 1] targets the dictionary that
    [compute_metrics] returns has exactly the entries
    ["jet/accuracy_i_of_j"] and ["particle/accuracy_i_of_j"] for
    [1 <= i <= j <= n], the four particle entries and
    ["validation_accuracy"], inserted in this order, each name once:
    [n (n + 1) + 5] entries for [n] targets. *)
Theorem metric_names_of_compute_metrics :
  forall (accuracy_score recall_score f1_score : list bool -> list bool -> float)
         (ept : array2 nat) (preds : list (array2 Z)) (scores : array2 float)
         (targets : list (array2 Z)) (masks : array2 bool),
    well_shaped ept preds scores targets masks = true ->
    1 <= length masks ->
    exists metrics,
      compute_metrics accuracy_score recall_score f1_score ept
        preds scores targets masks = Ok metrics
      /\ map fst (Dict.items metrics) = metric_names (length masks)
      /\ NoDup (map fst (Dict.items metrics))
      /\ length (Dict.items metrics) = length masks * (length masks + 1) + 5.
Proof.
  intros acc_s rec_s f1_s ept preds scores targets masks W N.
  pose proof (shapes_threshold (well_shaped_shapes _ _ _ _ _ W)) as Sh.
  pose proof (well_shaped_aligned _ _ _ _ _ W) as Al.
  destruct (best_permutation_accuracies_ok Sh Al) as [pm Best].
  destruct (@compute_metrics_names acc_s rec_s f1_s _ _ _ _ _ _ _ _ _ Best N)
    as [metrics [E K]].
  exists metrics. split; [exact E|]. split; [exact K|]. split.
  - rewrite K. apply NoDup_metric_names.
  - rewrite <- (length_map fst), K. unfold metric_names.
    rewrite !length_app, !length_map. cbn [length].
    assert (L : forall n, 2 * length (accuracy_pairs n) = n * (n + 1)).
    { unfold accuracy_pairs. intros n.
      assert (G : forall k m,
                 2 * length (flat_map (fun j => map (fun i => (i, j)) (seq 1 j))
                                      (seq (S k) m))
                 = m * (2 * k + m + 1)).
      { intros k m. revert k. induction m as [|m IH]; intros k; [reflexivity|].
        change (seq (S k) (S m)) with (S k :: seq (S (S k)) m). cbn [flat_map].
        rewrite length_app, length_map, length_seq.
        specialize (IH (S k)). nia. }
      rewrite (G 0 n). nia. }
    specialize (L (length masks)). lia.
Qed.

Lemma select_none {A} (j : nat) (np : list nat) (acc : list A) :
  Forall (fun n => n <> j) np -> select (map (fun n => n =? j) np) acc = [].
Proof.
  intros F. revert acc. induction F as [|n np Hn _ IH]; intros [|a acc];
    simpl; try reflexivity.
  apply Nat.eqb_neq in Hn. rewrite Hn. apply IH.
Qed.

(** X7.  A bin without events is NaN: on a well-shaped batch, when no event
    of the batch has exactly [j]
    present targets, the entries ["jet/accuracy_i_of_j"] and
    ["particle/accuracy_i_of_j"] are the mean of an empty array, NaN (the values
    that [validation_step] then leaves out of the log). *)
Theorem empty_bin_is_nan :
  forall (accuracy_score recall_score f1_score : list bool -> list bool -> float)
         (ept : array2 nat) (preds : list (array2 Z)) (scores : array2 float)
         (targets : list (array2 Z)) (masks : array2 bool) (i j : nat),
    well_shaped ept preds scores targets masks = true ->
    1 <= i -> i <= j -> j <= length masks ->
    Forall (fun n => n <> j) (sum_axis0 (ncols masks) masks) ->
    exists metrics,
      compute_metrics accuracy_score recall_score f1_score ept
        preds scores targets masks = Ok metrics
      /\ Dict.get (accuracy_key "jet" i j) metrics = Some nan
      /\ Dict.get (accuracy_key "particle" i j) metrics = Some nan.
Proof.
  intros acc_s rec_s f1_s ept preds scores targets masks i j W H1 H2 H3 F.
  pose proof (shapes_threshold (well_shaped_shapes _ _ _ _ _ W)) as Sh.
  pose proof (well_shaped_aligned _ _ _ _ _ W) as Al.
  destruct (best_permutation_accuracies_ok Sh Al) as [pm Best].
  assert (N : 1 <= length masks) by lia.
  destruct (@compute_metrics_entries acc_s rec_s f1_s _ _ _ _ _ _ _ _ _ Best N)
    as [metrics [E [J [P _]]]].
  exists metrics. split; [exact E|].
  rewrite (J i j), (P i j) by assumption.
  unfold accuracy_fraction. rewrite !select_none by exact F.
  split; reflexivity.
Qed.

(* ===================================================================== *)
(** * Further properties of [compute_validation_losses] *)
(* ===================================================================== *)

Lemma mapR_raise {A B} (f : A -> result B) (l : list A) (e : exn) :
  (forall x e', f x = Raise e' -> e' = e) ->
  (exists x, In x l /\ exists e', f x = Raise e') ->
  mapR f l = Raise e.
Proof.
  intros U [x [Hx [e' Hf]]]. induction l as [|a l IH]; [contradiction|].
  simpl. destruct (f a) as [b|e0] eqn:Ea; simpl.
  - destruct Hx as [->|Hx]; [congruence|]. now rewrite IH.
  - now rewrite (U a e0 Ea).
Qed.

Lemma mapR_map {A B C} (f : B -> result C) (g : A -> B) (l : list A) :
  mapR f (map g l) = mapR (fun x => f (g x)) l.
Proof.
  induction l as [|x l IH]; simpl; [reflexivity|]. now rewrite IH.
Qed.

Lemma index_many_out_of_range {A} (xs : list A) (idx : list nat) (i : nat) :
  In i idx -> length xs <= i -> index_many xs idx = Raise IndexError.
Proof.
  intros Hi Hr. unfold index_many. apply mapR_raise.
  - intros x e'. unfold index. destruct (nth_error xs x); [discriminate|].
    now intros H; injection H.
  - exists i. split; [exact Hi|]. exists IndexError. unfold index.
    apply nth_error_None in Hr. now rewrite Hr.
Qed.

Lemma nth_map_default {A B} (g : A -> B) (l : list A) (b : nat) (d : A) :
  nth b (map g l) (g d) = g (nth b l d).
Proof. apply map_nth. Qed.

(** The class of an event is the sum of the particle indices of the targets
    that are present in it: the masks are multiplied, row by row, by the index
    of their target and summed over the targets. *)
Lemma class_indices_of_sums :
  forall (masks : array2 bool) (particle_index_tensor : list nat),
    length masks = length particle_index_tensor ->
    class_indices_of masks particle_index_tensor
    = Ok (map (fun b =>
                 list_sum (map (fun mp => if nth b (fst mp) false then snd mp else 0)
                               (combine masks particle_index_tensor)))
              (seq 0 (ncols masks))).
Proof.
  intros masks pit L. unfold class_indices_of, broadcast2.
  rewrite L, Nat.eqb_refl. cbn [rbind]. f_equal.
  assert (W : ncols (map (fun xy : list bool * nat =>
                            map (fun m : bool => if m then snd xy else 0) (fst xy))
                         (combine masks pit)) = ncols masks).
  { unfold ncols. destruct masks as [|r masks], pit as [|p pit]; try discriminate;
      [reflexivity|]. simpl. apply length_map. }
  rewrite W. apply map_ext. intros b. f_equal.
  unfold column. rewrite map_map. apply map_ext. intros [mask p]. cbn [fst snd].
  apply (nth_map_default (fun m : bool => if m then p else 0) mask b false).
Qed.

Lemma ones_times {A} (f : nat -> float) (nv : list nat) (row : list A) :
  length row = length nv ->
  map (fun xy => mul32 (fst xy) (snd xy))
      (combine (map (fun _ => one) row) (map f nv))
  = map (fun n => mul32 one (f n)) nv.
Proof.
  revert row. induction nv as [|x nv IH]; intros [|r row] L;
    try discriminate L; [reflexivity|].
  cbn [map combine fst snd]. f_equal. apply IH. now injection L.
Qed.

Section MoreLossProperties.

Variables Sources Assignments Detections Regressions Classifications : Type.
Variables tsum tmean : list float -> float.
Variable symmetric_losses :
  Assignments -> Detections -> list AssignmentTarget -> tensor3 * list nat.
Variable add_kl_loss :
  list (list float) -> Assignments -> array2 bool -> tensor3 -> list (list float).
Variable add_regression_loss :
  list (list float) -> Regressions -> Dict.dict (list float) -> list (list float).
Variable add_classification_loss :
  list (list float) -> Classifications -> Dict.dict (list Z) -> list (list float).
Variable self : Network.

Local Abbreviation outputs_t :=
  (Outputs Assignments Detections Regressions Classifications).
Local Abbreviation losses :=
  (compute_validation_losses tsum tmean symmetric_losses add_kl_loss
     add_regression_loss add_classification_loss self).
Local Abbreviation aggregate := (aggregate_losses tsum symmetric_losses self).
Local Abbreviation collect :=
  (collect_losses add_kl_loss add_regression_loss add_classification_loss self).

(** X8.  [compute_validation_losses] logs the losses of the targets before it
    checks them: whenever the aggregation returns, the log starts with the
    assignment losses, then the detection losses, of the named targets (NaN
    and infinite values included), also when a check then raises.  The total
    loss is logged last, and only when the function returns; a failing
    aggregation logs nothing. *)
Theorem losses_are_logged_before_the_checks :
  forall (outputs : outputs_t) (batch : Batch Sources),
    let r := run (losses outputs batch) in
    match aggregate outputs batch with
    | Ok (weights, masks, assignment_loss, detection_loss) =>
        exists tail,
          snd r
          = loss_entries "/assignment_loss" (assignment_names self) assignment_loss
            ++ loss_entries "/detection_loss" (assignment_names self) detection_loss
            ++ tail
          /\ match fst r with
             | Ok value =>
                 exists total,
                   cat (collect outputs batch weights masks
                          assignment_loss detection_loss) = Ok total
                   /\ tail = [LogScalar "validation_loss/total_loss" (tsum total)]
                   /\ value = tmean total
             | Raise _ => tail = []
             end
    | Raise e => r = (Raise e, [])
    end.
Proof.
  intros outputs batch r. subst r. unfold run.
  rewrite compute_validation_losses_closed.
  destruct (aggregate outputs batch) as [[[[weights masks] al] dl]|e];
    [|reflexivity].
  cbv zeta. cbn [app].
  destruct (existsb isnan al).
  { exists []. cbn [fst snd]. now rewrite app_nil_r. }
  destruct (existsb isinf al).
  { exists []. cbn [fst snd]. now rewrite app_nil_r. }
  destruct (cat _) as [total|e] eqn:C; cbn [fst snd].
  - eexists. split; [now rewrite <- app_assoc|]. now exists total.
  - exists []. now rewrite app_nil_r.
Qed.

(** X9.  With [balance_jets], an event with a number of jets that the table of jet
    weights does not reach is an [IndexError] of the lookup
    [jet_weights_tensor[num_vectors]]: [compute_validation_losses] raises it
    before anything is logged. *)
Theorem jet_weight_lookup_out_of_range :
  forall (outputs : outputs_t) (batch : Batch Sources)
         (symmetric : tensor3) (best_indices : list nat) (masks : array2 bool)
         (n : nat),
    symmetric_losses (assignments outputs) (detections outputs)
                     (assignment_targets batch) = (symmetric, best_indices) ->
    loss_masks self best_indices batch = Ok masks ->
    balance_particles self = false ->
    balance_jets self = true ->
    In n (num_vectors batch) ->
    length (jet_weights_tensor self) <= n ->
    run (losses outputs batch) = (Raise IndexError, []).
Proof.
  intros outputs batch symmetric best masks n Hs Hm Hp Hj Hn Hr.
  unfold run. rewrite compute_validation_losses_closed.
  unfold aggregate_losses. rewrite Hs, Hm. cbn [rbind].
  unfold loss_weights. rewrite Hp, Hj. cbn [rbind].
  now rewrite (index_many_out_of_range _ _ Hn Hr).
Qed.

(** X10.  With [balance_jets] alone, the weight of an event, for every target and
    for both loss terms, is one times the entry of the table of jet weights at
    the number of jets of the event. *)
Theorem jet_balanced_weights :
  forall (batch : Batch Sources) (symmetric : tensor3) (masks : array2 bool),
    balance_particles self = false ->
    balance_jets self = true ->
    Forall (fun n => n < length (jet_weights_tensor self)) (num_vectors batch) ->
    Forall (fun s => length (fst s) = length (num_vectors batch)
                     /\ length (snd s) = length (num_vectors batch)) symmetric ->
    let w := map (fun n => mul32 one (nth n (jet_weights_tensor self) zero))
                 (num_vectors batch) in
    loss_weights self symmetric masks batch = Ok (map (fun _ => (w, w)) symmetric).
Proof.
  intros batch symmetric masks Hp Hj Hr Hs w.
  unfold loss_weights. rewrite Hp, Hj. cbn [rbind].
  rewrite Forall_forall in Hr.
  rewrite (@index_many_ok _ (jet_weights_tensor self) (num_vectors batch) zero)
    by exact Hr.
  cbn [rbind]. unfold imul_events, ones_like.
  set (v := map (fun i => nth i (jet_weights_tensor self) zero) (num_vectors batch)).
  assert (Lv : length v = length (num_vectors batch)) by (unfold v; apply length_map).
  assert (R : forall (row : list float),
             length row = length (num_vectors batch) ->
             ibroadcast2 shape_error mul32 (map (fun _ => one) row) v = Ok w).
  { intros row L. unfold ibroadcast2. rewrite length_map, L, Lv, Nat.eqb_refl.
    f_equal. unfold w, v. now apply ones_times. }
  rewrite mapR_map. apply mapR_ok.
  intros s Hin.
  rewrite Forall_forall in Hs. destruct (Hs s Hin) as [L1 L2].
  cbn [fst snd]. rewrite (R (fst s) L1), (R (snd s) L2). reflexivity.
Qed.

(** X11.  With [balance_particles] alone, the weight of an event, for every target
    and for both loss terms, is one times the entry of the table of particle
    weights at the class of the event: the sum of the particle indices of the
    targets that are present in it under the permutation of the loss. *)
Theorem particle_balanced_weights :
  forall (batch : Batch Sources) (symmetric : tensor3) (masks : array2 bool),
    balance_particles self = true ->
    balance_jets self = false ->
    length masks = length (particle_index_tensor self) ->
    let class b :=
      list_sum (map (fun mp => if nth b (fst mp) false then snd mp else 0)
                    (combine masks (particle_index_tensor self))) in
    (forall b, b < ncols masks -> class b < length (particle_weights_tensor self)) ->
    Forall (fun s => length (fst s) = ncols masks
                     /\ length (snd s) = ncols masks) symmetric ->
    let w := map (fun b => mul32 one (nth (class b) (particle_weights_tensor self) zero))
                 (seq 0 (ncols masks)) in
    loss_weights self symmetric masks batch = Ok (map (fun _ => (w, w)) symmetric).
Proof.
  intros batch symmetric masks Hp Hj L class Hr Hs w.
  unfold loss_weights. rewrite Hp, Hj.
  rewrite (@class_indices_of_sums masks (particle_index_tensor self) L). cbn [rbind].
  fold class.
  rewrite (@index_many_ok _ (particle_weights_tensor self)
             (map class (seq 0 (ncols masks))) zero).
  2:{ intros i Hi. apply in_map_iff in Hi. destruct Hi as [b [<- Hb]].
      apply Hr. apply in_seq in Hb. lia. }
  cbn [rbind]. unfold imul_events, ones_like.
  set (v := map (fun i => nth i (particle_weights_tensor self) zero)
                (map class (seq 0 (ncols masks)))).
  assert (Lv : length v = ncols masks).
  { unfold v. now rewrite !length_map, length_seq. }
  assert (R : forall (row : list float),
             length row = ncols masks ->
             ibroadcast2 shape_error mul32 (map (fun _ => one) row) v = Ok w).
  { intros row Lr. unfold ibroadcast2. rewrite length_map, Lr, Lv, Nat.eqb_refl.
    f_equal. unfold w, v.
    rewrite (@ones_times _ (fun i => nth i (particle_weights_tensor self) zero)
               (map class (seq 0 (ncols masks))) row)
      by now rewrite length_map, length_seq.
    now rewrite map_map. }
  assert (E : mapR (fun ad : list float * list float =>
                      (a <- ibroadcast2 shape_error mul32 (fst ad) v ;;
                       d <- ibroadcast2 shape_error mul32 (snd ad) v ;;
                       Ok (a, d))%result)
                   (map (fun ad : list float * list float =>
                           (map (fun _ => one) (fst ad), map (fun _ => one) (snd ad)))
                        symmetric)
              = Ok (map (fun _ => (w, w)) symmetric)).
  { rewrite mapR_map. apply mapR_ok.
    intros s Hin.
    rewrite Forall_forall in Hs. destruct (Hs s Hin) as [L1 L2].
    cbn [fst snd]. rewrite (R (fst s) L1), (R (snd s) L2). reflexivity. }
  rewrite E. reflexivity.
Qed.

End MoreLossProperties.

(* ===================================================================== *)
(** * Further properties of the sort of [validation_step] *)
(* ===================================================================== *)

Lemma sort_row_inv (g : list nat) (row row' : list Z) :
  sort_row g row = Ok row' ->
  row' = sorted_row g row /\ Forall (fun k => k < length row) g.
Proof.
  unfold sort_row. intros H.
  destruct (index_many row g) as [values|e] eqn:E; simpl in H; [|discriminate].
  injection H as <-. apply mapR_inv in E.
  assert (R : Forall (fun k => k < length row) g /\ values = gather_row row g).
  { unfold gather_row. induction E as [|k v g values Hk _ IH]; [now split|].
    unfold index in Hk. destruct (nth_error row k) as [x|] eqn:N; [|discriminate].
    injection Hk as <-. destruct IH as [F ->]. split.
    - constructor; [|exact F]. apply nth_error_Some. congruence.
    - simpl. f_equal. symmetry. now apply nth_error_nth. }
  destruct R as [F ->]. now split.
Qed.

Lemma kept_outside_refl (groups : list (list nat)) (row : list Z) :
  kept_outside groups row row.
Proof. now split. Qed.

Lemma sort_columns_kept (g : list nat) (rest : list (list nat)) (a a1 a' : array2 Z) :
  sort_columns g a = Ok a1 ->
  Forall2 (kept_outside rest) a1 a' ->
  1 < length g ->
  Forall2 (kept_outside (g :: rest)) a a'.
Proof.
  intros H. apply mapR_inv in H. revert a'.
  induction H as [|row row1 a a1 Hrow _ IH]; intros a' F B;
    inversion F as [|? row' ? a'' [L O] F']; subst; constructor.
  - apply sort_row_inv in Hrow. destruct Hrow as [-> _]. split.
    + now rewrite L, sorted_row_length.
    + intros k Hk. rewrite O by (intros h Hh; apply Hk; now right).
      apply sorted_row_outside. apply Hk; [now left|exact B].
  - now apply IH.
Qed.

Lemma kept_outside_skip (g : list nat) (rest : list (list nat)) (a a' : array2 Z) :
  Forall2 (kept_outside rest) a a' ->
  Forall2 (kept_outside (g :: rest)) a a'.
Proof.
  induction 1 as [|row row' a a' [L O] _ IH]; constructor; [|exact IH].
  split; [exact L|]. intros k Hk. apply O. intros h Hh. apply Hk. now right.
Qed.

(** X12.  Whenever the loop over the permutation indices of a target returns, it
    has kept the shape of the prediction and of the target and every jet that
    is in no group of more than one index: only the jets of the symmetric
    groups are rewritten. *)
Theorem sort_touches_symmetric_groups_only :
  forall (groups : list (list nat)) (prediction target prediction' target' : array2 Z),
    apply_permutation_indices prediction target groups = Ok (prediction', target') ->
    Forall2 (kept_outside groups) prediction prediction'
    /\ Forall2 (kept_outside groups) target target'.
Proof.
  induction groups as [|g rest IH]; intros p t p' t' H; simpl in H.
  - injection H as <- <-. split; clear; [induction p|induction t];
      constructor; auto using kept_outside_refl.
  - destruct (Nat.ltb_spec 1 (length g)) as [B|B].
    + destruct (sort_columns g p) as [p1|e] eqn:Ep; simpl in H; [|discriminate].
      destruct (sort_columns g t) as [t1|e] eqn:Et; simpl in H; [|discriminate].
      destruct (IH _ _ _ _ H) as [Fp Ft].
      split; eapply sort_columns_kept; eassumption.
    + destruct (IH _ _ _ _ H) as [Fp Ft].
      split; now apply kept_outside_skip.
Qed.

(** X13.  Groups of at most one index are skipped, whatever they hold: a decoder
    without a symmetric group leaves the prediction and the target as they
    are, and an index of such a group that is outside the array raises
    nothing. *)
Theorem single_index_groups_are_skipped :
  forall (groups : list (list nat)) (prediction target : array2 Z),
    Forall (fun g => length g <= 1) groups ->
    apply_permutation_indices prediction target groups = Ok (prediction, target).
Proof.
  intros groups p t F. induction F as [|g rest Hg _ IH]; [reflexivity|].
  simpl. destruct (Nat.ltb_spec 1 (length g)); [lia|exact IH].
Qed.

Lemma sort_row_raises (g : list nat) (row : list Z) (e : exn) :
  sort_row g row = Raise e -> e = IndexError.
Proof.
  unfold sort_row.
  destruct (index_many row g) as [values|e'] eqn:E; simpl; [discriminate|].
  intros H. injection H as <-.
  revert E. unfold index_many. induction g as [|k g IH]; simpl; [discriminate|].
  unfold index at 1. destruct (nth_error row k); simpl.
  - destruct (mapR (index row) g); simpl; [discriminate|].
    intros H. injection H as ->. now apply IH.
  - intros H. now injection H.
Qed.

(** X14.  An index of a symmetric group that is outside a row is an [IndexError]:
    the loop over the permutation indices raises it at the first group of
    more than one index that has such an index, for the prediction first. *)
Theorem symmetric_index_out_of_range :
  forall (g : list nat) (rest : list (list nat)) (prediction target : array2 Z)
         (row : list Z) (k : nat),
    1 < length g ->
    In k g -> In row prediction -> length row <= k ->
    apply_permutation_indices prediction target (g :: rest) = Raise IndexError.
Proof.
  intros g rest p t row k B Hk Hrow Hr. simpl.
  apply Nat.ltb_lt in B. rewrite B.
  unfold sort_columns. rewrite (@mapR_raise _ _ (sort_row g) p IndexError).
  - reflexivity.
  - intros x e'. apply sort_row_raises.
  - exists row. split; [exact Hrow|]. exists IndexError. unfold sort_row.
    now rewrite (index_many_out_of_range _ _ Hk Hr).
Qed.

Lemma per_target_impl (R R' : list (list nat) -> list Z -> list Z -> Prop)
  (decoders : list (list (list nat))) (l l' : list (array2 Z)) :
  (forall groups r r', R groups r r' -> R' groups r r') ->
  per_target R decoders l l' -> per_target R' decoders l l'.
Proof.
  intros I. induction 1 as [|groups decoders a a' l l' Ha _ IH]; constructor;
    [|exact IH].
  clear -Ha I. induction Ha; constructor; auto.
Qed.

Lemma sorted_from_same (groups : list (list nat)) (row row' : list Z) :
  sorted_from groups row row' -> same_up_to_groups groups row row'.
Proof.
  intros [L [O S]]. split; [now symmetry|]. split.
  - intros k Hk. symmetry. now apply O.
  - intros g Hg B. symmetry. now apply S.
Qed.

(** X15.  The sort is a normal form: for decoders with pairwise disjoint groups of
    distinct positions of their targets, sorting the sorted predictions and
    targets again changes nothing. *)
Theorem sorting_twice_is_sorting_once :
  forall (decoders : list (list (list nat))) (preds targets : list (array2 Z)),
    Forall2 decodable decoders preds ->
    Forall2 decodable decoders targets ->
    exists sorted_targets sorted_preds,
      apply_permutation_groups targets preds decoders
      = Ok (sorted_targets, sorted_preds)
      /\ apply_permutation_groups sorted_targets sorted_preds decoders
         = Ok (sorted_targets, sorted_preds).
Proof.
  intros decoders preds targets Dp Dt.
  exists (normal_arrays decoders targets), (normal_arrays decoders preds).
  split; [now apply apply_permutation_groups_ok|].
  assert (Sp : per_target same_up_to_groups decoders preds
                 (normal_arrays decoders preds)).
  { eapply per_target_impl; [apply sorted_from_same|now apply normal_arrays_sorted]. }
  assert (St : per_target same_up_to_groups decoders targets
                 (normal_arrays decoders targets)).
  { eapply per_target_impl; [apply sorted_from_same|now apply normal_arrays_sorted]. }
  rewrite (apply_permutation_groups_ok (same_jets_decodable Sp Dp)
             (same_jets_decodable St Dt)).
  now rewrite (same_jets_normal Sp Dp), (same_jets_normal St Dt).
Qed.

Lemma apply_permutation_indices_length (groups : list (list nat))
  (p t p' t' : array2 Z) :
  apply_permutation_indices p t groups = Ok (p', t') ->
  length p' = length p /\ length t' = length t.
Proof.
  intros H. destruct (sort_touches_symmetric_groups_only _ _ _ H) as [Fp Ft].
  apply Forall2_length in Fp, Ft. now split.
Qed.

Lemma apply_permutation_groups_length (decoders : list (list (list nat)))
  (targets preds sorted_targets sorted_preds : list (array2 Z)) :
  apply_permutation_groups targets preds decoders = Ok (sorted_targets, sorted_preds) ->
  length sorted_targets = length targets /\ length sorted_preds = length preds.
Proof.
  revert preds decoders sorted_targets sorted_preds.
  induction targets as [|t targets IH]; intros [|p preds] [|d decoders] st sp H;
    simpl in H; try (injection H as <- <-; now split).
  destruct (apply_permutation_indices p t d) as [[p' t']|e]; simpl in H; [|discriminate].
  destruct (apply_permutation_groups targets preds decoders) as [[ts ps]|e] eqn:E;
    simpl in H; [|discriminate].
  injection H as <- <-. destruct (IH _ _ _ _ E) as [L1 L2]. simpl. now rewrite L1, L2.
Qed.

(* ===================================================================== *)
(** * Further properties of [validation_step] *)
(* ===================================================================== *)

Lemma get_app {V} (k : string) (a b : Dict.dict V) :
  Dict.get k (a ++ b)
  = match Dict.get k a with Some v => Some v | None => Dict.get k b end.
Proof.
  induction a as [|[k' v'] a IH]; simpl; [reflexivity|].
  destruct (String.eqb k k'); [reflexivity|exact IH].
Qed.

Lemma get_update_nodup {V} (k : string) (c d : Dict.dict V) :
  NoDup (map fst c) ->
  Dict.get k (Dict.update d c)
  = match Dict.get k c with Some v => Some v | None => Dict.get k d end.
Proof.
  induction c as [|[k' v'] c IH] using rev_ind; intros ND; [reflexivity|].
  rewrite map_app in ND. simpl in ND.
  apply NoDup_remove in ND. rewrite app_nil_r in ND. destruct ND as [ND Hk].
  unfold Dict.update in *. rewrite fold_left_app. simpl. rewrite get_app. simpl.
  destruct (String.eqb_spec k k') as [->|N].
  - rewrite get_set_same. apply get_none_iff in Hk. now rewrite Hk.
  - rewrite get_set_other by exact N. rewrite IH by exact ND.
    destruct (Dict.get k c); reflexivity.
Qed.

Lemma compute_metrics_keys
  (accuracy_score recall_score f1_score : list bool -> list bool -> float)
  (ept : array2 nat) (preds targets : list (array2 Z))
  (scores : array2 float) (masks : array2 bool) (metrics : Dict.dict float) :
  compute_metrics accuracy_score recall_score f1_score ept
    preds scores targets masks = Ok metrics ->
  map fst (Dict.items metrics) = metric_names (length masks).
Proof.
  intros E.
  destruct (best_permutation_accuracies ept preds (threshold_scores scores)
              targets masks) as [[[[ja pa] pm] np]|e] eqn:Best.
  2:{ unfold compute_metrics in E. rewrite Best in E. discriminate E. }
  destruct (length masks) as [|n] eqn:L.
  - exfalso. revert E. unfold compute_metrics. rewrite Best, L. cbn [rbind].
    unfold accuracy_items. simpl. discriminate.
  - assert (N : 1 <= length masks) by lia.
    destruct (@compute_metrics_names accuracy_score recall_score f1_score
                _ _ _ _ _ _ _ _ _ Best N) as [m [E' K]].
    rewrite E in E'. injection E' as <-. now rewrite <- L.
Qed.

Lemma for_each_raises {A} (xs : list A) (body : A -> M unit) (x : A) :
  (forall y, framed (body y)) ->
  In x xs ->
  (exists e, fst (run (body x)) = Raise e) ->
  exists e, fst (run (for_each xs body)) = Raise e.
Proof.
  intros F Hx [e He]. induction xs as [|a xs IH]; [contradiction|].
  simpl. unfold run. rewrite (bind_framed _ _ (F a)).
  destruct (fst (run (body a))) as [[]|e'] eqn:Ea.
  - destruct Hx as [->|Hx]; [congruence|].
    destruct (IH Hx) as [e1 H1]. exists e1.
    rewrite (framed_for_each xs body F). exact H1.
  - now exists e'.
Qed.

Section MoreStepProperties.

Variables Sources Assignments Detections Regressions Classifications : Type.
Variables accuracy_score recall_score f1_score : list bool -> list bool -> float.
Variables tsum tmean np_mean : list float -> float.
Variable symmetric_losses :
  Assignments -> Detections -> list AssignmentTarget -> tensor3 * list nat.
Variable add_kl_loss :
  list (list float) -> Assignments -> array2 bool -> tensor3 -> list (list float).
Variable add_regression_loss :
  list (list float) -> Regressions -> Dict.dict (list float) -> list (list float).
Variable add_classification_loss :
  list (list float) -> Classifications -> Dict.dict (list Z) -> list (list float).
Variable predict :
  Sources -> Predictions * Outputs Assignments Detections Regressions Classifications.
Variable full_report_string :
  list (array2 Z) -> list (array2 Z) -> array2 bool -> Dict.dict float.
Variable batch_on_cpu : bool.
Variable self : Network.

Local Abbreviation losses :=
  (compute_validation_losses tsum tmean symmetric_losses add_kl_loss
     add_regression_loss add_classification_loss self).
Local Abbreviation step :=
  (validation_step accuracy_score recall_score f1_score tsum tmean np_mean
     symmetric_losses add_kl_loss add_regression_loss add_classification_loss
     predict full_report_string batch_on_cpu self).
Local Abbreviation aggregate := (aggregate_losses tsum symmetric_losses self).
Local Abbreviation collect :=
  (collect_losses add_kl_loss add_regression_loss add_classification_loss self).

(** What a returning step has computed. *)
Lemma validation_step_returns (batch : Batch Sources) (batch_idx : nat) (trace0 trace : list log_entry)
  (metrics : Dict.dict float) :
  step batch batch_idx trace0 = (Ok metrics, trace) ->
  exists stacked_masks sorted_targets sorted_preds computed loss,
    mapR (fun t => assign_mask (length (num_vectors batch)) (mask t))
         (assignment_targets batch) = Ok stacked_masks
    /\ apply_permutation_groups (map indices (assignment_targets batch))
         (jet_predictions (fst (predict (sources batch)))) (branch_decoders self)
       = Ok (sorted_targets, sorted_preds)
    /\ compute_metrics accuracy_score recall_score f1_score
         (event_permutation_tensor self) sorted_preds
         (particle_scores (fst (predict (sources batch)))) sorted_targets stacked_masks
       = Ok computed
    /\ metrics
       = Dict.update
           (full_report_string (jet_predictions (fst (predict (sources batch))))
              (map indices (assignment_targets batch)) stacked_masks)
           (Dict.items computed)
    /\ fst (run (losses (snd (predict (sources batch)))
                   (batch_after_sorting batch_on_cpu batch sorted_targets)))
       = Ok loss
    /\ exists earlier,
         trace
         = earlier
           ++ snd (run (losses (snd (predict (sources batch)))
                          (batch_after_sorting batch_on_cpu batch sorted_targets))).
Proof.
  intros H. cbv beta in H. unfold validation_step in H.
  destruct (predict (sources batch)) as [predictions outputs] eqn:P.
  cbn [fst snd].
  destruct (mapR _ (assignment_targets batch)) as [stacked_masks|e] eqn:E1;
    [|discriminate H].
  rewrite bind_lift_ok in H.
  destruct (apply_permutation_groups _ _ _) as [[sorted_t sorted_p]|e] eqn:E2;
    [|discriminate H].
  rewrite bind_lift_ok in H.
  destruct (compute_metrics _ _ _ _ _ _ _ _) as [computed|e] eqn:E3;
    [|discriminate H].
  rewrite bind_lift_ok in H.
  rewrite (bind_framed _ _ (framed_log_regressions _ _ _ _)) in H.
  destruct (fst (run (log_regressions _ _ _ _))) as [[]|e]; [|discriminate H].
  rewrite (bind_framed _ _ (framed_log_classifications _ _)) in H.
  destruct (fst (run (log_classifications _ _))) as [[]|e]; [|discriminate H].
  unfold bind at 1 in H. rewrite log_metrics_trace in H.
  rewrite (bind_framed _ _ (framed_losses _ _ _ _ _ _ _ _ _)) in H.
  destruct (fst (run (losses _ _))) as [loss|e] eqn:L; [|discriminate H].
  unfold ret in H. injection H as <- <-.
  exists stacked_masks, sorted_t, sorted_p, computed, loss.
  split; [first [exact E1|reflexivity]|]. split; [first [exact E2|reflexivity]|].
  split; [first [exact E3|reflexivity]|].
  split; [reflexivity|]. split; [first [exact L|reflexivity]|].
  eexists. reflexivity.
Qed.


(** X16.  The targets are sorted in place, and on the CPU the arrays that
    [validation_step] sorts are views of the tensors of the batch.  So when
    the step returns on the CPU, [compute_validation_losses] has run on a
    batch whose targets carry the sorted jet indices with the masks they had,
    every other field being the one of the batch given; off the CPU it has run
    on the batch as given.  The log of the loss ends the log of the step. *)
Theorem sorted_targets_reach_the_loss_on_cpu :
  forall (batch : Batch Sources) (batch_idx : nat)
         (trace0 trace : list log_entry) (metrics : Dict.dict float),
    step batch batch_idx trace0 = (Ok metrics, trace) ->
    exists sorted_targets sorted_preds seen loss earlier,
      apply_permutation_groups (map indices (assignment_targets batch))
        (jet_predictions (fst (predict (sources batch)))) (branch_decoders self)
      = Ok (sorted_targets, sorted_preds)
      /\ fst (run (losses (snd (predict (sources batch))) seen)) = Ok loss
      /\ trace = earlier ++ snd (run (losses (snd (predict (sources batch))) seen))
      /\ (batch_on_cpu = true ->
          map indices (assignment_targets seen) = sorted_targets
          /\ map mask (assignment_targets seen) = map mask (assignment_targets batch)
          /\ sources seen = sources batch
          /\ num_vectors seen = num_vectors batch
          /\ regression_targets seen = regression_targets batch
          /\ classification_targets seen = classification_targets batch)
      /\ (batch_on_cpu = false -> seen = batch).
Proof.
  intros batch batch_idx trace0 trace metrics H.
  apply validation_step_returns in H.
  destruct H as [masks [st [sp [computed [loss [_ [E2 [_ [_ [L [earlier T]]]]]]]]]]].
  exists st, sp, (batch_after_sorting batch_on_cpu batch st), loss, earlier.
  split; [exact E2|]. split; [exact L|]. split; [exact T|].
  unfold batch_after_sorting. split.
  - intros ->. cbn [assignment_targets sources num_vectors regression_targets
                    classification_targets].
    apply apply_permutation_groups_length in E2. destruct E2 as [Lt _].
    assert (Lc : length st = length (assignment_targets batch))
      by (now rewrite Lt, length_map).
    clear -Lc. rewrite !map_map. cbn [indices mask].
    repeat split; try reflexivity.
    + revert Lc. generalize (assignment_targets batch) as ts.
      induction st as [|a st IH]; intros [|t ts] Lc; try discriminate Lc;
        [reflexivity|].
      cbn [combine map fst]. f_equal. apply IH. now injection Lc.
    + revert Lc. generalize (assignment_targets batch) as ts.
      induction st as [|a st IH]; intros [|t ts] Lc; try discriminate Lc;
        [reflexivity|].
      cbn [combine map snd]. f_equal. apply IH. now injection Lc.
  - intros ->. reflexivity.
Qed.

(** X17.  Nothing is logged before the metrics are computed: when stacking the
    masks, sorting the symmetric jets or [compute_metrics] raises,
    [validation_step] raises the same exception and leaves the log as it
    was. *)
Theorem failing_metrics_log_nothing :
  forall (batch : Batch Sources) (batch_idx : nat) (trace0 : list log_entry)
         (e : exn),
    let predictions := fst (predict (sources batch)) in
    (stacked_masks <- mapR (fun t => assign_mask (length (num_vectors batch)) (mask t))
                           (assignment_targets batch) ;;
     metrics_after_sorting accuracy_score recall_score f1_score
       (event_permutation_tensor self) (branch_decoders self)
       (map indices (assignment_targets batch)) (jet_predictions predictions)
       (particle_scores predictions) stacked_masks)%result
    = Raise e ->
    step batch batch_idx trace0 = (Raise e, trace0).
Proof.
  intros batch batch_idx trace0 e predictions H. subst predictions.
  unfold validation_step.
  destruct (predict (sources batch)) as [predictions outputs]. cbn [fst] in H.
  destruct (mapR _ (assignment_targets batch)) as [stacked_masks|e1];
    cbn [rbind] in H; [|now injection H as ->].
  rewrite bind_lift_ok. unfold metrics_after_sorting in H.
  destruct (apply_permutation_groups _ _ _) as [[st sp]|e1];
    cbn [rbind fst snd] in H; [|now injection H as ->].
  rewrite bind_lift_ok, H. reflexivity.
Qed.

(** X18.  An exception of [compute_validation_losses] is raised after the metrics
    were logged: when the metrics are computed and the regression and
    classification loops pass, a failing loss (a diverged assignment loss for
    one) makes [validation_step] raise its exception with the metrics that are
    not NaN and the losses of the targets in the log, and no dictionary is
    returned. *)
Theorem failing_loss_raises_after_the_metrics_are_logged :
  forall (batch : Batch Sources) (batch_idx : nat) (trace0 : list log_entry)
         (stacked_masks : array2 bool) (sorted_targets sorted_preds : list (array2 Z))
         (computed : Dict.dict float) (e : exn),
    let predictions := fst (predict (sources batch)) in
    let outputs := snd (predict (sources batch)) in
    let stacked_targets := map indices (assignment_targets batch) in
    let metrics :=
      Dict.update (full_report_string (jet_predictions predictions) stacked_targets
                     stacked_masks) (Dict.items computed) in
    let regress :=
      run (log_regressions np_mean self (predicted_regressions predictions)
             (regression_targets batch)) in
    let classify :=
      run (log_classifications (predicted_classifications predictions)
             (classification_targets batch)) in
    let loss :=
      run (losses outputs (batch_after_sorting batch_on_cpu batch sorted_targets)) in
    mapR (fun t => assign_mask (length (num_vectors batch)) (mask t))
         (assignment_targets batch) = Ok stacked_masks ->
    apply_permutation_groups stacked_targets (jet_predictions predictions)
      (branch_decoders self) = Ok (sorted_targets, sorted_preds) ->
    compute_metrics accuracy_score recall_score f1_score
      (event_permutation_tensor self) sorted_preds
      (particle_scores predictions) sorted_targets stacked_masks = Ok computed ->
    fst regress = Ok tt ->
    fst classify = Ok tt ->
    fst loss = Raise e ->
    step batch batch_idx trace0
    = (Raise e,
       trace0 ++ snd regress ++ snd classify ++ metric_entries metrics ++ snd loss).
Proof.
  intros batch batch_idx trace0 stacked_masks st sp computed e
         predictions outputs stacked_targets metrics regress classify loss
         E1 E2 E3 R C L.
  subst predictions outputs stacked_targets metrics regress classify loss.
  unfold validation_step.
  destruct (predict (sources batch)) as [predictions outputs].
  cbn [fst snd] in *.
  rewrite E1, bind_lift_ok, E2, bind_lift_ok, E3, bind_lift_ok.
  rewrite (bind_framed _ _ (framed_log_regressions _ _ _ _)), R.
  rewrite (bind_framed _ _ (framed_log_classifications _ _)), C.
  unfold bind at 1. rewrite log_metrics_trace.
  rewrite (bind_framed _ _ (framed_losses _ _ _ _ _ _ _ _ _)), L.
  now rewrite <- !app_assoc.
Qed.

(** X19.  In the returned dictionary the entries of [compute_metrics] take the place
    of the entries of the evaluator that have their names, and every other
    entry of the evaluator is kept: a name is looked up in the result of
    [compute_metrics] first. *)
Theorem computed_metrics_override_the_report :
  forall (batch : Batch Sources) (batch_idx : nat)
         (trace0 trace : list log_entry) (metrics : Dict.dict float),
    step batch batch_idx trace0 = (Ok metrics, trace) ->
    exists stacked_masks sorted_targets sorted_preds computed,
      let predictions := fst (predict (sources batch)) in
      compute_metrics accuracy_score recall_score f1_score
        (event_permutation_tensor self) sorted_preds
        (particle_scores predictions) sorted_targets stacked_masks = Ok computed
      /\ forall name,
           Dict.get name metrics
           = match Dict.get name computed with
             | Some value => Some value
             | None =>
                 Dict.get name
                   (full_report_string (jet_predictions predictions)
                      (map indices (assignment_targets batch)) stacked_masks)
             end.
Proof.
  intros batch batch_idx trace0 trace metrics H.
  unfold validation_step in H.
  destruct (predict (sources batch)) as [predictions outputs] eqn:P.
  cbn [fst snd].
  destruct (mapR _ (assignment_targets batch)) as [stacked_masks|e] eqn:E1;
    [|discriminate H].
  rewrite bind_lift_ok in H.
  destruct (apply_permutation_groups _ _ _) as [[sorted_t sorted_p]|e] eqn:E2;
    [|discriminate H].
  rewrite bind_lift_ok in H.
  destruct (compute_metrics _ _ _ _ _ _ _ _) as [computed|e] eqn:E3;
    [|discriminate H].
  rewrite bind_lift_ok in H.
  rewrite (bind_framed _ _ (framed_log_regressions _ _ _ _)) in H.
  destruct (fst (run (log_regressions _ _ _ _))) as [[]|e]; [|discriminate H].
  rewrite (bind_framed _ _ (framed_log_classifications _ _)) in H.
  destruct (fst (run (log_classifications _ _))) as [[]|e]; [|discriminate H].
  unfold bind at 1 in H. rewrite log_metrics_trace in H.
  rewrite (bind_framed _ _ (framed_losses _ _ _ _ _ _ _ _ _)) in H.
  destruct (fst (run (losses _ _))) as [loss|e]; [|discriminate H].
  unfold ret in H. injection H as <- <-.
  exists stacked_masks, sorted_t, sorted_p, computed.
  split; [exact E3|]. intros name.
  apply get_update_nodup. unfold Dict.items.
  pose proof (compute_metrics_keys _ _ _ _ _ _ _ _ E3) as K.
  unfold Dict.items in K. rewrite K. apply NoDup_metric_names.
Qed.

(** X20.  A predicted regression or classification without a target of its name
    makes its loop raise: [validation_step] looks the target up by the key of
    the prediction. *)
Theorem prediction_without_target_raises :
  forall (regressions targets : Dict.dict (list float))
         (classifications class_targets : Dict.dict (list Z)),
    (forall key,
        In key (map fst (Dict.items regressions)) ->
        Dict.get key targets = None ->
        exists e, fst (run (log_regressions np_mean self regressions targets))
                  = Raise e)
    /\ (forall key,
          In key (map fst (Dict.items classifications)) ->
          Dict.get key class_targets = None ->
          exists e, fst (run (log_classifications classifications class_targets))
                    = Raise e).
Proof.
  intros regressions targets classifications class_targets. split.
  - intros key Hkey Hnone. unfold log_regressions.
    apply (@for_each_raises _ _ _ key); [intros y; cbv beta; framed|exact Hkey|].
    unfold run.
    destruct (Dict.get key regressions) as [pred|] eqn:G.
    + exists (KeyError key). unfold Dict.getitem. rewrite G, Hnone. reflexivity.
    + exists (KeyError key). unfold Dict.getitem. rewrite G. reflexivity.
  - intros key Hkey Hnone. unfold log_classifications.
    apply (@for_each_raises _ _ _ key); [intros y; cbv beta; framed|exact Hkey|].
    unfold run.
    destruct (Dict.get key classifications) as [pred|] eqn:G.
    + exists (KeyError key). unfold Dict.getitem. rewrite G, Hnone. reflexivity.
    + exists (KeyError key). unfold Dict.getitem. rewrite G. reflexivity.
Qed.

End MoreStepProperties.
(* ===================================================================== *)
(** * The sort of [validation_step] and its metrics *)
(* ===================================================================== *)

Section SortedMetrics.

Variables Sources Assignments Detections Regressions Classifications : Type.
Variables accuracy_score recall_score f1_score : list bool -> list bool -> float.
Variables tsum tmean np_mean : list float -> float.
Variable symmetric_losses :
  Assignments -> Detections -> list AssignmentTarget -> tensor3 * list nat.
Variable add_kl_loss :
  list (list float) -> Assignments -> array2 bool -> tensor3 -> list (list float).
Variable add_regression_loss :
  list (list float) -> Regressions -> Dict.dict (list float) -> list (list float).
Variable add_classification_loss :
  list (list float) -> Classifications -> Dict.dict (list Z) -> list (list float).
Variables predict predict' :
  Sources -> Predictions * Outputs Assignments Detections Regressions Classifications.
Variable full_report_string :
  list (array2 Z) -> list (array2 Z) -> array2 bool -> Dict.dict float.
Variable batch_on_cpu : bool.
Variable self : Network.

Local Abbreviation step :=
  (validation_step accuracy_score recall_score f1_score tsum tmean np_mean
     symmetric_losses add_kl_loss add_regression_loss add_classification_loss
     predict full_report_string batch_on_cpu self).
Local Abbreviation step' :=
  (validation_step accuracy_score recall_score f1_score tsum tmean np_mean
     symmetric_losses add_kl_loss add_regression_loss add_classification_loss
     predict' full_report_string batch_on_cpu self).


End SortedMetrics.

(** ** The further properties on the small event *)

Lemma compute_metrics_needs_a_permutation_and_a_target_witness :
  compute_metrics Example.agreement Example.agreement Example.agreement
    Example.ept Example.preds Example.scores Example.targets Example.masks
  = Ok Example.computed_metrics
  /\ Example.ept <> [] /\ 1 <= length Example.masks.
Proof.
  split; [reflexivity|].
  apply (proj2 (proj2 (compute_metrics_needs_a_permutation_and_a_target
                         Example.agreement Example.agreement Example.agreement
                         Example.ept Example.preds Example.targets
                         Example.scores Example.masks))
               Example.computed_metrics).
  reflexivity.
Defined.

Lemma particle_accuracy_is_best_permutation_witness :
  well_shaped Example.ept Example.preds (threshold_scores Example.scores)
    Example.targets Example.masks = true
  /\ exists jet_accuracies particle_accuracies permuted_masks num_particles,
      best_permutation_accuracies Example.ept Example.preds
        (threshold_scores Example.scores) Example.targets Example.masks
      = Ok (jet_accuracies, particle_accuracies, permuted_masks, num_particles)
      /\ length particle_accuracies = ncols Example.masks
      /\ forall b, b < ncols Example.masks ->
           (forall permutation, In permutation Example.ept ->
              matching_particles Example.masks (threshold_scores Example.scores)
                permutation b
              <= nth b particle_accuracies 0)
           /\ (exists permutation, In permutation Example.ept
                 /\ nth b particle_accuracies 0
                    = matching_particles Example.masks
                        (threshold_scores Example.scores) permutation b).
Proof.
  split; [reflexivity|].
  apply (particle_accuracy_is_best_permutation Example.ept Example.preds
           Example.targets (threshold_scores Example.scores) Example.masks).
  reflexivity.
Defined.

Lemma accuracy_counts_are_bounded_witness :
  well_shaped Example.ept Example.preds (threshold_scores Example.scores)
    Example.targets Example.masks = true
  /\ exists jet_accuracies particle_accuracies permuted_masks num_particles,
      best_permutation_accuracies Example.ept Example.preds
        (threshold_scores Example.scores) Example.targets Example.masks
      = Ok (jet_accuracies, particle_accuracies, permuted_masks, num_particles)
      /\ Forall (fun a => a <= length Example.masks) jet_accuracies
      /\ Forall (fun a => a <= length Example.masks) particle_accuracies
      /\ Forall (fun n => n <= length Example.masks) num_particles.
Proof.
  split; [reflexivity|].
  apply (accuracy_counts_are_bounded Example.ept Example.preds
           Example.targets (threshold_scores Example.scores) Example.masks).
  reflexivity.
Defined.

Lemma permuted_masks_follow_first_best_permutation_witness :
  well_shaped Example.ept Example.preds (threshold_scores Example.scores)
    Example.targets Example.masks = true
  /\ exists jet_accuracies particle_accuracies permuted_masks num_particles,
      best_permutation_accuracies Example.ept Example.preds
        (threshold_scores Example.scores) Example.targets Example.masks
      = Ok (jet_accuracies, particle_accuracies, permuted_masks, num_particles)
      /\ length permuted_masks = length Example.masks
      /\ forall b, b < ncols Example.masks ->
           exists i permutation,
             nth_error Example.ept i = Some permutation
             /\ matching_targets Example.preds Example.targets permutation b
                = nth b jet_accuracies 0
             /\ (forall j earlier, j < i -> nth_error Example.ept j = Some earlier ->
                   matching_targets Example.preds Example.targets earlier b
                   < nth b jet_accuracies 0)
             /\ forall t, t < length Example.masks ->
                  nth b (nth t permuted_masks []) false
                  = nth b (nth (nth t permutation 0) Example.masks []) false.
Proof.
  split; [reflexivity|].
  apply (permuted_masks_follow_first_best_permutation Example.ept Example.preds
           Example.targets (threshold_scores Example.scores) Example.masks).
  reflexivity.
Defined.

Lemma permuted_masks_keep_present_targets_witness :
  well_shaped Example.ept Example.preds (threshold_scores Example.scores)
    Example.targets Example.masks = true
  /\ Forall (fun permutation => NoDup permutation) Example.ept
  /\ exists jet_accuracies particle_accuracies permuted_masks num_particles,
      best_permutation_accuracies Example.ept Example.preds
        (threshold_scores Example.scores) Example.targets Example.masks
      = Ok (jet_accuracies, particle_accuracies, permuted_masks, num_particles)
      /\ forall b, b < ncols Example.masks ->
           count_true (map (fun row => nth b row false) permuted_masks)
           = nth b num_particles 0.
Proof.
  assert (N : Forall (fun permutation => NoDup permutation) Example.ept).
  { repeat constructor; simpl; intuition discriminate. }
  split; [reflexivity|]. split; [exact N|].
  apply (@permuted_masks_keep_present_targets Example.ept Example.preds
           Example.targets (threshold_scores Example.scores) Example.masks).
  - reflexivity.
  - exact N.
Defined.

Lemma metric_names_of_compute_metrics_witness :
  well_shaped Example.ept Example.preds Example.scores Example.targets Example.masks
  = true
  /\ 1 <= length Example.masks
  /\ exists metrics,
      compute_metrics Example.agreement Example.agreement Example.agreement
        Example.ept Example.preds Example.scores Example.targets Example.masks
      = Ok metrics
      /\ map fst (Dict.items metrics) = metric_names (length Example.masks)
      /\ NoDup (map fst (Dict.items metrics))
      /\ length (Dict.items metrics)
         = length Example.masks * (length Example.masks + 1) + 5.
Proof.
  split; [reflexivity|]. split; [simpl; lia|].
  apply (metric_names_of_compute_metrics Example.agreement Example.agreement
           Example.agreement Example.ept Example.preds Example.scores
           Example.targets Example.masks).
  - reflexivity.
  - simpl. lia.
Defined.

Lemma empty_bin_is_nan_witness :
  well_shaped Example.ept Example.preds Example.scores Example.targets Example.masks
  = true
  /\ Forall (fun n => n <> 1) (sum_axis0 (ncols Example.masks) Example.masks)
  /\ exists metrics,
      compute_metrics Example.agreement Example.agreement Example.agreement
        Example.ept Example.preds Example.scores Example.targets Example.masks
      = Ok metrics
      /\ Dict.get (accuracy_key "jet" 1 1) metrics = Some nan
      /\ Dict.get (accuracy_key "particle" 1 1) metrics = Some nan.
Proof.
  assert (N : Forall (fun n => n <> 1)
                (sum_axis0 (ncols Example.masks) Example.masks)).
  { repeat constructor; discriminate. }
  split; [reflexivity|]. split; [exact N|].
  apply (empty_bin_is_nan Example.agreement Example.agreement Example.agreement
           Example.ept Example.preds Example.scores Example.targets Example.masks
           (i := 1) (j := 1)).
  - reflexivity.
  - lia.
  - lia.
  - simpl. lia.
  - exact N.
Defined.

Lemma particle_balanced_weights_witness :
  length [[true; false]; [true; true]]
  = length (particle_index_tensor Example.network_balanced_particles)
  /\ (forall b, b < ncols [[true; false]; [true; true]] ->
        list_sum (map (fun mp : list bool * nat =>
                         if nth b (fst mp) false then snd mp else 0)
                      (combine [[true; false]; [true; true]]
                         (particle_index_tensor Example.network_balanced_particles)))
        < length (particle_weights_tensor Example.network_balanced_particles))
  /\ Forall (fun s : list float * list float =>
               length (fst s) = ncols [[true; false]; [true; true]]
               /\ length (snd s) = ncols [[true; false]; [true; true]])
            Example.symmetric
  /\ loss_weights Example.network_balanced_particles Example.symmetric
       [[true; false]; [true; true]] Example.batch
     = Ok [([mul32 one half; mul32 one one], [mul32 one half; mul32 one one]);
           ([mul32 one half; mul32 one one], [mul32 one half; mul32 one one])].
Proof.
  assert (R : forall b, b < ncols [[true; false]; [true; true]] ->
        list_sum (map (fun mp : list bool * nat =>
                         if nth b (fst mp) false then snd mp else 0)
                      (combine [[true; false]; [true; true]]
                         (particle_index_tensor Example.network_balanced_particles)))
        < length (particle_weights_tensor Example.network_balanced_particles)).
  { intros b Hb. change (b < 2) in Hb.
    destruct b as [|[|b]]; [vm_compute; lia|vm_compute; lia|lia]. }
  assert (S : Forall (fun s : list float * list float =>
               length (fst s) = ncols [[true; false]; [true; true]]
               /\ length (snd s) = ncols [[true; false]; [true; true]])
            Example.symmetric).
  { repeat constructor. }
  split; [reflexivity|]. split; [exact R|]. split; [exact S|].
  exact (@particle_balanced_weights unit Example.network_balanced_particles
           Example.batch Example.symmetric [[true; false]; [true; true]]
           eq_refl eq_refl eq_refl R S).
Defined.

Lemma jet_weight_lookup_out_of_range_witness :
  Example.symmetric_losses (assignments Example.outputs)
    (detections Example.outputs) (assignment_targets Example.batch)
  = (Example.symmetric, [0; 1])
  /\ loss_masks (Example.network_balanced_jets [one; one]) [0; 1] Example.batch
     = Ok Example.masks
  /\ In 2 (num_vectors Example.batch)
  /\ length (jet_weights_tensor (Example.network_balanced_jets [one; one])) <= 2
  /\ run (compute_validation_losses Example.sum32 Example.mean32
            Example.symmetric_losses Example.add_kl_loss
            Example.add_regression_loss Example.add_classification_loss
            (Example.network_balanced_jets [one; one])
            Example.outputs Example.batch)
     = (Raise IndexError, []).
Proof.
  split; [reflexivity|]. split; [reflexivity|].
  split; [now left|]. split; [simpl; lia|].
  apply (@jet_weight_lookup_out_of_range unit tensor3 (list nat) unit unit
           Example.sum32 Example.mean32 Example.symmetric_losses
           Example.add_kl_loss Example.add_regression_loss
           Example.add_classification_loss
           (Example.network_balanced_jets [one; one])
           Example.outputs Example.batch Example.symmetric [0; 1]
           Example.masks 2).
  - reflexivity.
  - reflexivity.
  - reflexivity.
  - reflexivity.
  - now left.
  - simpl. lia.
Defined.

Lemma jet_balanced_weights_witness :
  Forall (fun n => n < length (jet_weights_tensor
                                 (Example.network_balanced_jets [one; one; half])))
         (num_vectors Example.batch)
  /\ Forall (fun s => length (fst s) = length (num_vectors Example.batch)
                      /\ length (snd s) = length (num_vectors Example.batch))
            Example.symmetric
  /\ loss_weights (Example.network_balanced_jets [one; one; half])
       Example.symmetric Example.masks Example.batch
     = Ok (map (fun _ => (map (fun n => mul32 one (nth n [one; one; half] zero))
                              (num_vectors Example.batch),
                          map (fun n => mul32 one (nth n [one; one; half] zero))
                              (num_vectors Example.batch)))
               Example.symmetric).
Proof.
  assert (R : Forall (fun n => n < length (jet_weights_tensor
                                 (Example.network_balanced_jets [one; one; half])))
                     (num_vectors Example.batch)).
  { repeat constructor. }
  assert (S : Forall (fun s => length (fst s) = length (num_vectors Example.batch)
                      /\ length (snd s) = length (num_vectors Example.batch))
                     Example.symmetric).
  { repeat constructor. }
  split; [exact R|]. split; [exact S|].
  exact (@jet_balanced_weights unit (Example.network_balanced_jets [one; one; half])
           Example.batch Example.symmetric Example.masks eq_refl eq_refl R S).
Defined.

Lemma sort_touches_symmetric_groups_only_witness :
  apply_permutation_indices [[2; 1; 9]; [4; 3; 9]]%Z [[6; 5; 0]; [7; 8; 0]]%Z [[0; 1]; [2]]
  = Ok ([[1; 2; 9]; [3; 4; 9]]%Z, [[5; 6; 0]; [7; 8; 0]]%Z)
  /\ Forall2 (kept_outside [[0; 1]; [2]])
       [[2; 1; 9]; [4; 3; 9]]%Z [[1; 2; 9]; [3; 4; 9]]%Z
  /\ Forall2 (kept_outside [[0; 1]; [2]])
       [[6; 5; 0]; [7; 8; 0]]%Z [[5; 6; 0]; [7; 8; 0]]%Z.
Proof.
  split; [reflexivity|].
  apply (@sort_touches_symmetric_groups_only [[0; 1]; [2]]
           [[2; 1; 9]; [4; 3; 9]]%Z [[6; 5; 0]; [7; 8; 0]]%Z
           [[1; 2; 9]; [3; 4; 9]]%Z [[5; 6; 0]; [7; 8; 0]]%Z).
  reflexivity.
Defined.

Lemma single_index_groups_are_skipped_witness :
  Forall (fun g => length g <= 1) [[0]; [5]; []]
  /\ apply_permutation_indices [[2; 1]; [4; 3]]%Z [[6; 5]; [7; 8]]%Z [[0]; [5]; []]
     = Ok ([[2; 1]; [4; 3]]%Z, [[6; 5]; [7; 8]]%Z).
Proof.
  assert (F : Forall (fun g => length g <= 1) [[0]; [5]; []]).
  { repeat constructor. }
  split; [exact F|].
  exact (@single_index_groups_are_skipped [[0]; [5]; []]
           [[2; 1]; [4; 3]]%Z [[6; 5]; [7; 8]]%Z F).
Defined.

Lemma symmetric_index_out_of_range_witness :
  1 < length [0; 2]
  /\ In 2 [0; 2]
  /\ In [2; 1]%Z [[2; 1]; [4; 3]]%Z
  /\ length [2; 1]%Z <= 2
  /\ apply_permutation_indices [[2; 1]; [4; 3]]%Z [[6; 5]; [7; 8]]%Z [[0; 2]; [0; 1]]
     = Raise IndexError.
Proof.
  split; [simpl; lia|]. split; [simpl; tauto|]. split; [simpl; tauto|].
  split; [simpl; lia|].
  apply (@symmetric_index_out_of_range [0; 2] [[0; 1]]
           [[2; 1]; [4; 3]]%Z [[6; 5]; [7; 8]]%Z [2; 1]%Z 2).
  - simpl. lia.
  - simpl. tauto.
  - simpl. tauto.
  - simpl. lia.
Defined.

Lemma sorting_twice_is_sorting_once_witness :
  exists sorted_targets sorted_preds,
    apply_permutation_groups Example.targets Example.preds Example.decoders
    = Ok (sorted_targets, sorted_preds)
    /\ apply_permutation_groups sorted_targets sorted_preds Example.decoders
       = Ok (sorted_targets, sorted_preds).
Proof.
  exact (sorting_twice_is_sorting_once
           example_preds_decodable example_targets_decodable).
Defined.

Lemma failing_metrics_log_nothing_witness :
  (stacked_masks <- mapR (fun t => assign_mask (length (num_vectors Example.batch))
                                     (mask t))
                         (assignment_targets Example.batch) ;;
   metrics_after_sorting Example.agreement Example.agreement Example.agreement
     (event_permutation_tensor Example.network_without_group)
     (branch_decoders Example.network_without_group)
     (map indices (assignment_targets Example.batch))
     (jet_predictions (fst (Example.predict (sources Example.batch))))
     (particle_scores (fst (Example.predict (sources Example.batch))))
     stacked_masks)%result
  = Raise (ValueError "attempt to get argmax of an empty sequence")
  /\ Example.step_of Example.predict Example.network_without_group Example.batch 0
       [LogScalar "epoch" one]
     = (Raise (ValueError "attempt to get argmax of an empty sequence"),
        [LogScalar "epoch" one]).
Proof.
  split; [reflexivity|].
  apply (@failing_metrics_log_nothing unit tensor3 (list nat) unit unit
           Example.agreement Example.agreement Example.agreement
           Example.sum32 Example.mean32 Example.mean32
           Example.symmetric_losses Example.add_kl_loss
           Example.add_regression_loss Example.add_classification_loss
           Example.predict Example.full_report_string true
           Example.network_without_group Example.batch 0
           [LogScalar "epoch" one]
           (ValueError "attempt to get argmax of an empty sequence")).
  reflexivity.
Defined.

Lemma failing_loss_raises_after_the_metrics_are_logged_witness :
  fst (run (Example.losses Example.outputs_diverged
              (batch_after_sorting true Example.batch Example.targets)))
  = Raise (ValueError "Assignment loss has diverged!")
  /\ Example.step_of Example.predict_diverged Example.network Example.batch 0 []
     = (Raise (ValueError "Assignment loss has diverged!"),
        []
        ++ snd (run (log_regressions Example.mean32 Example.network
                       (predicted_regressions (fst (Example.predict_diverged tt)))
                       (regression_targets Example.batch)))
        ++ snd (run (log_classifications
                       (predicted_classifications (fst (Example.predict_diverged tt)))
                       (classification_targets Example.batch)))
        ++ metric_entries Example.returned_metrics
        ++ snd (run (Example.losses Example.outputs_diverged
                       (batch_after_sorting true Example.batch Example.targets)))).
Proof.
  split; [reflexivity|].
  apply (@failing_loss_raises_after_the_metrics_are_logged
           unit tensor3 (list nat) unit unit
           Example.agreement Example.agreement Example.agreement
           Example.sum32 Example.mean32 Example.mean32
           Example.symmetric_losses Example.add_kl_loss
           Example.add_regression_loss Example.add_classification_loss
           Example.predict_diverged Example.full_report_string true
           Example.network Example.batch 0 []
           Example.masks Example.targets Example.preds Example.computed_metrics
           (ValueError "Assignment loss has diverged!"));
    reflexivity.
Defined.

Lemma computed_metrics_override_the_report_witness :
  Example.step Example.batch 0 []
  = (Ok Example.returned_metrics, snd Example.returned)
  /\ exists stacked_masks sorted_targets sorted_preds computed,
      let predictions := fst (Example.predict (sources Example.batch)) in
      compute_metrics Example.agreement Example.agreement Example.agreement
        (event_permutation_tensor Example.network) sorted_preds
        (particle_scores predictions) sorted_targets stacked_masks = Ok computed
      /\ forall name,
           Dict.get name Example.returned_metrics
           = match Dict.get name computed with
             | Some value => Some value
             | None =>
                 Dict.get name
                   (Example.full_report_string (jet_predictions predictions)
                      (map indices (assignment_targets Example.batch)) stacked_masks)
             end.
Proof.
  split; [reflexivity|].
  apply (@computed_metrics_override_the_report
           unit tensor3 (list nat) unit unit
           Example.agreement Example.agreement Example.agreement
           Example.sum32 Example.mean32 Example.mean32
           Example.symmetric_losses Example.add_kl_loss
           Example.add_regression_loss Example.add_classification_loss
           Example.predict Example.full_report_string true
           Example.network Example.batch 0 [] (snd Example.returned)
           Example.returned_metrics).
  reflexivity.
Defined.

Lemma prediction_without_target_raises_witness :
  In "mass" (map fst (Dict.items [("mass", [one; one])]))
  /\ Dict.get "mass" (@nil (string * list float)) = None
  /\ exists e,
      fst (run (log_regressions Example.mean32 Example.network
                  [("mass", [one; one])] []))
      = Raise e.
Proof.
  split; [now left|]. split; [reflexivity|].
  apply (proj1 (@prediction_without_target_raises Example.mean32 Example.network
                  [("mass", [one; one])] [] [] []) "mass").
  - now left.
  - reflexivity.
Defined.


Lemma sorted_targets_reach_the_loss_on_cpu_witness :
  Example.step_of Example.predict_swapped Example.network Example.batch_swapped 0 []
  = (Ok Example.returned_metrics_swapped, snd Example.returned_swapped)
  /\ exists sorted_targets sorted_preds seen loss earlier,
      apply_permutation_groups (map indices (assignment_targets Example.batch_swapped))
        Example.preds_swapped Example.decoders
      = Ok (sorted_targets, sorted_preds)
      /\ fst (run (Example.losses Example.outputs seen)) = Ok loss
      /\ snd Example.returned_swapped
         = earlier ++ snd (run (Example.losses Example.outputs seen))
      /\ (true = true ->
          map indices (assignment_targets seen) = sorted_targets
          /\ map mask (assignment_targets seen)
             = map mask (assignment_targets Example.batch_swapped)
          /\ sources seen = sources Example.batch_swapped
          /\ num_vectors seen = num_vectors Example.batch_swapped
          /\ regression_targets seen = regression_targets Example.batch_swapped
          /\ classification_targets seen
             = classification_targets Example.batch_swapped)
      /\ (true = false -> seen = Example.batch_swapped).
Proof.
  split; [reflexivity|].
  apply (@sorted_targets_reach_the_loss_on_cpu unit tensor3 (list nat) unit unit
           Example.agreement Example.agreement Example.agreement
           Example.sum32 Example.mean32 Example.mean32
           Example.symmetric_losses Example.add_kl_loss
           Example.add_regression_loss Example.add_classification_loss
           Example.predict_swapped Example.full_report_string
           true Example.network Example.batch_swapped 0 []
           (snd Example.returned_swapped) Example.returned_metrics_swapped).
  reflexivity.
Defined.
